(** * Device-binary packaging pipeline of the AMD-AIE target (XCLBinGen.cpp)

    A shallow embedding of
    [compiler/plugins/target/AMD-AIE/iree-amd-aie/Target/XCLBinGen.cpp].

    Pure helpers of the source are Rocq functions.  Code that touches the
    process environment, the file system, the device module or the
    diagnostic streams runs in a state monad over [World] whose outcome is
    either a returned value or an [Abort] (undefined behaviour or a fatal
    error in the C++ source: an out-of-range [ArrayRef] access, the
    dereference of a failed [FailureOr], a null [std::string] ...).

    Libraries the file only calls (LLVM's [sys], MLIR's pass manager and
    translations, the boot-image generator, the JSON reader and printer) are
    the fields of a [Platform] record over which the development is
    parametrised. *)

From Stdlib Require Import ZArith Lia Ascii String DecimalString.
From stdpp Require Import base option list gmap strings.

Local Open Scope string_scope.
Local Open Scope list_scope.
Local Open Scope Z_scope.

(** ** Strings as the source uses them *)

Module Str.

(** The double-quote character, [34]. *)
Definition dquote : ascii := ascii_of_nat 34.
Definition newline : ascii := ascii_of_nat 10.

Definition of_char (c : ascii) : string := String c EmptyString.

Definition quoted (s : string) : string :=
  String dquote (s +:+ of_char dquote).

(** [std::string::front] and [back]; [None] on the empty string. *)
Definition front (s : string) : option ascii := String.get 0 s.
Definition back (s : string) : option ascii :=
  String.get (Nat.pred (String.length s)) s.

(** [std::isspace] in the classic locale: space and the controls 9..13. *)
Definition isspace (c : ascii) : bool :=
  let n := nat_of_ascii c in
  Nat.eqb n 32 || (Nat.leb 9 n && Nat.leb n 13).

(** [std::istream_iterator<std::string>] over a string stream: maximal
    runs of non-space characters, in order.  [cur] is the token being
    read, if any. *)
Fixpoint tokens_from (cur : option string) (s : string) : list string :=
  match s with
  | EmptyString => match cur with Some t => [t] | None => [] end
  | String c s' =>
      if isspace c then
        match cur with
        | Some t => t :: tokens_from None s'
        | None => tokens_from None s'
        end
      else
        tokens_from (Some (default EmptyString cur +:+ of_char c)) s'
  end.

Definition tokens (s : string) : list string := tokens_from None s.

(** [hasEnding] of the source. *)
Definition hasEnding (fullString ending : string) : bool :=
  if Nat.leb (String.length ending) (String.length fullString) then
    String.eqb
      (String.substring (String.length fullString - String.length ending)
                        (String.length ending) fullString)
      ending
  else false.

(** [std::to_string] on an [int]. *)
Definition to_string (z : Z) : string :=
  NilZero.string_of_int (Z.to_int z).

(** The text [s] with a double quote in place of every apostrophe: the
    raw string literals of the source are written with apostrophes
    here. *)
Fixpoint dq (s : string) : string :=
  match s with
  | EmptyString => EmptyString
  | String c s' =>
      String (if Ascii.eqb c "'"%char then dquote else c) (dq s')
  end.

Fixpoint concat (l : list string) : string :=
  match l with
  | [] => EmptyString
  | s :: l' => s +:+ concat l'
  end.

End Str.

(** ** OptFlagComposer: [detail::makePeanoOptArgs] *)

Module OptFlags.

Definition default_args (filenameIrIn filenameIrOut : string) : list string :=
  [ "-vectorize-loops=false";
    "-vectorize-slp=false";
    "--two-entry-phi-node-folding-threshold=10";
    "-mandatory-inlining-before-opt=false";
    "-basic-aa-full-phi-analysis=true";
    "-basic-aa-max-lookup-search-depth=10";
    "-O3";
    "--inline-threshold=10";
    "--disable-builtin=memset";
    "-S"; filenameIrIn;
    "-o"; filenameIrOut ].

Definition malformed_msg : string :=
  "additional peano opt flags must be of the form "
    +:+ Str.quoted "-flag1 -flag2 ..."
    +:+ ". Specifically it must start and end with "
    +:+ Str.of_char Str.dquote +:+ ".".

(** The lambda [isOptLevelFlag]. *)
Definition isOptLevelFlag (flag : string) : bool :=
  Nat.eqb (String.length flag) 3
  && bool_decide (String.get 0 flag = Some "-"%char)
  && bool_decide (String.get 1 flag = Some "O"%char).

(** The lambda [isContention]. *)
Definition isContention (a b : string) : bool :=
  if isOptLevelFlag a && isOptLevelFlag b then true else false.

(** [std::find_if]: the index of the first element satisfying [p], or
    the length of the list (the [end()] iterator). *)
Fixpoint find_if {A} (p : A -> bool) (l : list A) : nat :=
  match l with
  | [] => O
  | x :: l' => if p x then O else S (find_if p l')
  end.

(** One iteration of the loop over [additionalFlags]. *)
Definition add_flag (args : list string) (flag : string) : list string :=
  let iter := find_if (fun a => isContention a flag) args in
  if Nat.eqb iter (length args) then args ++ [flag]
  else <[iter := flag]> args.

(** [inl msg]: failure, with [msg] written to [llvm::errs()]. *)
Definition makePeanoOptArgs
    (filenameIrIn filenameIrOut additionalPeanoOptFlags : string)
    : string + list string :=
  let args := default_args filenameIrIn filenameIrOut in
  if Nat.eqb (String.length additionalPeanoOptFlags) 0 then inr args
  else if Nat.ltb (String.length additionalPeanoOptFlags) 2
          || negb (bool_decide
                     (Str.front additionalPeanoOptFlags = Some Str.dquote))
          || negb (bool_decide
                     (Str.back additionalPeanoOptFlags = Some Str.dquote))
  then inl malformed_msg
  else
    let stripped :=
      String.substring 1 (String.length additionalPeanoOptFlags - 2)
                       additionalPeanoOptFlags in
    let additionalFlags := Str.tokens stripped in
    inr (foldl add_flag args additionalFlags).

End OptFlags.

(** ** Numbers as text *)

Module Hex.

Definition digit_upper (d : Z) : ascii :=
  default "0"%char (String.get (Z.to_nat d) "0123456789ABCDEF").

Definition digit_lower (d : Z) : ascii :=
  default "0"%char (String.get (Z.to_nat d) "0123456789abcdef").

(** The significant hexadecimal digits of [n], most significant first,
    in front of [acc]; at least one digit is produced. *)
Fixpoint digits_aux (digit : Z -> ascii) (fuel : nat) (n : Z) (acc : string)
    : string :=
  match fuel with
  | O => acc
  | S fuel' =>
      let acc' := String (digit (n mod 16)) acc in
      if n / 16 =? 0 then acc' else digits_aux digit fuel' (n / 16) acc'
  end.

(** [%X] and [std::hex]: a number of [b] bits has at most [b] digits. *)
Definition digits (n : Z) : string :=
  digits_aux digit_upper (S (Z.to_nat (Z.log2 n))) n EmptyString.

Definition digits_lower (n : Z) : string :=
  digits_aux digit_lower (S (Z.to_nat (Z.log2 n))) n EmptyString.

Fixpoint zeros (k : nat) : string :=
  match k with
  | O => EmptyString
  | S k' => String "0"%char (zeros k')
  end.

(** The [0<width>] flag of [printf]: zeros in front up to [width]. *)
Definition pad0 (width : nat) (s : string) : string :=
  zeros (width - String.length s) +:+ s.

(** [llvm::format("%08X", w)] for an unsigned word [w]. *)
Definition format_08X (w : Z) : string := pad0 8 (digits w).

(** The value of one hexadecimal digit, either case. *)
Definition digit_value (c : ascii) : option Z :=
  let n := Z.of_nat (nat_of_ascii c) in
  if (48 <=? n) && (n <=? 57) then Some (n - 48)
  else if (65 <=? n) && (n <=? 70) then Some (n - 55)
  else if (97 <=? n) && (n <=? 102) then Some (n - 87)
  else None.

Fixpoint value_from (acc : Z) (s : string) : option Z :=
  match s with
  | EmptyString => Some acc
  | String c s' =>
      match digit_value c with
      | Some d => value_from (16 * acc + d) s'
      | None => None
      end
  end.

(** The number a string of hexadecimal digits denotes. *)
Definition value (s : string) : option Z :=
  match s with
  | EmptyString => None
  | _ => value_from 0 s
  end.

(** The number a [0x]-prefixed literal denotes. *)
Definition literal_value (s : string) : option Z :=
  match s with
  | String "0" (String "x" s') => value s'
  | _ => None
  end.

Definition is_upper_digit (c : ascii) : bool :=
  let n := nat_of_ascii c in
  (Nat.leb 48 n && Nat.leb n 57) || (Nat.leb 65 n && Nat.leb n 70).

Fixpoint all_chars (p : ascii -> bool) (s : string) : bool :=
  match s with
  | EmptyString => true
  | String c s' => p c && all_chars p s'
  end.

End Hex.

(** ** JSON values ([llvm::json]) *)

#[warnings="-register-all"]
Inductive json : Type :=
| JNull
| JBool (b : bool)
| JNum (z : Z)
| JStr (s : string)
| JArr (l : list json)
| JObj (m : gmap string json).

Module Json.

(** [json::Object{{k1, v1}, ...}]: the first occurrence of a key wins. *)
Definition obj (l : list (string * json)) : json := JObj (list_to_map l).

(** [Value::getAsObject], [Object::getObject], [Object::getArray],
    [Object::getString]: a null pointer ([None]) when the value is
    missing or of another kind. *)
Definition getAsObject (v : json) : option (gmap string json) :=
  match v with JObj m => Some m | _ => None end.

Definition getObject (m : gmap string json) (k : string)
    : option (gmap string json) :=
  m !! k ≫= getAsObject.

Definition getArray (m : gmap string json) (k : string)
    : option (list json) :=
  match m !! k with Some (JArr l) => Some l | _ => None end.

Definition getString (m : gmap string json) (k : string) : option string :=
  match m !! k with Some (JStr s) => Some s | _ => None end.

End Json.

(** ** XclbinPackager: the kernel descriptor *)

Module Kernel.

Definition makeKernelJSON (name id instance : string) : json :=
  Json.obj
    [ ("name", JStr name);
      ("type", JStr "dpu");
      ("extended-data",
        Json.obj [ ("subtype", JStr "DPU"); ("functional", JStr "0");
                   ("dpu_kernel_id", JStr id) ]);
      ("arguments",
        JArr
          [ Json.obj [ ("name", JStr "opcode");
                       ("address-qualifier", JStr "SCALAR");
                       ("type", JStr "uint64_t");
                       ("offset", JStr "0x00") ];
            Json.obj [ ("name", JStr "instr");
                       ("memory-connection", JStr "SRAM");
                       ("address-qualifier", JStr "GLOBAL");
                       ("type", JStr "char *");
                       ("offset", JStr "0x08") ];
            Json.obj [ ("name", JStr "ninstr");
                       ("address-qualifier", JStr "SCALAR");
                       ("type", JStr "uint32_t");
                       ("offset", JStr "0x10") ];
            Json.obj [ ("name", JStr "bo0");
                       ("memory-connection", JStr "HOST");
                       ("address-qualifier", JStr "GLOBAL");
                       ("type", JStr "void*");
                       ("offset", JStr "0x14") ];
            Json.obj [ ("name", JStr "bo1");
                       ("memory-connection", JStr "HOST");
                       ("address-qualifier", JStr "GLOBAL");
                       ("type", JStr "void*");
                       ("offset", JStr "0x1c") ];
            Json.obj [ ("name", JStr "bo2");
                       ("memory-connection", JStr "HOST");
                       ("address-qualifier", JStr "GLOBAL");
                       ("type", JStr "void*");
                       ("offset", JStr "0x24") ];
            Json.obj [ ("name", JStr "bo3");
                       ("memory-connection", JStr "HOST");
                       ("address-qualifier", JStr "GLOBAL");
                       ("type", JStr "void*");
                       ("offset", JStr "0x2c") ];
            Json.obj [ ("name", JStr "bo4");
                       ("memory-connection", JStr "HOST");
                       ("address-qualifier", JStr "GLOBAL");
                       ("type", JStr "void*");
                       ("offset", JStr "0x34") ];
            Json.obj [ ("name", JStr "bo5");
                       ("memory-connection", JStr "HOST");
                       ("address-qualifier", JStr "GLOBAL");
                       ("type", JStr "void*");
                       ("offset", JStr "0x3c") ] ]);
      ("instances", JArr [ Json.obj [ ("name", JStr instance) ] ]) ].

(** The document [kernelsData] that [generateXCLBin] writes to
    [kernels.json]. *)
Definition kernelsData (xclBinKernelName xclBinKernelID
                        xclBinInstanceName : string) : json :=
  Json.obj
    [ ("ps-kernels",
        Json.obj
          [ ("kernels",
              JArr [ makeKernelJSON xclBinKernelName xclBinKernelID
                                    xclBinInstanceName ]) ]) ].

(** *** Reading a descriptor back *)

(** The kernel entries of a [kernels.json] document. *)
Definition kernels (doc : json) : option (list json) :=
  m ← Json.getAsObject doc;
  ps ← Json.getObject m "ps-kernels";
  Json.getArray ps "kernels".

Definition arguments (kernel : json) : option (list json) :=
  m ← Json.getAsObject kernel;
  Json.getArray m "arguments".

(** One slot of the argument list. *)
Record Slot := {
  slot_name : string;
  slot_qualifier : string;
  slot_memory : option string;
  slot_type : string;
  slot_offset : Z
}.

Definition slot (arg : json) : option Slot :=
  m ← Json.getAsObject arg;
  n ← Json.getString m "name";
  q ← Json.getString m "address-qualifier";
  t ← Json.getString m "type";
  o ← Json.getString m "offset" ≫= Hex.literal_value;
  Some {| slot_name := n; slot_qualifier := q;
          slot_memory := Json.getString m "memory-connection";
          slot_type := t; slot_offset := o |}.

Definition slots (kernel : json) : option (list Slot) :=
  arguments kernel ≫= mapM slot.

(** A pointer to a host buffer object. *)
Definition is_host_pointer (s : Slot) : bool :=
  bool_decide (slot_memory s = Some "HOST")
  && String.eqb (slot_qualifier s) "GLOBAL".

Definition host_pointers (l : list Slot) : list Slot :=
  filter (fun s => is_host_pointer s = true) l.

End Kernel.

(** ** ToolchainLocator: [getTargetDir] *)

(** [inl msg]: failure, with [msg] written to [llvm::errs()]. *)
Definition getTargetDir (npuVersion : string) : string + string :=
  if String.eqb npuVersion "npu1" then inr "target_aie_ml"
  else if String.eqb npuVersion "npu4" then inr "target_aie2p"
  else inl ("unsupported NPUVersion: " +:+ npuVersion).

(** ** The device module

    What the pipeline reads from and writes to [AIE::DeviceOp]: the tiles
    with their coordinates, the core of a tile if it has one, the
    [elf_file] attribute of a core, and the [npu_instructions] attribute of
    the device.  Everything else in the device is [body], which only the
    translations of the platform look at. *)

Module IR.

Record CoreOp := { elf_file : option string }.

Record TileOp := { col : Z; row : Z; core : option CoreOp }.

(** An attribute is a [DenseUI32ResourceElementsAttr], whose blob may be
    missing ([tryGetAsArrayRef] gives [nullopt]), or something else. *)
Inductive Attribute :=
| DenseUI32ResourceElementsAttr (blob : option (list Z))
| OtherAttr.

Record DeviceOp := {
  tiles : list TileOp;
  npu_instructions : option Attribute;
  body : string
}.

(** [coreOp.setElfFile(name)] on the core of tile [i]. *)
Definition setElfFile (i : nat) (name : string) (d : DeviceOp) : DeviceOp :=
  {| tiles :=
       alter (fun t => {| col := col t; row := row t;
                          core := Some {| elf_file := Some name |} |})
             i (tiles d);
     npu_instructions := npu_instructions d;
     body := body d |}.

End IR.

(** ** The world the pipeline runs in *)

Inductive LogicalResult := success | failure.

Definition failed (r : LogicalResult) : bool :=
  match r with failure => true | success => false end.

(** What a path names. *)
Inductive Node := File (content : string) | Dir.

(** What the pipeline does that can be observed from outside. *)
Inductive Event :=
| EvErr (msg : string)       (* written to [llvm::errs()] *)
| EvOut (msg : string)       (* written to [llvm::outs()] *)
| EvDiag (msg : string)      (* an MLIR diagnostic: [emitError], [emitOpError] *)
| EvExec (program : string) (args : list string) (env : option (list string))
                             (* a process started by [sys::ExecuteAndWait] *)
| EvBootgen (args : list string).
                             (* a call of the embedded [iree_aie_bootgen_main] *)

Record World := {
  w_env : gmap string string;    (* the process environment *)
  w_cwd : string;                (* [std::filesystem::current_path()] *)
  w_fs : gmap string Node;       (* the paths that exist *)
  w_device : IR.DeviceOp;        (* the device module the caller passed *)
  w_rng : nat;                   (* draws made from the generator [uuid::gen] *)
  w_trace : list Event           (* the events so far, oldest first *)
}.

(** What the rest of the machine can see: the in-memory device, the
    generator and the streams are the compiler's own. *)
Record Host := {
  h_env : gmap string string;
  h_cwd : string;
  h_fs : gmap string Node
}.

Definition host (w : World) : Host :=
  {| h_env := w_env w; h_cwd := w_cwd w; h_fs := w_fs w |}.

Definition with_fs (fs : gmap string Node) (w : World) : World :=
  {| w_env := w_env w; w_cwd := w_cwd w; w_fs := fs;
     w_device := w_device w; w_rng := w_rng w; w_trace := w_trace w |}.

Definition with_device (d : IR.DeviceOp) (w : World) : World :=
  {| w_env := w_env w; w_cwd := w_cwd w; w_fs := w_fs w;
     w_device := d; w_rng := w_rng w; w_trace := w_trace w |}.

Definition with_event (e : Event) (w : World) : World :=
  {| w_env := w_env w; w_cwd := w_cwd w; w_fs := w_fs w;
     w_device := w_device w; w_rng := w_rng w;
     w_trace := w_trace w ++ [e] |}.

Definition with_draw (w : World) : World :=
  {| w_env := w_env w; w_cwd := w_cwd w; w_fs := w_fs w;
     w_device := w_device w; w_rng := S (w_rng w); w_trace := w_trace w |}.

(** The processes started so far. *)
Definition is_exec (e : Event) : bool :=
  match e with EvExec _ _ _ => true | _ => false end.

Definition execs (w : World) : list Event :=
  filter (fun e => is_exec e = true) (w_trace w).

(** What [sys::ExecuteAndWait] reports, and the file system the process
    leaves behind. *)
Record ExecStatus := {
  ex_result : Z;            (* the return value: the exit code, or negative *)
  ex_ErrMsg : string;
  ex_TotalTime : string;    (* [stats.TotalTime] in seconds, as printed *)
  ex_fs : gmap string Node
}.

(** The four diagnostic switches handed to [applyConfigToPassManager]. *)
Record PassManagerConfig := {
  printIRBeforeAll : bool;
  printIRAfterAll : bool;
  printIRModuleScope : bool;
  timing : bool
}.

(** The libraries the source calls.  None of them is defined in this
    repository's [XCLBinGen.cpp]; each is taken as given. *)
Class Platform := {
  (** Whether [_WIN32] is defined. *)
  win32 : bool;
  (** [sys::findProgramByName] *)
  findProgramByName : Host -> string -> option string;
  (** [sys::fs::real_path]; [None] for an error code *)
  real_path : Host -> string -> option string;
  (** [sys::path::remove_filename] *)
  remove_filename : string -> string;
  (** [mlir::iree_compiler::findTool]; the empty string when not found *)
  findTool : Host -> string -> string;
  (** [sys::fs::createTemporaryFile]: an error message or the path *)
  createTemporaryFile : Host -> string -> string -> string + string;
  (** [sys::ExecuteAndWait] with program, arguments, environment and the
      file the three standard streams are redirected to *)
  ExecuteAndWait :
    Host -> string -> list string -> option (list string) -> option string
    -> ExecStatus;
  (** The error message of [mlir::openOutputFile], [None] when it opens *)
  openOutputFile_error : Host -> string -> option string;
  (** The error message of [mlir::openInputFile] for a file it cannot
      read although it exists, [None] when it reads it *)
  openInputFile_error : Host -> string -> option string;
  (** The error code message of [std::filesystem::copy_file] for a source
      that exists, [None] when it copies *)
  copy_file_error : Host -> string -> string -> option string;
  (** The module after [createAMDAIECoreToStandardPass] and
      [addLowerToLLVMPasses]; [None] when [pm.run] fails *)
  LoweredModule : Type;
  runLoweringPasses :
    PassManagerConfig -> bool -> IR.DeviceOp -> option LoweredModule;
  printAsTextualPipeline : bool -> string;
  (** [translateModuleToLLVMIR] followed by [llvmModule->print] *)
  translateModuleToLLVMIR : LoweredModule -> option string;
  (** [AIETranslateToBCF], [AIETranslateToLdScript]: the text written to
      the stream, [None] on failure *)
  AIETranslateToBCF : IR.DeviceOp -> Z -> Z -> option string;
  AIETranslateToLdScript : IR.DeviceOp -> Z -> Z -> option string;
  (** [AIETranslateToCDODirect]: the file system with the three
      configuration blobs, [None] on failure *)
  AIETranslateToCDODirect :
    Host -> IR.DeviceOp -> string -> option (gmap string Node);
  (** [iree_aie_bootgen_main]: its status and the file system it leaves *)
  bootgen_main : Host -> list string -> Z * gmap string Node;
  (** The two control-packet passes run on the caller's module: the result
      of [pm.run] and the device they leave *)
  runControlPacketPasses :
    PassManagerConfig -> Host -> IR.DeviceOp -> string
    -> LogicalResult * IR.DeviceOp;
  (** The sources pulled in by [#include] into [_CHESS_INTRINSIC_WRAPPER_CPP],
      [_MM_NPU1_CC] and [_MM_NPU4_CC] *)
  CHESS_INTRINSIC_WRAPPER_CPP : string;
  MM_NPU1_CC : string;
  MM_NPU4_CC : string;
  (** The [n]-th raw output of the generator [uuid::gen] *)
  random_bits : nat -> Z;
  (** [llvm::json::parse] and [formatv("{0:2}", value)] *)
  json_parse : string -> option json;
  json_format : json -> string
}.

(** ** The monad *)

(** Why a run stops without returning. *)
Inductive Fault :=
| OutOfBounds         (* an [ArrayRef] access outside the array *)
| FailureDeref        (* [operator*] or [->] on a failed [FailureOr] *)
| EmptyOptional       (* [operator*] or [value()] on an empty [std::optional] *)
| NullString          (* a [std::string] or [Path] built from a null pointer *)
| NullPointer         (* a null pointer dereferenced *)
| SignedOverflow      (* an [int] incremented past [INT_MAX] *)
| ErrorDeref          (* [operator->] on an [llvm::Expected] holding an error *)
| AssertionFailure    (* an [assert] that does not hold *)
| FuelExhausted       (* the iteration bound of a modelled loop is used up *)
| FatalError.         (* [llvm::report_fatal_error] *)

Inductive Outcome (A : Type) :=
| Ret (a : A) (w : World)
| Abort (f : Fault) (w : World).
Arguments Ret {A} a w.
Arguments Abort {A} f w.

Definition M (A : Type) : Type := World -> Outcome A.

#[global] Instance M_bind : MBind M := fun A B k m w =>
  match m w with
  | Ret a w' => k a w'
  | Abort f w' => Abort f w'
  end.

Definition bindM {A B} (m : M A) (k : A -> M B) : M B := mbind k m.

Notation "x <- m ;; k" := (bindM m (fun x => k))
  (at level 100, m at next level, right associativity, only parsing).

Definition final_world {A} (o : Outcome A) : World :=
  match o with Ret _ w => w | Abort _ w => w end.

Definition returned {A} (o : Outcome A) : option A :=
  match o with Ret a _ => Some a | Abort _ _ => None end.

Module Prim.

Definition ret {A} (a : A) : M A := fun w => Ret a w.

Definition abort {A} (f : Fault) : M A := fun w => Abort f w.
Definition get : M World := fun w => Ret w w.
Definition log (e : Event) : M unit := fun w => Ret tt (with_event e w).
Definition errs (msg : string) : M unit := log (EvErr msg).
Definition outs (msg : string) : M unit := log (EvOut msg).
Definition diag (msg : string) : M unit := log (EvDiag msg).
Definition set_fs (fs : gmap string Node) : M unit :=
  fun w => Ret tt (with_fs fs w).
Definition set_device (d : IR.DeviceOp) : M unit :=
  fun w => Ret tt (with_device d w).

Definition when (b : bool) (m : M unit) : M unit :=
  if b then m else ret tt.

(** [::getenv] *)
Definition getenv (name : string) : M (option string) :=
  fun w => Ret (w_env w !! name) w.

(** [std::filesystem::exists] *)
Definition exists_ (p : string) : M bool :=
  fun w => Ret (bool_decide (is_Some (w_fs w !! p))) w.

Definition current_path : M string := fun w => Ret (w_cwd w) w.

(** [operator*] on a [FailureOr] and on a [std::optional]. *)
Definition deref {A} (x : option A) : M A :=
  match x with Some a => ret a | None => abort FailureDeref end.
Definition value {A} (x : option A) : M A :=
  match x with Some a => ret a | None => abort EmptyOptional end.

(** [->] on a pointer that may be null. *)
Definition nonnull {A} (x : option A) : M A :=
  match x with Some a => ret a | None => abort NullPointer end.

(** A [std::string] built from a [const char *]. *)
Definition string_of_cstr (x : option string) : M string :=
  match x with Some a => ret a | None => abort NullString end.

End Prim.

(** ** Paths ([std::filesystem::path], generic format) *)

Module Path.

Definition is_absolute (p : string) : bool :=
  bool_decide (String.get 0 p = Some "/"%char).

(** [a / b]: [b] alone when it is absolute or [a] is empty, otherwise
    [a], a separator unless [a] ends with one, and [b]. *)
Definition join (a b : string) : string :=
  if is_absolute b then b
  else if Nat.eqb (String.length a) 0 then b
  else if bool_decide (Str.back a = Some "/"%char) then a +:+ b
  else a +:+ "/" +:+ b.

End Path.

Infix "//" := Path.join (at level 40, left associativity).

(** ** ToolchainLocator and ProcessRunner *)

Section Tools.
Context `{Platform}.

Import Prim.

(** Lifting a pure fallible function: its message goes to
    [llvm::errs()]. *)
Definition reporting {A} (r : string + A) : M (option A) :=
  match r with
  | inr a => ret (Some a)
  | inl msg => errs msg;; ret None
  end.

(** Returns the caller's [vitisDir], which it may have set, and the
    result. *)
Definition findVitis (vitisDir : option string) (npuVersion : string)
    : M (option string * option string) :=
  vitisDir <-
    match vitisDir with
    | Some _ => ret vitisDir
    | None =>
        envVitis <- getenv "VITIS" ;;
        match envVitis with
        | Some _ => ret None
        | None =>
            w <- get ;;
            match findProgramByName (host w) "v++" with
            | None => ret None
            | Some vpp =>
                match real_path (host w) vpp with
                | None => ret None
                | Some realVpp =>
                    ret (Some (remove_filename (remove_filename realVpp)))
                end
            end
        end
    end ;;
  match vitisDir with
  | None =>
      errs ("ERROR: couldn't find vitis directory" +:+ Str.of_char Str.newline);;
      ret (vitisDir, None)
  | Some dir =>
      licenseFile <- getenv "XILINXD_LICENSE_FILE" ;;
      licensed <-
        match licenseFile with
        | Some _ => ret true
        | None =>
            licenseFile <- getenv "LM_LICENSE_FILE" ;;
            match licenseFile with
            | None =>
                errs ("ERROR: either XILINXD_LICENSE_FILE or LM_LICENSE_FILE "
                        +:+ "must be set" +:+ Str.of_char Str.newline);;
                ret false
            | Some f =>
                present <- exists_ f ;;
                if present then ret true
                else
                  errs ("ERROR: license file" +:+ f +:+ " does not exist");;
                  ret false
            end
        end ;;
      if negb licensed then ret (vitisDir, None)
      else
        let aieToolsPath := dir // "aietools" in
        present <- exists_ aieToolsPath ;;
        if negb present then
          errs ("ERROR: couldn't find aietools directory"
                  +:+ Str.of_char Str.newline);;
          ret (vitisDir, None)
        else
          targetDir <- bindM (reporting (getTargetDir npuVersion)) deref ;;
          let chessccPath :=
            aieToolsPath // "tps" // "lnx64" // targetDir // "bin"
              // "LNa64bin" in
          present <- exists_ (chessccPath // "chess-clang") ;;
          if negb present then
            errs ("ERROR: couldn't find chess-clang"
                    +:+ Str.of_char Str.newline);;
            ret (vitisDir, None)
          else
            present <- exists_ (chessccPath // "chess-llvm-link") ;;
            if negb present then
              errs ("ERROR: couldn't find chess-llvm-link"
                      +:+ Str.of_char Str.newline);;
              ret (vitisDir, None)
            else ret (vitisDir, Some dir)
  end.

Definition findAMDAIETool (toolName amdAIEInstallDir : string)
    : M (option string) :=
  let toolName := if win32 then toolName +:+ ".exe" else toolName in
  let fallback : M (option string) :=
    w <- get ;;
    let toolBinExe := findTool (host w) toolName in
    present <- exists_ toolBinExe ;;
    if present then ret (Some toolBinExe)
    else
      errs ("Could not find " +:+ toolName
              +:+ ". Check your --iree-amd-aie-install-dir flag"
              +:+ Str.of_char Str.newline);;
      ret None in
  if negb (Nat.eqb (String.length amdAIEInstallDir) 0) then
    p1 <- exists_ (amdAIEInstallDir // toolName) ;;
    if p1 then ret (Some (amdAIEInstallDir // toolName))
    else
      p2 <- exists_ (amdAIEInstallDir // "bin" // toolName) ;;
      if p2 then ret (Some (amdAIEInstallDir // "bin" // toolName))
      else
        p3 <- exists_ (amdAIEInstallDir // "tools" // toolName) ;;
        if p3 then ret (Some (amdAIEInstallDir // "tools" // toolName))
        else fallback
  else fallback.

Definition makeChessArgs (vitisDir tempDir npuVersion : string)
    (verbose : bool) : M (string * list string) :=
  versions <-
    (if String.eqb npuVersion "npu1" then ret ("20", "aie_ml")
     else if String.eqb npuVersion "npu4" then ret ("21", "aie2p")
     else
       errs ("unsupported NPU version: " +:+ npuVersion);;
       abort FatalError) ;;
  let '(archVersion, modelDir) := versions in
  let aieToolsDir := vitisDir // "aietools" in
  let flags :=
    [ "-j1";
      "-pme";
      "-P" +:+ (aieToolsDir // "data" // modelDir // "lib");
      "-f";
      "-CRelease_LLVM";
      "+w" +:+ tempDir;
      "-D__AIENGINE__";
      "-D__AIE_ARCH__=" +:+ archVersion;
      "-D__AIEARCH__=" +:+ archVersion;
      "-I" +:+ (aieToolsDir // "include") ] in
  let flags := if verbose then flags ++ ["-d"] else flags in
  ret (aieToolsDir // "bin" // "unwrapped" // "lnx64.o" // "xchesscc",
        flags).

(** [sys::EnvPathSeparator] *)
Definition EnvPathSeparator : string := if win32 then ";" else ":".

Definition makeChessEnv (vitisDir npuVersion : string) : M (list string) :=
  let aieToolsPath := vitisDir // "aietools" in
  targetDir <- bindM (reporting (getTargetDir npuVersion)) deref ;;
  let chessccPath :=
    aieToolsPath // "tps" // "lnx64" // targetDir // "bin" // "LNa64bin" in
  path <- bindM (getenv "PATH") string_of_cstr ;;
  let lnx64o := aieToolsPath // "lib" // "lnx64.o" in
  let dotLib := aieToolsPath // "lnx64" // "tools" // "dot" // "lib" in
  ldLibraryPath_ <- getenv "LD_LIBRARY_PATH" ;;
  let ldLibraryPath := default EmptyString ldLibraryPath_ in
  let pathEnv := "PATH=" +:+ chessccPath +:+ EnvPathSeparator +:+ path in
  let ldLibEnv :=
    "LD_LIBRARY_PATH=" +:+ lnx64o +:+ EnvPathSeparator +:+ dotLib
      +:+ EnvPathSeparator +:+ ldLibraryPath in
  let rdiDataEnv := "RDI_DATADIR=" +:+ (aieToolsPath // "data") in
  licenseFile <- getenv "XILINXD_LICENSE_FILE" ;;
  licenseFile <-
    match licenseFile with
    | Some _ => ret licenseFile
    | None => getenv "LM_LICENSE_FILE"
    end ;;
  licenseFile <- string_of_cstr licenseFile ;;
  let licenseFileEnv := "XILINXD_LICENSE_FILE=" +:+ licenseFile in
  ret [pathEnv; ldLibEnv; rdiDataEnv; licenseFileEnv].

(** *** Output files ([mlir::openOutputFile], [llvm::ToolOutputFile])

    The model covers named files: opening creates the file empty, the
    stream appends to it, and a file that was not kept is removed when
    the handle goes out of scope. *)

(** [Some msg] when the file cannot be opened. *)
Definition openOutputFile (p : string) : M (option string) :=
  w <- get ;;
  match openOutputFile_error (host w) p with
  | Some msg => ret (Some msg)
  | None => set_fs (<[p := File EmptyString]> (w_fs w));; ret None
  end.

Definition os_write (p : string) (s : string) : M unit :=
  w <- get ;;
  match w_fs w !! p with
  | Some (File c) => set_fs (<[p := File (c +:+ s)]> (w_fs w))
  | _ => set_fs (<[p := File s]> (w_fs w))
  end.

Definition discard (p : string) : M unit :=
  w <- get ;; set_fs (delete p (w_fs w)).

(** [mlir::openInputFile]: the buffer, or an error message. *)
Definition openInputFile (p : string) : M (string + string) :=
  w <- get ;;
  match w_fs w !! p with
  | Some (File c) =>
      match openInputFile_error (host w) p with
      | Some msg => ret (inl msg)
      | None => ret (inr c)
      end
  | _ => ret (inl ("cannot open input file '" +:+ p +:+ "'"))
  end.

(** [Some msg] when the payload was not written. *)
Definition dumpStrToDisk (payload outputPath : string) : M (option string) :=
  err <- openOutputFile outputPath ;;
  match err with
  | Some errorMessage => ret (Some errorMessage)
  | None => os_write outputPath payload;; ret None
  end.

(** The program [runTool] looks for and starts. *)
Definition resolvedProgram (program_ : string) : string :=
  if win32 && negb (Str.hasEnding program_ ".exe")
  then program_ +:+ ".exe" else program_.

(** The command line [runTool] prints when [verbose] is set. *)
Definition announceRun (program : string) (args : list string)
    (verbose : bool) (env : option (list string)) : M unit :=
  when verbose
    (outs (Str.of_char Str.newline +:+ "Run: ");;
     match env with
     | Some e => outs (Str.concat (map (fun s => " " +:+ s) e))
     | None => ret tt
     end;;
     outs (" " +:+ program);;
     outs (Str.concat (map (fun s => " " +:+ s) args));;
     outs (Str.of_char Str.newline)).

(** The environment and the redirection handed to
    [sys::ExecuteAndWait]. *)
Definition envSmallVec (env : option (list string)) : option (list string) :=
  if win32 then None else Some (default [] env).

Definition redirects (temporaryPath : string) : option string :=
  if win32 then None else Some temporaryPath.

Definition runTool (program_ : string) (args : list string) (verbose : bool)
    (env : option (list string)) : M LogicalResult :=
  let program := resolvedProgram program_ in
  announceRun program args verbose env ;;
  present <- exists_ program ;;
  if negb present then
    errs ("Program " +:+ program +:+ " does not exist"
            +:+ Str.of_char Str.newline);;
    ret failure
  else
    let pArgs := program :: args in
    w <- get ;;
    match createTemporaryFile (host w) "tmpRunTool" "Logging" with
    | inl errorCode =>
        errs ("Failed to create temporary file: " +:+ errorCode
                +:+ Str.of_char Str.newline);;
        ret failure
    | inr temporaryPath =>
        set_fs (<[temporaryPath := File EmptyString]> (w_fs w));;
        w <- get ;;
        let stats :=
          ExecuteAndWait (host w) program pArgs (envSmallVec env)
            (redirects temporaryPath) in
        log (EvExec program pArgs (envSmallVec env));;
        set_fs (ex_fs stats);;
        let result := ex_result stats in
        outputFromFile <-
          (if win32 then ret EmptyString
           else
             w <- get ;;
             match w_fs w !! temporaryPath with
             | Some (File c) => ret c
             | _ => abort NullString
             end) ;;
        when verbose
          (outs (Str.of_char Str.newline
                   +:+ (if result =? 0 then "Succeeded" else "Failed")
                   +:+ " in totalTime " +:+ ex_TotalTime stats
                   +:+ " [s]. Exit code=" +:+ Str.to_string result
                   +:+ Str.of_char Str.newline);;
           when (negb win32)
             (outs (outputFromFile +:+ Str.of_char Str.newline)));;
        if negb (result =? 0) then
          errs ("Failed to run tool: " +:+ program +:+ ". Error: '"
                  +:+ ex_ErrMsg stats +:+ "'" +:+ Str.of_char Str.newline);;
          when (negb win32) (errs outputFromFile);;
          ret failure
        else ret success
    end.

Definition assembleFileUsingChess (inputFile outputFile : string)
    (extraArgs : list string) (tempDir vitisDir npuVersion : string)
    (verbose : bool) : M LogicalResult :=
  exeArgs <- makeChessArgs vitisDir tempDir npuVersion verbose ;;
  let '(xChessCCExe, args) := exeArgs in
  let args := args ++ extraArgs ++ ["-c"; inputFile; "-o"; outputFile] in
  env <- makeChessEnv vitisDir npuVersion ;;
  runTool xChessCCExe args verbose (Some env).

Definition assembleStringUsing
    (assembler : string -> string -> list string -> string -> string
                 -> string -> bool -> M LogicalResult)
    (inputFileStr inputFileName outputFileName outputDir : string)
    (extraArgs : list string) (workDir toolDir npuVersion : string)
    (verbose : bool) : M (option string) :=
  let inputFile := workDir // inputFileName in
  maybeErr <- dumpStrToDisk inputFileStr inputFile ;;
  match maybeErr with
  | Some err =>
      errs ("Failed to dump to disk " +:+ inputFile +:+ " because: "
              +:+ err);;
      ret None
  | None =>
      let outputFile :=
        if negb (Path.is_absolute outputFileName)
        then outputDir // outputFileName else outputFileName in
      r <- assembler inputFile outputFile extraArgs workDir toolDir
            npuVersion verbose ;;
      if failed r then
        errs ("Failed to assemble " +:+ outputFileName +:+ ".o");;
        ret None
      else ret (Some outputFile)
  end.

Definition assembleStringUsingChess :=
  assembleStringUsing assembleFileUsingChess.

End Tools.

(** ** CoreElfBuilder, CdoPdiPackager, XclbinPackager *)

(** How the body of a loop, or a block with early returns, ends. *)
Inductive Flow (S : Type) :=
| Continue (s : S)
| ReturnFailure.
Arguments Continue {S} s.
Arguments ReturnFailure {S}.

Section Stages.
Context `{Platform}.

Import Prim.

(** [ukernel && (ukernel == "mm" || ukernel == "all")] *)
Definition ukernelRequested (ukernel : option string) : bool :=
  match ukernel with
  | Some u => String.eqb u "mm" || String.eqb u "all"
  | None => false
  end.

(** The microkernel source, its file name and its object name. *)
Definition ukernelFiles (npuVersion : string)
    : option (string * string * string) :=
  if String.eqb npuVersion "npu1"
  then Some (MM_NPU1_CC, "mm_npu1.cc", "mm_npu1.o")
  else if String.eqb npuVersion "npu4"
  then Some (MM_NPU4_CC, "mm_npu4.cc", "mm_npu4.o")
  else None.

(** The name made from the coordinates of a tile. *)
Definition synthesizedElfFileName (col row : Z) : string :=
  "core_" +:+ Str.to_string col +:+ "_" +:+ Str.to_string row +:+ ".elf".

(** The name of the ELF file of the core of tile [i]: the attribute if
    the core has one, otherwise the name made from the coordinates,
    which is stored on the core. *)
Definition coreElfFileName (i : nat) (col row : Z) (coreOp : IR.CoreOp)
    : M string :=
  match IR.elf_file coreOp with
  | Some fileAttr => ret fileAttr
  | None =>
      let elfFileName := synthesizedElfFileName col row in
      w <- get ;;
      set_device (IR.setElfFile i elfFileName (w_device w)) ;;
      ret elfFileName
  end.

(** The microkernel object, when one is requested.  The state carried
    on is the local [vitisDir] and [mmObjectFilePath]. *)
Definition ukernelObject (tempDir cwd npuVersion : string)
    (files : string * string * string) (verbose : bool)
    (ukernel : option string) (vitisDir : option string)
    : M (Flow (option string * option string)) :=
  let '(ukernelFileContent, ukernelFileName, ukernelObjectName) := files in
  if ukernelRequested ukernel then
    r <- findVitis vitisDir npuVersion ;;
    let '(vitisDir, maybeVitisDir) := r in
    match maybeVitisDir with
    | None =>
        errs ("compiling ukernels currently requires chess (even if "
                +:+ "you're using peano)") ;;
        ret ReturnFailure
    | Some dir =>
        present <- exists_ (cwd // ukernelObjectName) ;;
        if negb present then
          mmObjectFilePath <-
            assembleStringUsingChess ukernelFileContent ukernelFileName
              ukernelObjectName cwd [] tempDir dir npuVersion verbose ;;
          match mmObjectFilePath with
          | None => ret ReturnFailure
          | Some _ => ret (Continue (vitisDir, mmObjectFilePath))
          end
        else ret (Continue (vitisDir, Some (cwd // ukernelObjectName)))
    end
  else ret (Continue (vitisDir, None)).

(** The [useChess] branch for one core. *)
Definition linkCoreWithChess (objFile tempDir cwd npuVersion : string)
    (verbose : bool) (ukernel : option string) (col row : Z)
    (elfFileName : string) (vitisDir mmObjectFilePath : option string)
    : M (Flow (option string)) :=
  let elfFile := tempDir // elfFileName in
  r <- findVitis vitisDir npuVersion ;;
  let '(vitisDir, maybeVitisDir) := r in
  match maybeVitisDir with
  | None => ret ReturnFailure
  | Some dir =>
      present <- exists_ (cwd // "chess_intrinsic_wrapper.o") ;;
      chessIntrinsicsObjFile <-
        (if negb present then
           assembleStringUsingChess CHESS_INTRINSIC_WRAPPER_CPP
             "chess_intrinsic_wrapper.cpp" "chess_intrinsic_wrapper.o"
             tempDir [] tempDir dir npuVersion verbose
         else ret (Some (cwd // "chess_intrinsic_wrapper.o"))) ;;
      match chessIntrinsicsObjFile with
      | None => ret ReturnFailure
      | Some chessIntrinsicsObjFile =>
          let bcfPath := tempDir // (elfFileName +:+ ".bcf") in
          err <- openOutputFile bcfPath ;;
          match err with
          | Some errorMessage =>
              errs ("failed to open bcf file because: " +:+ errorMessage) ;;
              ret ReturnFailure
          | None =>
              w <- get ;;
              match AIETranslateToBCF (w_device w) col row with
              | None =>
                  errs "Failed to generate BCF" ;;
                  discard bcfPath ;;
                  ret ReturnFailure
              | Some bcf =>
                  os_write bcfPath bcf ;;
                  dir' <- value vitisDir ;;
                  exeArgs <- makeChessArgs dir' tempDir npuVersion verbose ;;
                  let '(xChessCCExe, chessArgs) := exeArgs in
                  mm <-
                    (if ukernelRequested ukernel
                     then m <- deref mmObjectFilePath ;; ret [m]
                     else ret []) ;;
                  let chessArgs :=
                    chessArgs ++ [objFile; chessIntrinsicsObjFile] ++ mm
                      ++ ["+l"; bcfPath; "-o"; elfFile] in
                  env <- makeChessEnv dir' npuVersion ;;
                  r <- runTool xChessCCExe chessArgs verbose (Some env) ;;
                  if failed r then
                    diag ("failed to generate elf for core: ("
                            +:+ Str.to_string col +:+ ", "
                            +:+ Str.to_string row +:+ ")") ;;
                    ret ReturnFailure
                  else ret (Continue vitisDir)
              end
          end
      end
  end.

(** [StringRef::lower] is the platform's; only ASCII letters change. *)
Definition lower_char (c : ascii) : ascii :=
  let n := nat_of_ascii c in
  if Nat.leb 65 n && Nat.leb n 90 then ascii_of_nat (n + 32) else c.

Fixpoint lower (s : string) : string :=
  match s with
  | EmptyString => EmptyString
  | String c s' => String (lower_char c) (lower s')
  end.

(** The other branch for one core. *)
Definition linkCoreWithPeano (objFile tempDir targetArch peanoDir : string)
    (verbose : bool) (ukernel : option string) (col row : Z)
    (elfFileName : string) (vitisDir mmObjectFilePath : option string)
    : M (Flow (option string)) :=
  let elfFile := tempDir // elfFileName in
  let ldscriptPath := tempDir // (elfFileName +:+ ".ld") in
  err <- openOutputFile ldscriptPath ;;
  match err with
  | Some errorMessage =>
      errs ("Failed to open ldscript file because: " +:+ errorMessage) ;;
      ret ReturnFailure
  | None =>
      w <- get ;;
      match AIETranslateToLdScript (w_device w) col row with
      | None => discard ldscriptPath ;; ret ReturnFailure
      | Some script =>
          os_write ldscriptPath script ;;
          let targetLower := lower targetArch in
          mm <-
            (if ukernelRequested ukernel
             then m <- deref mmObjectFilePath ;; ret [m]
             else ret []) ;;
          let flags :=
            [objFile] ++ mm
               ++ [ "--target=" +:+ targetLower +:+ "-none-unknown-elf";
                    "-Wl,--gc-sections";
                    "-Wl,--orphan-handling=error";
                    "-Wl,-T," +:+ ldscriptPath;
                    "-o"; elfFile ]
               ++ (if verbose then ["-v"] else []) in
          r <- runTool (peanoDir // "bin" // "clang") flags verbose None ;;
          if failed r then ret ReturnFailure
          else ret (Continue vitisDir)
      end
  end.

(** The body of the loop over the tiles, for tile [i]. *)
Definition coreElfFile (objFile tempDir : string) (useChess : bool)
    (targetArch : string) (verbose : bool) (peanoDir npuVersion : string)
    (ukernel : option string) (files : string * string * string)
    (i : nat) (vitisDir : option string) : M (Flow (option string)) :=
  w <- get ;;
  match IR.tiles (w_device w) !! i with
  | None => ret (Continue vitisDir)
  | Some tileOp =>
      let col := IR.col tileOp in
      let row := IR.row tileOp in
      match IR.core tileOp with
      | None => ret (Continue vitisDir)
      | Some coreOp =>
          elfFileName <- coreElfFileName i col row coreOp ;;
          cwd <- current_path ;;
          u <- ukernelObject tempDir cwd npuVersion files verbose ukernel
                 vitisDir ;;
          match u with
          | ReturnFailure => ret ReturnFailure
          | Continue (vitisDir, mmObjectFilePath) =>
              if useChess then
                linkCoreWithChess objFile tempDir cwd npuVersion verbose
                  ukernel col row elfFileName vitisDir mmObjectFilePath
              else
                linkCoreWithPeano objFile tempDir targetArch peanoDir
                  verbose ukernel col row elfFileName vitisDir
                  mmObjectFilePath
          end
      end
  end.

(** [for (AIE::TileOp tileOp : tileOps)] over the tiles [idxs]. *)
Fixpoint forTiles (body : nat -> option string -> M (Flow (option string)))
    (idxs : list nat) (vitisDir : option string) : M LogicalResult :=
  match idxs with
  | [] => ret success
  | i :: idxs' =>
      f <- body i vitisDir ;;
      match f with
      | ReturnFailure => ret failure
      | Continue vitisDir => forTiles body idxs' vitisDir
      end
  end.

Definition generateCoreElfFiles (objFile tempDir : string) (useChess : bool)
    (vitisDir : option string) (targetArch : string) (verbose : bool)
    (peanoDir npuVersion : string) (ukernel : option string)
    : M LogicalResult :=
  w <- get ;;
  let tileOps := seq 0 (length (IR.tiles (w_device w))) in
  match ukernelFiles npuVersion with
  | None =>
      errs ("unsupported NPU version: " +:+ npuVersion) ;;
      ret failure
  | Some files =>
      forTiles
        (coreElfFile objFile tempDir useChess targetArch verbose peanoDir
           npuVersion ukernel files)
        tileOps vitisDir
  end.

Definition generateCDO (tempDir : string) : M LogicalResult :=
  w <- get ;;
  let copy := w_device w in
  match AIETranslateToCDODirect (host w) copy tempDir with
  | None => errs "failed to emit CDO" ;; ret failure
  | Some fs => set_fs fs ;; ret success
  end.

Definition designBif (tempDir : string) : string :=
  let nl := Str.of_char Str.newline in
  "all:" +:+ nl
    +:+ "{" +:+ nl
    +:+ "  id_code = 0x14ca8093" +:+ nl
    +:+ "  extended_id_code = 0x01" +:+ nl
    +:+ "  image" +:+ nl
    +:+ "  {" +:+ nl
    +:+ "    name=aie_image, id=0x1c000000" +:+ nl
    +:+ "    { type=cdo" +:+ nl
    +:+ "      file=" +:+ tempDir +:+ "/aie_cdo_elfs.bin" +:+ nl
    +:+ "      file=" +:+ tempDir +:+ "/aie_cdo_init.bin" +:+ nl
    +:+ "      file=" +:+ tempDir +:+ "/aie_cdo_enable.bin" +:+ nl
    +:+ "    }" +:+ nl
    +:+ "  }" +:+ nl
    +:+ "}".

Definition generatePDI (Output tempDir : string) : M LogicalResult :=
  let designBifFile := tempDir // "design.bif" in
  err <- openOutputFile designBifFile ;;
  match err with
  | Some errorMessage =>
      errs ("failed to open design.bif because: " +:+ errorMessage) ;;
      ret failure
  | None =>
      os_write designBifFile (designBif tempDir) ;;
      let flags :=
        [ EmptyString; "-arch"; "versal"; "-image"; designBifFile;
          "-o"; Output; "-w" ] in
      w <- get ;;
      let '(status, fs) := bootgen_main (host w) flags in
      log (EvBootgen flags) ;;
      set_fs fs ;;
      if negb (status =? 0) then
        errs "failed to execute bootgen" ;; ret failure
      else ret success
  end.

End Stages.

(** ** XclbinPackager *)

Module Uuid.
Section Uuid.
Context `{Platform}.
Import Prim.

(** One draw of a [std::uniform_int_distribution<>(lo, hi)]. *)
Definition uniform_int (lo hi : Z) : M Z :=
  fun w => Ret (lo + random_bits (w_rng w) mod (hi - lo + 1)) (with_draw w).

(** [n] draws of [dis], each written in hexadecimal. *)
Fixpoint dis_digits (n : nat) : M string :=
  match n with
  | O => ret EmptyString
  | S n' =>
      d <- uniform_int 0 15 ;;
      rest <- dis_digits n' ;;
      ret (Hex.digits_lower d +:+ rest)
  end.

Definition getUUIDString : M string :=
  a <- dis_digits 8 ;;
  b <- dis_digits 4 ;;
  c <- dis_digits 3 ;;
  d <- uniform_int 8 11 ;;
  e <- dis_digits 3 ;;
  f <- dis_digits 12 ;;
  ret (a +:+ "-" +:+ b +:+ "-4" +:+ c +:+ "-" +:+ Hex.digits_lower d +:+ e
         +:+ "-" +:+ f).

End Uuid.
End Uuid.

Module Xclbin.
Section Xclbin.
Context `{Platform}.
Import Prim.

Definition memTopologyData : string := Str.dq
"{
      'mem_topology': {
          'm_count': '2',
          'm_mem_data': [
              {
                  'm_type': 'MEM_DRAM',
                  'm_used': '1',
                  'm_sizeKB': '0x10000',
                  'm_tag': 'HOST',
                  'm_base_address': '0x4000000'
              },
              {
                  'm_type': 'MEM_DRAM',
                  'm_used': '1',
                  'm_sizeKB': '0xc000',
                  'm_tag': 'SRAM',
                  'm_base_address': '0x4000000'
              }
          ]
      }
    }".

Definition aiePartitionJsonData (uuidStr xclBinKernelID : string) : string :=
  Str.dq
"
      {
        'aie_partition': {
          'name': 'QoS',
          'operations_per_cycle': '2048',
          'inference_fingerprint': '23423',
          'pre_post_fingerprint': '12345',
          'partition': {
            'column_width': 4,
            'start_columns': [1]
          },
          'PDIs': [
            {
              'uuid': '" +:+ uuidStr +:+ Str.dq "',
              'file_name': './design.pdi',
              'cdo_groups': [
                {
                  'name': 'DPU',
                  'type': 'PRIMARY',
                  'pdi_id': '0x01',
                  'dpu_kernel_ids': [
                    '" +:+ xclBinKernelID +:+ Str.dq "'
                  ],
                  'pre_cdo_groups': [
                    '0xC1'
                  ]
                }
              ]
            }
          ]
        }
      }
    ".

(** [doc->getAsObject()->getObject("aie_partition")->getArray("PDIs")]:
    the root object, the partition object and the pointer to the array,
    which may be null. *)
Definition partitionPDIs (doc : option json)
    : M (gmap string json * gmap string json * option (list json)) :=
  match doc with
  | None => abort ErrorDeref
  | Some v =>
      root <- nonnull (Json.getAsObject v) ;;
      partition <- nonnull (Json.getObject root "aie_partition") ;;
      ret (root, partition, Json.getArray partition "PDIs")
  end.

(** The input document with its PDI array replaced: the array is
    changed in place inside [aieInputPartitionOutValue]. *)
Definition withPDIs (root partition : gmap string json) (pdis : list json)
    : json :=
  JObj (<["aie_partition" := JObj (<["PDIs" := JArr pdis]> partition)]> root).

(** The PDI array of a partition document. *)
Definition PDIs (doc : json) : option (list json) :=
  root ← Json.getAsObject doc;
  partition ← Json.getObject root "aie_partition";
  Json.getArray partition "PDIs".

(** Lines 978 to 1016: the PDI entries of the dumped partition section
    of the base container, then those of the partition document just
    written, are written back to [aie_partition.json]. *)
Definition mergePartition (tempDir : string) : M LogicalResult :=
  let aiePartitionJsonFile := tempDir // "aie_partition.json" in
  let aieInputPartitionJsonFile := tempDir // "aie_input_partition.json" in
  aieInputPartitionOut <- openInputFile aieInputPartitionJsonFile ;;
  match aieInputPartitionOut with
  | inl errorMessage =>
      errs ("failed to open aie_input_partition.json because: "
              +:+ errorMessage) ;;
      ret failure
  | inr inputBuffer =>
      input <- partitionPDIs (json_parse inputBuffer) ;;
      let '(root, partition, aieInputPartionPDIs) := input in
      aiePartitionOut <- openInputFile aiePartitionJsonFile ;;
      match aiePartitionOut with
      | inl errorMessage =>
          errs ("failed to open aie aie_input_partition.json for "
                  +:+ "output because: " +:+ errorMessage) ;;
          ret failure
      | inr buffer =>
          new <- partitionPDIs (json_parse buffer) ;;
          let '(_, _, aiePartionPDIs) := new in
          base <- nonnull aieInputPartionPDIs ;;
          added <- nonnull aiePartionPDIs ;;
          let merged := base ++ added in
          maybeErr <-
            dumpStrToDisk (json_format (withPDIs root partition merged))
              aiePartitionJsonFile ;;
          match maybeErr with
          | Some _ =>
              errs ("failed to dump to disk aie_input_partition.json "
                      +:+ "because: " +:+ EmptyString) ;;
              ret failure
          | None => ret success
          end
      end
  end.

(** Everything [generateXCLBin] does before it runs the packaging tool
    for the last time: the tool and its flags. *)
Definition prepareXCLBin (Output tempDir xclBinKernelID xclBinKernelName
      xclBinInstanceName amdAIEInstallDir : string) (verbose : bool)
    (inputXclbin : option string) : M (Flow (string * list string)) :=
  let memTopologyJsonFile := tempDir // "mem_topology.json" in
  maybeErr <- dumpStrToDisk memTopologyData memTopologyJsonFile ;;
  match maybeErr with
  | Some err =>
      errs ("failed to dump to disk mem_topology.json because: " +:+ err) ;;
      ret ReturnFailure
  | None =>
  let aiePartitionJsonFile := tempDir // "aie_partition.json" in
  uuidStr <- Uuid.getUUIDString ;;
  maybeErr <-
    dumpStrToDisk (aiePartitionJsonData uuidStr xclBinKernelID)
      aiePartitionJsonFile ;;
  match maybeErr with
  | Some err =>
      errs ("failed to dump to disk aie_partition.json because: " +:+ err) ;;
      ret ReturnFailure
  | None =>
  let kernelsJsonFile := tempDir // "kernels.json" in
  let kernelStr :=
    json_format (Kernel.kernelsData xclBinKernelName xclBinKernelID
                   xclBinInstanceName) in
  maybeErr <- dumpStrToDisk kernelStr kernelsJsonFile ;;
  match maybeErr with
  | Some err =>
      errs ("failed to dump to disk kernels.json because: " +:+ err) ;;
      ret ReturnFailure
  | None =>
  r <- generatePDI (tempDir // "design.pdi") tempDir ;;
  if failed r then ret ReturnFailure else
  let memArg := "MEM_TOPOLOGY:JSON:" +:+ memTopologyJsonFile in
  let partArg := "AIE_PARTITION:JSON:" +:+ aiePartitionJsonFile in
  xclbinutilBin <- findAMDAIETool "iree-aie-xclbinutil" amdAIEInstallDir ;;
  match xclbinutilBin with
  | None => ret ReturnFailure
  | Some xclbinutil =>
      let tail :=
        [ "--add-kernel"; kernelsJsonFile; "--add-replace-section"; partArg;
          "--force"; "--output"; Output ] in
      match inputXclbin with
      | None =>
          ret (Continue
                 (xclbinutil, ["--add-replace-section"; memArg] ++ tail))
      | Some input =>
          let aieInputPartitionJsonFile :=
            tempDir // "aie_input_partition.json" in
          let inputPartArg :=
            "AIE_PARTITION:JSON:" +:+ aieInputPartitionJsonFile in
          let inputFlags :=
            ["--dump-section"; inputPartArg; "--force"; "--input"; input] in
          r <- runTool xclbinutil inputFlags verbose None ;;
          if failed r then
            errs "failed to execute xclbinutil" ;; ret ReturnFailure
          else
            r <- mergePartition tempDir ;;
            if failed r then ret ReturnFailure
            else ret (Continue (xclbinutil, ["--input"; input] ++ tail))
      end
  end end end end.

Definition generateXCLBin (Output tempDir xclBinKernelID xclBinKernelName
      xclBinInstanceName amdAIEInstallDir : string) (verbose : bool)
    (inputXclbin : option string) : M LogicalResult :=
  p <- prepareXCLBin Output tempDir xclBinKernelID xclBinKernelName
         xclBinInstanceName amdAIEInstallDir verbose inputXclbin ;;
  match p with
  | ReturnFailure => ret failure
  | Continue (xclbinutil, flags) => runTool xclbinutil flags verbose None
  end.

End Xclbin.
End Xclbin.

(** ** UnifiedObjectBuilder and Orchestrator *)

Inductive DeviceHAL := XRT | XRT_LITE.

(** The parameters of [aie2xclbin], under the names the source gives
    them. *)
Record Config := {
  outputNPU : option string;
  emitCtrlPkt : bool;
  artifactPath : string;
  passManager : PassManagerConfig;
  tempDir : string;
  useChess : bool;
  verbose : bool;
  vitisDir : option string;
  targetArch : string;
  npuVersion : string;
  peanoDir : string;
  deviceHal : DeviceHAL;
  xclBinKernelID : string;
  xclBinKernelName : string;
  xclBinInstanceName : string;
  amdAIEInstallDir : string;
  InputXCLBin : option string;
  ukernel : option string;
  additionalPeanoOptFlags : string
}.

(** [size_t] and [int] of the target. *)
Definition to_size_t (z : Z) : Z := z mod 2 ^ 64.
Definition INT_MAX : Z := 2 ^ 31 - 1.

Module ArrayRef.

Definition size (a : list Z) : Z := Z.of_nat (length a).

(** [operator[]] with a [size_t] index; [None] outside the array. *)
Definition get (a : list Z) (i : Z) : option Z :=
  if (0 <=? i) && (i <? size a) then a !! Z.to_nat i else None.

(** [back()]; [None] on the empty array. *)
Definition back (a : list Z) : option Z := last a.

End ArrayRef.

Section Orchestrator.
Context `{Platform}.
Import Prim.

(** The pass manager is configured by [applyConfigToPassManager] and
    run by the platform.  What it prints itself when [printIRBeforeAll],
    [printIRAfterAll] or [timing] is set (the IR between passes, the
    timing report) goes to [llvm::errs()] from inside MLIR and is not
    recorded in the trace: the trace holds the messages of this
    file. *)
Definition generateUnifiedObject (outputFile : string)
    (pm : PassManagerConfig) (useChess verbose : bool) (tempDir : string)
    (vitisDir : option string) (targetArch peanoDir npuVersion
      additionalPeanoOptFlags : string) : M LogicalResult :=
  when verbose
    (outs (Str.of_char Str.newline +:+ "Running: "
             +:+ printAsTextualPipeline useChess
             +:+ Str.of_char Str.newline)) ;;
  w <- get ;;
  match runLoweringPasses pm useChess (w_device w) with
  | None => errs "Failed to lower to LLVM" ;; ret failure
  | Some moduleOpCopy =>
      match translateModuleToLLVMIR moduleOpCopy with
      | None => errs "Failed to translate module to LLVMIR" ;; ret failure
      | Some inputLLStr =>
          if useChess then
            r <- findVitis vitisDir npuVersion ;;
            let '(vitisDir, maybeVitisDir) := r in
            match maybeVitisDir with
            | None => ret failure
            | Some dir =>
                chessIntrinsicsObjFile <-
                  assembleStringUsingChess inputLLStr "input.ll" outputFile
                    tempDir [] tempDir dir npuVersion verbose ;;
                match chessIntrinsicsObjFile with
                | None => ret failure
                | Some _ => ret success
                end
            end
          else
            let LLVMIRFile := tempDir // "input.ll" in
            maybeErr <- dumpStrToDisk inputLLStr LLVMIRFile ;;
            match maybeErr with
            | Some err =>
                errs ("Failed to dump to disk input.ll" +:+ " because: "
                        +:+ err) ;;
                ret failure
            | None =>
                let peanoOptBin := peanoDir // "bin" // "opt" in
                let peanoLLCBin := peanoDir // "bin" // "llc" in
                let OptLLVMIRFile := tempDir // "input.opt.ll" in
                peanoArgs <-
                  reporting (OptFlags.makePeanoOptArgs LLVMIRFile
                               OptLLVMIRFile additionalPeanoOptFlags) ;;
                match peanoArgs with
                | None => errs "Failed to make peano opt args" ;; ret failure
                | Some peanoArgs =>
                    r <- runTool peanoOptBin peanoArgs verbose None ;;
                    if failed r then
                      errs "Failed to optimize ll with peano" ;; ret failure
                    else
                      r <- runTool peanoLLCBin
                             [ OptLLVMIRFile; "-O2";
                               "--march=" +:+ lower targetArch;
                               "--function-sections"; "--filetype=obj";
                               "-o"; outputFile ]
                             verbose None ;;
                      if failed r then
                        errs ("Failed to assemble ll with peano"
                                +:+ Str.of_char Str.newline) ;;
                        ret failure
                      else ret success
                end
            end
      end
  end.

(** As for [generateUnifiedObject], the output of the configured pass
    manager itself is not recorded. *)
Definition generateControlPackets (tempDirPath : string)
    (pm : PassManagerConfig) : M LogicalResult :=
  w <- get ;;
  let '(r, d) :=
    runControlPacketPasses pm (host w) (w_device w) tempDirPath in
  set_device d ;;
  ret r.

(** The loop [for (int i = 0; i < size() - 1; ++i)] of
    [emitNpuInstructions], from [i] on: the comparison is made in
    [size_t], the index is an [int]. *)
Fixpoint emitWords (fuel : nat) (outputNPU : string) (a : list Z) (i : Z)
    : M unit :=
  match fuel with
  | O => abort FuelExhausted
  | S fuel' =>
      if to_size_t i <? to_size_t (ArrayRef.size a - 1) then
        match ArrayRef.get a (to_size_t i) with
        | None => abort OutOfBounds
        | Some word =>
            os_write outputNPU
              (Hex.format_08X word +:+ Str.of_char Str.newline) ;;
            if i =? INT_MAX then abort SignedOverflow
            else emitWords fuel' outputNPU a (i + 1)
        end
      else ret tt
  end.

Definition emitNpuInstructions (outputNPU : string) : M LogicalResult :=
  w <- get ;;
  match IR.npu_instructions (w_device w) with
  | None =>
      diag "Expected npu_instructions attribute on aie.device" ;;
      ret failure
  | Some IR.OtherAttr =>
      diag ("Failed to cast npu_instructions to "
              +:+ "DenseUI32ResourceElementsAttr") ;;
      ret failure
  | Some (IR.DenseUI32ResourceElementsAttr maybeArrayRef) =>
      match maybeArrayRef with
      | None => abort AssertionFailure
      | Some a =>
          err <- openOutputFile outputNPU ;;
          match err with
          | Some errorMessage =>
              errs ("Failed to open npu_instructions.txt for writing "
                      +:+ "because: " +:+ errorMessage
                      +:+ Str.of_char Str.newline) ;;
              ret failure
          | None =>
              emitWords (S (length a)) outputNPU a 0 ;;
              match ArrayRef.back a with
              | None => abort OutOfBounds
              | Some word =>
                  os_write outputNPU (Hex.format_08X word) ;;
                  ret success
              end
          end
      end
  end.

(** [std::filesystem::copy_file] with [overwrite_existing]: an error
    message, or [None] when the file was copied. *)
Definition copy_file (from to : string) : M (option string) :=
  w <- get ;;
  match w_fs w !! from with
  | Some (File c) =>
      match copy_file_error (host w) from to with
      | Some msg => ret (Some msg)
      | None => set_fs (<[to := File c]> (w_fs w)) ;; ret None
      end
  | _ => ret (Some "No such file or directory")
  end.

(** [outputNPU.has_value() && failed(emitNpuInstructions(...))]: the
    dump, when one is asked for. *)
Definition emitRequestedInstructions (c : Config) : M LogicalResult :=
  match outputNPU c with
  | Some out => emitNpuInstructions out
  | None => ret success
  end.

Definition aie2xclbin (c : Config) : M LogicalResult :=
  dumped <- emitRequestedInstructions c ;;
  if failed dumped then ret failure else
  let tempDirPath := tempDir c in
  let peanoDirPath := peanoDir c in
  let vitisDirPath := vitisDir c in
  let unifiedObj := tempDirPath // "input.o" in
  r <- generateUnifiedObject unifiedObj (passManager c) (useChess c)
         (verbose c) tempDirPath vitisDirPath (targetArch c) peanoDirPath
         (npuVersion c) (additionalPeanoOptFlags c) ;;
  if failed r then
    errs ("Failed to generate unified object" +:+ Str.of_char Str.newline) ;;
    ret failure
  else
  r <- generateCoreElfFiles unifiedObj tempDirPath (useChess c) vitisDirPath
         (targetArch c) (verbose c) (peanoDir c) (npuVersion c) (ukernel c) ;;
  if failed r then
    errs ("Failed to generate core ELF file(s)" +:+ Str.of_char Str.newline) ;;
    ret failure
  else
  r <- (if emitCtrlPkt c
        then generateControlPackets tempDirPath (passManager c)
        else ret success) ;;
  if failed r then
    errs ("Failed to generate control packets MLIR file"
            +:+ Str.of_char Str.newline) ;;
    ret failure
  else
  r <- generateCDO tempDirPath ;;
  if failed r then
    errs ("Failed to generate CDO" +:+ Str.of_char Str.newline) ;;
    ret failure
  else
  let pdiPath := tempDirPath // "design.pdi" in
  r <- generatePDI pdiPath tempDirPath ;;
  if failed r then
    errs ("Failed to generate PDI" +:+ Str.of_char Str.newline) ;;
    ret failure
  else
  match deviceHal c with
  | XRT_LITE =>
      ec <- copy_file pdiPath (artifactPath c) ;;
      match ec with
      | Some msg =>
          errs ("Failed to copy file because: " +:+ msg
                  +:+ Str.of_char Str.newline) ;;
          ret failure
      | None => ret success
      end
  | XRT =>
      r <- Xclbin.generateXCLBin (artifactPath c) tempDirPath
             (xclBinKernelID c) (xclBinKernelName c) (xclBinInstanceName c)
             (amdAIEInstallDir c) (verbose c) (InputXCLBin c) ;;
      if failed r then
        errs ("Failed to generate XCLBin" +:+ Str.of_char Str.newline) ;;
        ret failure
      else ret success
  end.

End Orchestrator.

(** ** A concrete platform and concrete worlds

    A small platform on which the pipeline can be run: every tool exits
    with status zero and writes the file named after [-o], the packaging
    tool in dump mode writes a base partition document, and the JSON
    reader knows that document and takes any other text for a partition
    document with one PDI entry carrying the text. *)

Module Demo.

Definition file_after (flag : string) (args : list string) : option string :=
  let i := OptFlags.find_if (String.eqb flag) args in
  args !! S i.

Definition dump_target (args : list string) : option string :=
  arg ← file_after "--dump-section" args;
  Some (String.substring 19 (String.length arg - 19) arg).

Definition basePDIs : list json :=
  [ Json.obj [ ("uuid", JStr "base-0") ];
    Json.obj [ ("uuid", JStr "base-1") ] ].

Definition baseDocument : json :=
  Json.obj
    [ ("aie_partition",
        Json.obj [ ("name", JStr "base"); ("PDIs", JArr basePDIs) ]) ].

Definition parse (text : string) : option json :=
  if String.eqb text "BASE" then Some baseDocument
  else
    Some (Json.obj
            [ ("aie_partition",
                Json.obj
                  [ ("PDIs", JArr [ Json.obj [ ("text", JStr text) ] ]) ]) ]).

Definition run (w : Host) (program : string) (args : list string)
    (env : option (list string)) (redirect : option string) : ExecStatus :=
  let fs := h_fs w in
  let fs :=
    match file_after "-o" args with
    | Some out => <[out := File "obj"]> fs
    | None => fs
    end in
  let fs :=
    match dump_target args with
    | Some out => <[out := File "BASE"]> fs
    | None => fs
    end in
  {| ex_result := 0; ex_ErrMsg := EmptyString; ex_TotalTime := "0";
     ex_fs := fs |}.

#[export] Instance platform : Platform := {|
  win32 := false;
  findProgramByName := fun _ _ => None;
  real_path := fun _ p => Some p;
  remove_filename := fun p => p;
  findTool := fun _ _ => EmptyString;
  createTemporaryFile := fun _ prefix suffix =>
    inr ("/tmp/" +:+ prefix +:+ "-" +:+ suffix);
  ExecuteAndWait := run;
  openOutputFile_error := fun _ _ => None;
  openInputFile_error := fun _ _ => None;
  copy_file_error := fun _ _ _ => None;
  LoweredModule := IR.DeviceOp;
  runLoweringPasses := fun _ _ d => Some d;
  printAsTextualPipeline := fun _ => "builtin.module()";
  translateModuleToLLVMIR := fun d => Some ("; ModuleID " +:+ IR.body d);
  AIETranslateToBCF := fun _ _ _ => Some "_entry_point _main_init";
  AIETranslateToLdScript := fun _ _ _ => Some "ENTRY(_main_init)";
  AIETranslateToCDODirect := fun w _ dir =>
    Some (<[dir // "aie_cdo_elfs.bin" := File "cdo"]>
            (<[dir // "aie_cdo_init.bin" := File "cdo"]>
               (<[dir // "aie_cdo_enable.bin" := File "cdo"]> (h_fs w))));
  bootgen_main := fun w flags =>
    (0, match flags !! 6%nat with
        | Some out => <[out := File "pdi"]> (h_fs w)
        | None => h_fs w
        end);
  runControlPacketPasses := fun _ _ d _ => (success, d);
  CHESS_INTRINSIC_WRAPPER_CPP := "// chess_intrinsic_wrapper.cpp";
  MM_NPU1_CC := "// mm_npu1.cc";
  MM_NPU4_CC := "// mm_npu4.cc";
  random_bits := fun n => Z.of_nat n;
  json_parse := parse;
  json_format := fun _ => "{}"
|}.

(** A device with a core at (2, 5) that has no ELF name, a core at
    (0, 2) named [custom.elf], a tile without a core, and three
    instruction words. *)
Definition device : IR.DeviceOp :=
  {| IR.tiles :=
       [ {| IR.col := 2; IR.row := 5;
            IR.core := Some {| IR.elf_file := None |} |};
         {| IR.col := 0; IR.row := 2;
            IR.core := Some {| IR.elf_file := Some "custom.elf" |} |};
         {| IR.col := 0; IR.row := 0; IR.core := None |} ];
     IR.npu_instructions :=
       Some (IR.DenseUI32ResourceElementsAttr (Some [1; 2; 3]));
     IR.body := "aie.device(npu1_4col)" |}.

(** The open backend and the packaging tool are installed; there is no
    vendor toolchain and no license. *)
Definition world : World :=
  {| w_env := {[ "PATH" := "/usr/bin" ]};
     w_cwd := "/work";
     w_fs := list_to_map
               [ ("/peano/bin/opt", File EmptyString);
                 ("/peano/bin/llc", File EmptyString);
                 ("/peano/bin/clang", File EmptyString);
                 ("/install/bin/iree-aie-xclbinutil", File EmptyString);
                 ("/base.xclbin", File EmptyString) ];
     w_device := device;
     w_rng := 0%nat;
     w_trace := [] |}.

(** The vendor toolchain is installed under [/vitis] and
    [XILINXD_LICENSE_FILE] names a file that does not exist. *)
Definition vendor_world : World :=
  {| w_env := {[ "PATH" := "/usr/bin";
                 "XILINXD_LICENSE_FILE" := "/licenses/missing.lic" ]};
     w_cwd := "/work";
     w_fs := list_to_map
               [ ("/vitis/aietools", Dir);
                 ("/vitis/aietools/tps/lnx64/target_aie_ml/bin/LNa64bin/chess-clang",
                   File EmptyString);
                 ("/vitis/aietools/tps/lnx64/target_aie_ml/bin/LNa64bin/chess-llvm-link",
                   File EmptyString);
                 ("/vitis/aietools/bin/unwrapped/lnx64.o/xchesscc",
                   File EmptyString) ];
     w_device := device;
     w_rng := 0%nat;
     w_trace := [] |}.

Definition config : Config :=
  {| outputNPU := None;
     emitCtrlPkt := false;
     artifactPath := "/out/module.xclbin";
     passManager := {| printIRBeforeAll := false; printIRAfterAll := false;
                       printIRModuleScope := false; timing := false |};
     tempDir := "/tmp/build";
     useChess := false;
     verbose := false;
     vitisDir := None;
     targetArch := "AIE2";
     npuVersion := "npu1";
     peanoDir := "/peano";
     deviceHal := XRT;
     xclBinKernelID := "0x101";
     xclBinKernelName := "matmul";
     xclBinInstanceName := "inst0";
     amdAIEInstallDir := "/install";
     InputXCLBin := None;
     ukernel := None;
     additionalPeanoOptFlags := EmptyString |}.

Definition with_ukernel (u : option string) (c : Config) : Config :=
  {| outputNPU := outputNPU c; emitCtrlPkt := emitCtrlPkt c;
     artifactPath := artifactPath c; passManager := passManager c;
     tempDir := tempDir c; useChess := useChess c; verbose := verbose c;
     vitisDir := vitisDir c; targetArch := targetArch c;
     npuVersion := npuVersion c; peanoDir := peanoDir c;
     deviceHal := deviceHal c; xclBinKernelID := xclBinKernelID c;
     xclBinKernelName := xclBinKernelName c;
     xclBinInstanceName := xclBinInstanceName c;
     amdAIEInstallDir := amdAIEInstallDir c; InputXCLBin := InputXCLBin c;
     ukernel := u; additionalPeanoOptFlags := additionalPeanoOptFlags c |}.

Definition with_chess (vitis : option string) (c : Config) : Config :=
  {| outputNPU := outputNPU c; emitCtrlPkt := emitCtrlPkt c;
     artifactPath := artifactPath c; passManager := passManager c;
     tempDir := tempDir c; useChess := true; verbose := verbose c;
     vitisDir := vitis; targetArch := targetArch c;
     npuVersion := npuVersion c; peanoDir := peanoDir c;
     deviceHal := deviceHal c; xclBinKernelID := xclBinKernelID c;
     xclBinKernelName := xclBinKernelName c;
     xclBinInstanceName := xclBinInstanceName c;
     amdAIEInstallDir := amdAIEInstallDir c; InputXCLBin := InputXCLBin c;
     ukernel := ukernel c;
     additionalPeanoOptFlags := additionalPeanoOptFlags c |}.

(** The open backend with the matrix-multiply microkernel. *)
Definition ukernel_config : Config := with_ukernel (Some "mm") config.

(** The vendor backend, with no toolchain directory given. *)
Definition chess_config : Config := with_chess None config.

End Demo.

(** ** More worlds and platforms to run the pipeline on *)

Module Cases.

(** The vendor toolchain is installed under [/vitis], a license is
    named, and [VITIS] points at the installation. *)
Definition vitis_env_world : World :=
  {| w_env := <["VITIS" := "/vitis"]> (w_env Demo.vendor_world);
     w_cwd := w_cwd Demo.vendor_world;
     w_fs := w_fs Demo.vendor_world;
     w_device := Demo.device;
     w_rng := 0%nat;
     w_trace := [] |}.

(** The demo platform with another way of creating the log file of a
    run and of running a process. *)
Definition platform_with
    (tmp : Host -> string -> string -> string + string)
    (exec : Host -> string -> list string -> option (list string)
            -> option string -> ExecStatus) : Platform :=
  {| win32 := false;
     findProgramByName := @findProgramByName Demo.platform;
     real_path := @real_path Demo.platform;
     remove_filename := @remove_filename Demo.platform;
     findTool := @findTool Demo.platform;
     createTemporaryFile := tmp;
     ExecuteAndWait := exec;
     openOutputFile_error := @openOutputFile_error Demo.platform;
     openInputFile_error := @openInputFile_error Demo.platform;
     copy_file_error := @copy_file_error Demo.platform;
     LoweredModule := @LoweredModule Demo.platform;
     runLoweringPasses := @runLoweringPasses Demo.platform;
     printAsTextualPipeline := @printAsTextualPipeline Demo.platform;
     translateModuleToLLVMIR := @translateModuleToLLVMIR Demo.platform;
     AIETranslateToBCF := @AIETranslateToBCF Demo.platform;
     AIETranslateToLdScript := @AIETranslateToLdScript Demo.platform;
     AIETranslateToCDODirect := @AIETranslateToCDODirect Demo.platform;
     bootgen_main := @bootgen_main Demo.platform;
     runControlPacketPasses := @runControlPacketPasses Demo.platform;
     CHESS_INTRINSIC_WRAPPER_CPP := @CHESS_INTRINSIC_WRAPPER_CPP Demo.platform;
     MM_NPU1_CC := @MM_NPU1_CC Demo.platform;
     MM_NPU4_CC := @MM_NPU4_CC Demo.platform;
     random_bits := @random_bits Demo.platform;
     json_parse := @json_parse Demo.platform;
     json_format := @json_format Demo.platform |}.

(** No temporary file can be created. *)
Definition no_log_platform : Platform :=
  platform_with (fun _ _ _ => inl "Permission denied") Demo.run.

(** Every process removes the file its output is redirected to. *)
Definition lost_log_platform : Platform :=
  platform_with (@createTemporaryFile Demo.platform)
    (fun w program args env redirect =>
       let s := Demo.run w program args env redirect in
       {| ex_result := ex_result s; ex_ErrMsg := ex_ErrMsg s;
          ex_TotalTime := ex_TotalTime s;
          ex_fs := match redirect with
                   | Some log => delete log (ex_fs s)
                   | None => ex_fs s
                   end |}).

(** A device whose tiles have no core and that carries no
    instructions. *)
Definition bare_device : IR.DeviceOp :=
  {| IR.tiles :=
       [ {| IR.col := 0; IR.row := 0; IR.core := None |};
         {| IR.col := 1; IR.row := 0; IR.core := None |} ];
     IR.npu_instructions := None;
     IR.body := "aie.device(npu1_4col)" |}.

Definition bare_world : World := with_device bare_device Demo.world.

(** A device with more instruction words than an [int] can count. *)
Definition long_device : IR.DeviceOp :=
  {| IR.tiles := [];
     IR.npu_instructions :=
       Some (IR.DenseUI32ResourceElementsAttr
               (Some (replicate (Z.to_nat 2147483649) 0)));
     IR.body := "aie.device(npu1_4col)" |}.

Definition long_world : World := with_device long_device Demo.world.

(** The demo configuration for the lighter runtime, which takes the
    boot image itself. *)
Definition lite_config : Config :=
  {| outputNPU := outputNPU Demo.config;
     emitCtrlPkt := emitCtrlPkt Demo.config;
     artifactPath := "/out/module.pdi";
     passManager := passManager Demo.config;
     tempDir := tempDir Demo.config; useChess := useChess Demo.config;
     verbose := verbose Demo.config; vitisDir := vitisDir Demo.config;
     targetArch := targetArch Demo.config;
     npuVersion := npuVersion Demo.config;
     peanoDir := peanoDir Demo.config;
     deviceHal := XRT_LITE;
     xclBinKernelID := xclBinKernelID Demo.config;
     xclBinKernelName := xclBinKernelName Demo.config;
     xclBinInstanceName := xclBinInstanceName Demo.config;
     amdAIEInstallDir := amdAIEInstallDir Demo.config;
     InputXCLBin := InputXCLBin Demo.config;
     ukernel := ukernel Demo.config;
     additionalPeanoOptFlags := additionalPeanoOptFlags Demo.config |}.

End Cases.

(** ** Notions the properties are stated with *)

Module Spec.

Import OptFlags.

(** The level the composed list ends up with: the last level flag
    supplied, or the one that was there. *)
Definition chosen_level (o : string) (flags : list string) : string :=
  default o (last (filter (fun f => isOptLevelFlag f = true) flags)).

(** The supplied flags that are not level flags, in order. *)
Definition other_flags (flags : list string) : list string :=
  filter (fun f => isOptLevelFlag f = false) flags.

(** The default options in front of the level, and what follows it. *)
Definition before_level : list string := take 6 (default_args "in" "out").
Definition after_level (fin fout : string) : list string :=
  drop 7 (default_args fin fout).

(** *** The kernel ABI *)

Import Kernel.

Definition slot_is (l : list Slot) (i : nat) (qualifier : string)
    (memory : option string) (offset : Z) : Prop :=
  exists s, l !! i = Some s /\ slot_qualifier s = qualifier
            /\ slot_memory s = memory /\ slot_offset s = offset.

(** The argument list as the specification words it: nine slots, of
    which a scalar at 0x00, a pointer into SRAM at 0x08, a scalar at
    0x10, and five pointers to host buffer objects. *)
Definition abi_with_five_host_pointers (kernel : json) : Prop :=
  exists l, slots kernel = Some l
    /\ length l = 9%nat
    /\ slot_is l 0 "SCALAR" None 0
    /\ slot_is l 1 "GLOBAL" (Some "SRAM") 8
    /\ slot_is l 2 "SCALAR" None 16
    /\ length (host_pointers l) = 5%nat.

Definition scalar (name type : string) (offset : Z) : Slot :=
  {| slot_name := name; slot_qualifier := "SCALAR"; slot_memory := None;
     slot_type := type; slot_offset := offset |}.

Definition pointer (name memory type : string) (offset : Z) : Slot :=
  {| slot_name := name; slot_qualifier := "GLOBAL";
     slot_memory := Some memory; slot_type := type;
     slot_offset := offset |}.

(** The argument list the code builds. *)
Definition fixed_abi : list Slot :=
  [ scalar "opcode" "uint64_t" 0;
    pointer "instr" "SRAM" "char *" 8;
    scalar "ninstr" "uint32_t" 16;
    pointer "bo0" "HOST" "void*" 20;
    pointer "bo1" "HOST" "void*" 28;
    pointer "bo2" "HOST" "void*" 36;
    pointer "bo3" "HOST" "void*" 44;
    pointer "bo4" "HOST" "void*" 52;
    pointer "bo5" "HOST" "void*" 60 ].

(** *** Hardware families *)

Definition recognized (npuVersion : string) : bool :=
  String.eqb npuVersion "npu1" || String.eqb npuVersion "npu4".

(** *** The instruction dump *)

Definition uint32 (z : Z) : Prop := 0 <= z < 2 ^ 32.

(** A word and the newline after it, as the loop writes them. *)
Definition line (word : Z) : string :=
  Hex.format_08X word +:+ Str.of_char Str.newline.

(** One item per line: a newline between two items, none after the
    last. *)
Fixpoint lines (l : list string) : string :=
  match l with
  | [] => EmptyString
  | [x] => x
  | x :: rest => x +:+ Str.of_char Str.newline +:+ lines rest
  end.

(** *** ELF names *)

(** The name the core [c] of tile [t] ends up with. *)
Definition elf_name (t : IR.TileOp) (c : IR.CoreOp) : string :=
  default (synthesizedElfFileName (IR.col t) (IR.row t)) (IR.elf_file c).

Definition named_core (t : IR.TileOp) (c : IR.CoreOp) : IR.CoreOp :=
  {| IR.elf_file := Some (elf_name t c) |}.

(** How the tile [t'] of the device after a run relates to the tile [t]
    at the same place before it: the same coordinates, a core exactly
    if there was one, and a core that is either as it was or has been
    given its name. *)
Definition tile_kept (t t' : IR.TileOp) : Prop :=
  IR.col t' = IR.col t /\ IR.row t' = IR.row t
  /\ match IR.core t with
     | None => IR.core t' = None
     | Some c => IR.core t' = Some c \/ IR.core t' = Some (named_core t c)
     end.

(** The core of [t'], if [t] has one, carries its name. *)
Definition tile_named (t t' : IR.TileOp) : Prop :=
  forall c, IR.core t = Some c -> IR.core t' = Some (named_core t c).

(** What the loop body does to the device at tile [i]: a core without
    a name gets the name made from the coordinates. *)
Definition name_tile (i : nat) (d : IR.DeviceOp) : IR.DeviceOp :=
  match IR.tiles d !! i with
  | Some t =>
      match IR.core t with
      | Some c =>
          match IR.elf_file c with
          | None =>
              IR.setElfFile i (synthesizedElfFileName (IR.col t) (IR.row t)) d
          | Some _ => d
          end
      | None => d
      end
  | None => d
  end.

(** The tiles [done] of [d] have been named, and nothing else has
    changed since [d0]. *)
Definition tiles_named (done : list nat) (d0 d : IR.DeviceOp) : Prop :=
  forall i t, IR.tiles d0 !! i = Some t ->
    exists t', IR.tiles d !! i = Some t' /\ tile_kept t t'
               /\ (i ∈ done -> tile_named t t').

(** *** Frames *)

(** The observation [f] of the world is the same after [m], however it
    ends. *)
Definition preserves {X A} (f : World -> X) (m : M A) : Prop :=
  forall w, f (final_world (m w)) = f w.

(** *** Toolchain resolution in the pipeline *)

Section Resolution.
Context `{Platform}.

(** The vendor toolchain cannot be resolved in [w]: [findVitis]
    returns failure. *)
Definition unresolved (vitisDir : option string) (npuVersion : string)
    (w : World) : Prop :=
  exists vitisDir' w',
    findVitis vitisDir npuVersion w = Ret (vitisDir', None) w'.

(** The configuration asks for a microkernel or for the vendor
    backend. *)
Definition requests_vendor_toolchain (c : Config) : bool :=
  ukernelRequested (ukernel c) || useChess c.

(** The pipeline fails and has started no process. *)
Definition fails_before_any_tool (c : Config) (w : World) : Prop :=
  returned (aie2xclbin c w) = Some failure
  /\ execs (final_world (aie2xclbin c w)) = execs w.

End Resolution.

(** The programs started, in order. *)
Definition programs_run (w : World) : list string :=
  omap (fun e => match e with EvExec p _ _ => Some p | _ => None end)
       (w_trace w).

(** The device has a tile with a core. *)
Definition has_core (d : IR.DeviceOp) : Prop :=
  exists i t c, IR.tiles d !! i = Some t /\ IR.core t = Some c.


(** *** Identifiers *)

Definition is_lower_hex_digit (c : ascii) : bool :=
  let n := nat_of_ascii c in
  (Nat.leb 48 n && Nat.leb n 57) || (Nat.leb 97 n && Nat.leb n 102).

(** The digits [8], [9], [a] and [b]. *)
Definition is_variant_digit (c : ascii) : bool :=
  let n := nat_of_ascii c in
  (Nat.leb 56 n && Nat.leb n 57) || (Nat.leb 97 n && Nat.leb n 98).

Definition is_char (c x : ascii) : bool := Ascii.eqb x c.

(** The string has one character per entry of the pattern, each
    accepted by its entry. *)
Fixpoint matches (pattern : list (ascii -> bool)) (s : string) : bool :=
  match pattern, s with
  | [], EmptyString => true
  | p :: pattern', String c s' => p c && matches pattern' s'
  | _, _ => false
  end.

(** [xxxxxxxx-xxxx-4xxx-yxxx-xxxxxxxxxxxx] in lowercase hexadecimal,
    [y] one of [8], [9], [a], [b]. *)
Definition uuid_v4_pattern : list (ascii -> bool) :=
  replicate 8 is_lower_hex_digit ++ [is_char "-"]
    ++ replicate 4 is_lower_hex_digit ++ [is_char "-"; is_char "4"]
    ++ replicate 3 is_lower_hex_digit ++ [is_char "-"; is_variant_digit]
    ++ replicate 3 is_lower_hex_digit ++ [is_char "-"]
    ++ replicate 12 is_lower_hex_digit.

Definition uuid_v4 (s : string) : bool := matches uuid_v4_pattern s.

(** *** Looking for a tool *)

Section Candidates.
Context `{Platform}.

(** The places [findAMDAIETool] looks at, in order. *)
Definition tool_candidates (toolName amdAIEInstallDir : string)
    (w : World) : list string :=
  let toolName := if win32 then toolName +:+ ".exe" else toolName in
  (if Nat.eqb (String.length amdAIEInstallDir) 0 then []
   else [ amdAIEInstallDir // toolName;
          amdAIEInstallDir // "bin" // toolName;
          amdAIEInstallDir // "tools" // toolName ])
    ++ [findTool (host w) toolName].

Definition tool_not_found (toolName : string) : Event :=
  EvErr ("Could not find "
           +:+ (if win32 then toolName +:+ ".exe" else toolName)
           +:+ ". Check your --iree-amd-aie-install-dir flag"
           +:+ Str.of_char Str.newline).

End Candidates.

(** *** Command lines *)

Section Commands.
Context `{Platform}.

(** The process [runTool] starts for a program, its arguments and an
    environment. *)
Definition started (program : string) (args : list string)
    (env : option (list string)) : Event :=
  EvExec (resolvedProgram program) (resolvedProgram program :: args)
    (envSmallVec env).

(** The arguments of the static compiler of the open backend. *)
Definition llc_args (tempDir targetArch outputFile : string)
    : list string :=
  [ tempDir // "input.opt.ll"; "-O2"; "--march=" +:+ lower targetArch;
    "--function-sections"; "--filetype=obj"; "-o"; outputFile ].

(** The arguments of the linker driver of the open backend for the
    core [c] of tile [t], without a microkernel. *)
Definition clang_args (objFile tempDir targetArch : string)
    (verbose : bool) (tc : IR.TileOp * IR.CoreOp) : list string :=
  let elfFileName := elf_name (fst tc) (snd tc) in
  [ objFile;
    "--target=" +:+ lower targetArch +:+ "-none-unknown-elf";
    "-Wl,--gc-sections";
    "-Wl,--orphan-handling=error";
    "-Wl,-T," +:+ tempDir // (elfFileName +:+ ".ld");
    "-o"; tempDir // elfFileName ]
    ++ (if verbose then ["-v"] else []).

(** The run of the linker driver for one core. *)
Definition clang_link (objFile tempDir targetArch peanoDir : string)
    (verbose : bool) (tc : IR.TileOp * IR.CoreOp) : Event :=
  started (peanoDir // "bin" // "clang")
    (clang_args objFile tempDir targetArch verbose tc) None.

(** The run of the linker driver for tile [i] of the device, if the
    tile has a core. *)
Definition link_at (objFile tempDir targetArch peanoDir : string)
    (verbose : bool) (d : IR.DeviceOp) (i : nat) : option Event :=
  t ← IR.tiles d !! i;
  c ← IR.core t;
  Some (clang_link objFile tempDir targetArch peanoDir verbose (t, c)).

(** The arguments of the packaging tool in dump mode and in
    packaging mode. *)
Definition xclbinutil_dump (tempDir inputXclbin : string) : list string :=
  [ "--dump-section";
    "AIE_PARTITION:JSON:" +:+ tempDir // "aie_input_partition.json";
    "--force"; "--input"; inputXclbin ].

Definition xclbinutil_package (Output tempDir : string)
    (inputXclbin : option string) : list string :=
  match inputXclbin with
  | Some input => ["--input"; input]
  | None =>
      [ "--add-replace-section";
        "MEM_TOPOLOGY:JSON:" +:+ tempDir // "mem_topology.json" ]
  end
    ++ [ "--add-kernel"; tempDir // "kernels.json";
         "--add-replace-section";
         "AIE_PARTITION:JSON:" +:+ tempDir // "aie_partition.json";
         "--force"; "--output"; Output ].

(** The arguments of the embedded boot-image generator. *)
Definition bootgen_args (Output tempDir : string) : list string :=
  [ EmptyString; "-arch"; "versal"; "-image"; tempDir // "design.bif";
    "-o"; Output; "-w" ].

End Commands.

(** The tiles that have a core, with the core, in the order of the
    tiles. *)
Definition cores (d : IR.DeviceOp) : list (IR.TileOp * IR.CoreOp) :=
  omap (fun t => c ← IR.core t; Some (t, c)) (IR.tiles d).

(** *** What is reported *)

Definition is_report (e : Event) : bool :=
  match e with EvErr _ | EvDiag _ => true | _ => false end.

(** The messages written to [llvm::errs()] and the diagnostics
    emitted so far. *)
Definition reports (w : World) : list Event :=
  filter (fun e => is_report e = true) (w_trace w).

(** *** The vendor compiler *)

Section Vendor.
Context `{Platform}.

(** The compiler of the vendor toolchain installed under
    [vitisDir]. *)
Definition xchesscc (vitisDir : string) : string :=
  vitisDir // "aietools" // "bin" // "unwrapped" // "lnx64.o"
    // "xchesscc".

(** [e] is the start of the vendor compiler of some installation. *)
Definition is_chess_run (e : Event) : Prop :=
  match e with
  | EvExec program _ _ =>
      exists vitisDir, program = resolvedProgram (xchesscc vitisDir)
  | _ => False
  end.

End Vendor.

(** However [m] ends, the processes it has started all satisfy [P]. *)
Definition starts_only {A} (P : Event -> Prop) (m : M A) : Prop :=
  forall w,
    exists l, execs (final_world (m w)) = execs w ++ l /\ Forall P l.

(** *** Flag strings *)

(** White space: the space and the five controls from the tabulator
    to the carriage return. *)
Definition blank (c : ascii) : bool :=
  bool_decide (nat_of_ascii c ∈ [32; 9; 10; 11; 12; 13]%nat).

Fixpoint blanks (s : string) : bool :=
  match s with
  | EmptyString => true
  | String c s' => blank c && blanks s'
  end.

Fixpoint no_blank (s : string) : bool :=
  match s with
  | EmptyString => true
  | String c s' => negb (blank c) && no_blank s'
  end.

(** A flag: at least one character, none of them white space. *)
Definition is_flag (s : string) : bool :=
  match s with
  | EmptyString => false
  | _ => no_blank s
  end.

(** [flags_of s l]: the text [s] is the flags [l], in this order, with
    white space between two of them and possibly in front of the first
    and after the last. *)
Inductive flags_of : string -> list string -> Prop :=
| flags_none (gap : string) :
    blanks gap = true -> flags_of gap []
| flags_last (gap flag : string) :
    blanks gap = true -> is_flag flag = true ->
    flags_of (gap +:+ flag) [flag]
| flags_more (gap flag : string) (c : ascii) (rest : string)
    (l : list string) :
    blanks gap = true -> is_flag flag = true -> blank c = true ->
    flags_of rest l ->
    flags_of (gap +:+ flag +:+ String c rest) (flag :: l).

(** *** Decimal numerals *)

(** The digits are the ten characters from code 48 on. *)
Definition decimal_digit (c : ascii) : option Z :=
  let code := Z.of_nat (nat_of_ascii c) in
  if (48 <=? code) && (code <=? 57) then Some (code - 48) else None.

(** The number denoted by the digits read so far, which denote [acc],
    followed by the digits [s]. *)
Fixpoint digits_value (acc : Z) (s : string) : option Z :=
  match s with
  | EmptyString => Some acc
  | String c s' =>
      match decimal_digit c with
      | Some d => digits_value (10 * acc + d) s'
      | None => None
      end
  end.

(** The number a numeral denotes: digits, at least one, after a minus
    sign for the opposite. *)
Definition numeral_value (s : string) : option Z :=
  match s with
  | EmptyString => None
  | String "-" EmptyString => None
  | String "-" s' => Z.opp <$> digits_value 0 s'
  | _ => digits_value 0 s
  end.

(** No zero in front of another digit, and no sign in front of a
    zero. *)
Definition no_leading_zero (s : string) : bool :=
  match s with
  | String "0" (String _ _) => false
  | String "-" (String "0" _) => false
  | _ => true
  end.

(** [s] is the integer [z] written in base ten, as [%d] prints it. *)
Definition decimal (z : Z) (s : string) : Prop :=
  numeral_value s = Some z /\ no_leading_zero s = true.

(** [name] is [core_<col>_<row>.elf]. *)
Definition core_elf_name (col row : Z) (name : string) : Prop :=
  exists c r,
    decimal col c /\ decimal row r
    /\ name = "core_" +:+ c +:+ "_" +:+ r +:+ ".elf".

(** *** The partition document during packaging *)

Section Packaging.
Context `{Platform}.

(** Between the moment [generateXCLBin] writes the partition document
    and the moment it reads it back, three things run that are not
    part of this file: the boot-image generator, the packaging tool
    [xclbinutil] in dump mode, and the creation of the log file of
    that run.  None of them touches
    [<tempDir>/aie_partition.json]. *)
Definition partition_left_alone (tempDir inputXclbin xclbinutil : string)
    : Prop :=
  let p := tempDir // "aie_partition.json" in
  let program := resolvedProgram xclbinutil in
  (forall h,
      snd (bootgen_main h (bootgen_args (tempDir // "design.pdi") tempDir))
        !! p = h_fs h !! p)
  /\ (forall h env redirect,
        ex_fs (ExecuteAndWait h program
                 (program :: xclbinutil_dump tempDir inputXclbin)
                 env redirect) !! p
        = h_fs h !! p)
  /\ (forall h log,
        createTemporaryFile h "tmpRunTool" "Logging" = inr log ->
        log <> p).

End Packaging.


End Spec.

Import Spec.

(** * Properties *)

(** ** Running the monad *)

Lemma bindM_run {A B} (m : M A) (k : A -> M B) (w : World) :
  bindM m k w
  = match m w with Ret a w' => k a w' | Abort f w' => Abort f w' end.
Proof. reflexivity. Qed.

Lemma seq_run {A B} (m : M A) (k : M B) (w : World) :
  (m ;; k) w = match m w with Ret _ w' => k w' | Abort f w' => Abort f w' end.
Proof. reflexivity. Qed.

Lemma bindM_ret_inv {A B} (m : M A) (k : A -> M B) (w w' : World) (b : B) :
  bindM m k w = Ret b w' ->
  exists a w1, m w = Ret a w1 /\ k a w1 = Ret b w'.
Proof.
  rewrite bindM_run. destruct (m w) as [a w1|f w1]; [eauto | discriminate].
Qed.

Lemma seq_ret_inv {A B} (m : M A) (k : M B) (w w' : World) (b : B) :
  (m ;; k) w = Ret b w' -> exists a w1, m w = Ret a w1 /\ k w1 = Ret b w'.
Proof.
  rewrite seq_run. destruct (m w) as [a w1|f w1]; [eauto | discriminate].
Qed.

(** Takes a run that returned apart, step by step. *)
Ltac minv H :=
  repeat first
    [ apply bindM_ret_inv in H as (? & ? & ? & H)
    | apply seq_ret_inv in H as (? & ? & ? & H)
    | lazymatch type of H with
      | (match ?x with _ => _ end) _ = _ =>
          destruct x eqn:?; try discriminate H
      end ].

(** Unfolds the monad and its primitives, in the goal and the
    hypotheses. *)
Ltac munfold :=
  unfold bindM, mbind, M_bind, Prim.ret, Prim.get, Prim.getenv, Prim.exists_,
    Prim.errs, Prim.outs, Prim.diag, Prim.log, Prim.set_fs, Prim.set_device,
    Prim.abort, Prim.deref, Prim.value, Prim.nonnull, Prim.string_of_cstr,
    Prim.current_path, Prim.when in *.

Ltac msimpl := repeat (progress (munfold; cbn in *; simplify_eq)).

(** Symbolic execution by cases on everything a run branches on. *)
Ltac mcrush := msimpl; repeat (case_match; msimpl); try done.

(** ** What a computation leaves alone *)

Section Preserves.
Context {X : Type} (f : World -> X).

Lemma preserves_ret {A} (a : A) : preserves f (Prim.ret a).
Proof. intros w. reflexivity. Qed.

Lemma preserves_abort {A} (flt : Fault) : preserves f (@Prim.abort A flt).
Proof. intros w. reflexivity. Qed.

Lemma preserves_bind {A B} (m : M A) (k : A -> M B) :
  preserves f m -> (forall a, preserves f (k a)) -> preserves f (bindM m k).
Proof.
  intros Hm Hk w. rewrite bindM_run. specialize (Hm w).
  destruct (m w) as [a w'|flt w']; simpl in *.
  - now rewrite Hk.
  - exact Hm.
Qed.

Lemma preserves_seq {A B} (m : M A) (k : M B) :
  preserves f m -> preserves f k -> preserves f (m ;; k).
Proof. intros Hm Hk. apply (preserves_bind m (fun _ => k)); auto. Qed.

Lemma preserves_get : preserves f Prim.get.
Proof. intros w. reflexivity. Qed.

Lemma preserves_getenv (n : string) : preserves f (Prim.getenv n).
Proof. intros w. reflexivity. Qed.

Lemma preserves_exists (p : string) : preserves f (Prim.exists_ p).
Proof. intros w. reflexivity. Qed.

Lemma preserves_current_path : preserves f Prim.current_path.
Proof. intros w. reflexivity. Qed.

Lemma preserves_deref {A} (x : option A) : preserves f (Prim.deref x).
Proof. intros w. now destruct x. Qed.

Lemma preserves_value {A} (x : option A) : preserves f (Prim.value x).
Proof. intros w. now destruct x. Qed.

Lemma preserves_nonnull {A} (x : option A) : preserves f (Prim.nonnull x).
Proof. intros w. now destruct x. Qed.

Lemma preserves_string_of_cstr (x : option string) :
  preserves f (Prim.string_of_cstr x).
Proof. intros w. now destruct x. Qed.

Lemma preserves_when (b : bool) (m : M unit) :
  preserves f m -> preserves f (Prim.when b m).
Proof. intros Hm. destruct b; [exact Hm | apply preserves_ret]. Qed.

Lemma preserves_log (e : Event) :
  (forall w, f (with_event e w) = f w) -> preserves f (Prim.log e).
Proof. intros He w. apply He. Qed.

Lemma preserves_set_fs (fs : gmap string Node) :
  (forall w, f (with_fs fs w) = f w) -> preserves f (Prim.set_fs fs).
Proof. intros He w. apply He. Qed.

Lemma preserves_set_device (d : IR.DeviceOp) :
  (forall w, f (with_device d w) = f w) -> preserves f (Prim.set_device d).
Proof. intros He w. apply He. Qed.

End Preserves.

Lemma execs_with_event (e : Event) (w : World) :
  is_exec e = false -> execs (with_event e w) = execs w.
Proof.
  intros He. unfold execs. simpl. rewrite filter_app.
  rewrite filter_cons_False by (rewrite He; discriminate).
  rewrite filter_nil. apply app_nil_r.
Qed.

Lemma execs_with_exec (p : string) (a : list string) (e : option (list string))
    (w : World) :
  execs (with_event (EvExec p a e) w) = execs w ++ [EvExec p a e].
Proof.
  unfold execs. simpl. rewrite filter_app.
  now rewrite filter_cons_True by reflexivity.
Qed.

Create HintDb frame discriminated.

#[global] Hint Resolve preserves_ret preserves_abort preserves_get
  preserves_getenv preserves_exists preserves_current_path preserves_deref
  preserves_value preserves_nonnull preserves_string_of_cstr : frame.

(** Side conditions of the frame rules: the observation does not look at
    what changed. *)
Ltac frame_side :=
  intros;
  first [ reflexivity
        | apply execs_with_event; reflexivity
        | solve [auto] ].

Ltac frame_step :=
  match goal with
  | |- preserves _ (bindM _ _) => apply preserves_bind; [| intros ?]
  | |- preserves _ (mbind _ _) => apply preserves_seq
  | |- preserves _ (Prim.when _ _) => apply preserves_when
  | |- preserves _ (Prim.errs _) => apply preserves_log; frame_side
  | |- preserves _ (Prim.outs _) => apply preserves_log; frame_side
  | |- preserves _ (Prim.diag _) => apply preserves_log; frame_side
  | |- preserves _ (Prim.log _) => apply preserves_log; frame_side
  | |- preserves _ (Prim.set_fs _) => apply preserves_set_fs; frame_side
  | |- preserves _ (Prim.set_device _) =>
      apply preserves_set_device; frame_side
  | |- preserves _ (match ?x with _ => _ end) => destruct x
  | |- preserves _ _ => solve [eauto with frame]
  end.

Ltac frame := repeat frame_step.

Section ToolFrames.
Context `{Platform}.
Context {X : Type} (f : World -> X).
(** The observation ignores files and the streams other than the
    process events. *)
Hypothesis f_fs : forall fs w, f (with_fs fs w) = f w.
Hypothesis f_event : forall e w, is_exec e = false -> f (with_event e w) = f w.

Lemma preserves_reporting {A} (r : string + A) : preserves f (reporting r).
Proof. unfold reporting. frame. Qed.

Lemma preserves_findVitis (vitisDir : option string) (npuVersion : string) :
  preserves f (findVitis vitisDir npuVersion).
Proof.
  pose proof (@preserves_reporting string).
  unfold findVitis. frame.
Qed.

Lemma preserves_openOutputFile (p : string) : preserves f (openOutputFile p).
Proof. unfold openOutputFile. frame. Qed.

Lemma preserves_os_write (p s : string) : preserves f (os_write p s).
Proof. unfold os_write. frame. Qed.

Lemma preserves_discard (p : string) : preserves f (discard p).
Proof. unfold discard. frame. Qed.

Lemma preserves_dumpStrToDisk (payload p : string) :
  preserves f (dumpStrToDisk payload p).
Proof.
  pose proof preserves_openOutputFile. pose proof preserves_os_write.
  unfold dumpStrToDisk. frame.
Qed.

Lemma preserves_makeChessArgs (v t n : string) (b : bool) :
  preserves f (makeChessArgs v t n b).
Proof. unfold makeChessArgs. frame. Qed.

Lemma preserves_makeChessEnv (v n : string) : preserves f (makeChessEnv v n).
Proof.
  pose proof (@preserves_reporting string).
  unfold makeChessEnv. frame.
Qed.

Lemma preserves_emitWords (out : string) (a : list Z) (fuel : nat) (i : Z) :
  preserves f (emitWords fuel out a i).
Proof.
  pose proof preserves_os_write.
  revert i. induction fuel as [|fuel IH]; intros i; simpl; frame.
Qed.

Lemma preserves_emitNpuInstructions (out : string) :
  preserves f (emitNpuInstructions out).
Proof.
  pose proof preserves_os_write. pose proof preserves_openOutputFile.
  pose proof preserves_emitWords.
  unfold emitNpuInstructions. frame.
Qed.

End ToolFrames.

(** ** Strings *)

Section StringFacts.

Lemma length_append (a b : string) :
  String.length (a +:+ b) = (String.length a + String.length b)%nat.
Proof. induction a as [|c a IH]; simpl; [reflexivity | now rewrite IH]. Qed.

Lemma get_append_end (s : string) (c : ascii) (t : string) :
  String.get (String.length s) (s +:+ String c t) = Some c.
Proof. induction s as [|d s IH]; simpl; [reflexivity | exact IH]. Qed.

Lemma substring_prefix (s t : string) :
  String.substring 0 (String.length s) (s +:+ t) = s.
Proof.
  induction s as [|c s IH]; simpl.
  - destruct t; reflexivity.
  - now rewrite IH.
Qed.

Lemma quoted_length (s : string) :
  String.length (Str.quoted s) = S (S (String.length s)).
Proof.
  unfold Str.quoted, Str.of_char. simpl. rewrite length_append. simpl. lia.
Qed.

Lemma quoted_front (s : string) : Str.front (Str.quoted s) = Some Str.dquote.
Proof. reflexivity. Qed.

Lemma quoted_back (s : string) : Str.back (Str.quoted s) = Some Str.dquote.
Proof.
  unfold Str.back. rewrite quoted_length. simpl.
  unfold Str.of_char. apply get_append_end.
Qed.

Lemma quoted_stripped (s : string) :
  String.substring 1 (String.length (Str.quoted s) - 2) (Str.quoted s) = s.
Proof.
  rewrite quoted_length.
  replace (S (S (String.length s)) - 2)%nat with (String.length s) by lia.
  unfold Str.quoted. simpl. apply substring_prefix.
Qed.

End StringFacts.

(** ** OptFlagComposer *)

Section OptFlagFacts.
Import OptFlags.

Lemma isContention_spec (a b : string) :
  isContention a b = isOptLevelFlag a && isOptLevelFlag b.
Proof. unfold isContention. now destruct (isOptLevelFlag a && isOptLevelFlag b). Qed.

Lemma find_if_none {A} (p : A -> bool) (l : list A) :
  Forall (fun x => p x = false) l -> find_if p l = length l.
Proof.
  induction 1 as [|x l Hx _ IH]; simpl; [reflexivity|].
  now rewrite Hx, IH.
Qed.

Lemma find_if_first {A} (p : A -> bool) (pre : list A) (x : A) (post : list A) :
  Forall (fun y => p y = false) pre -> p x = true ->
  find_if p (pre ++ x :: post) = length pre.
Proof.
  intros Hpre Hx. induction Hpre as [|y pre Hy _ IH]; simpl.
  - now rewrite Hx.
  - now rewrite Hy, IH.
Qed.

Lemma add_flag_other (args : list string) (flag : string) :
  isOptLevelFlag flag = false -> add_flag args flag = args ++ [flag].
Proof.
  intros Hf. unfold add_flag.
  rewrite find_if_none.
  - now rewrite Nat.eqb_refl.
  - apply Forall_forall. intros a _. rewrite isContention_spec, Hf.
    apply andb_false_r.
Qed.

Lemma add_flag_level (pre : list string) (o : string) (post : list string)
    (flag : string) :
  Forall (fun a => isOptLevelFlag a = false) pre ->
  isOptLevelFlag o = true -> isOptLevelFlag flag = true ->
  add_flag (pre ++ o :: post) flag = pre ++ flag :: post.
Proof.
  intros Hpre Ho Hf. unfold add_flag.
  rewrite (find_if_first _ pre o post).
  - rewrite length_app. simpl.
    destruct (Nat.eqb_spec (length pre) (length pre + S (length post))); [lia|].
    rewrite insert_app_r_alt by lia. now rewrite Nat.sub_diag.
  - eapply Forall_impl; [exact Hpre|]. intros a Ha. simpl in Ha.
    now rewrite isContention_spec, Ha.
  - now rewrite isContention_spec, Ho, Hf.
Qed.

Lemma foldl_add_flag (pre : list string) (flags : list string) :
  Forall (fun a => isOptLevelFlag a = false) pre ->
  forall (o : string) (post : list string),
  isOptLevelFlag o = true ->
  foldl add_flag (pre ++ o :: post) flags
  = pre ++ chosen_level o flags :: post ++ other_flags flags.
Proof.
  intros Hpre. induction flags as [|f flags IH]; intros o post Ho; simpl.
  - unfold chosen_level, other_flags. simpl. now rewrite app_nil_r.
  - destruct (isOptLevelFlag f) eqn:Hf.
    + rewrite add_flag_level by assumption. rewrite IH by assumption.
      unfold chosen_level, other_flags.
      rewrite (filter_cons_True (fun f => isOptLevelFlag f = true)) by exact Hf.
      rewrite (filter_cons_False (fun f => isOptLevelFlag f = false))
        by (rewrite Hf; discriminate).
      rewrite last_cons.
      now destruct (last (filter (fun f0 => isOptLevelFlag f0 = true) flags)).
    + rewrite add_flag_other by assumption.
      replace ((pre ++ o :: post) ++ [f]) with (pre ++ o :: (post ++ [f]))
        by (now rewrite <- app_assoc).
      rewrite IH by assumption.
      unfold chosen_level, other_flags.
      rewrite (filter_cons_False (fun f => isOptLevelFlag f = true))
        by (rewrite Hf; discriminate).
      rewrite (filter_cons_True (fun f => isOptLevelFlag f = false)) by exact Hf.
      now rewrite <- app_assoc.
Qed.

Lemma default_args_split (fin fout : string) :
  default_args fin fout = before_level ++ "-O3" :: after_level fin fout.
Proof. reflexivity. Qed.

Lemma before_level_plain :
  Forall (fun a => isOptLevelFlag a = false) before_level.
Proof. repeat constructor. Qed.

Lemma isOptLevelFlag_ne (f g : string) :
  isOptLevelFlag f = false -> isOptLevelFlag g = true -> f <> g.
Proof. intros Hf Hg ->. congruence. Qed.

End OptFlagFacts.

(** Without added flags the defaults come back as they are; a flag
    string outside a quote pair is refused. *)
Example makePeanoOptArgs_no_flags (fin fout : string) :
  OptFlags.makePeanoOptArgs fin fout EmptyString
  = inr (OptFlags.default_args fin fout).
Proof. reflexivity. Qed.

Example makePeanoOptArgs_unquoted :
  OptFlags.makePeanoOptArgs "input.ll" "input.opt.ll" "-O2"
  = inl OptFlags.malformed_msg.
Proof. reflexivity. Qed.

Example makePeanoOptArgs_several :
  OptFlags.makePeanoOptArgs "input.ll" "input.opt.ll"
    (Str.quoted " -O1  --foo=1 -O0 -x ")
  = inr (before_level
           ++ "-O0" :: after_level "input.ll" "input.opt.ll"
           ++ ["--foo=1"; "-x"]).
Proof. reflexivity. Qed.

Section FlagStrings.

Lemma append_empty_r (s : string) : s +:+ EmptyString = s.
Proof.
  induction s as [|c s IH]; [reflexivity|].
  change (String c s +:+ EmptyString) with (String c (s +:+ EmptyString)).
  now rewrite IH.
Qed.

Lemma append_append (a b c : string) : (a +:+ b) +:+ c = a +:+ (b +:+ c).
Proof.
  induction a as [|x a IH]; [reflexivity|].
  change (String x a +:+ b +:+ c) with (String x (a +:+ b +:+ c)).
  change ((String x a +:+ b) +:+ c) with (String x ((a +:+ b) +:+ c)).
  now rewrite IH.
Qed.

Lemma blank_isspace (c : ascii) : Str.isspace c = blank c.
Proof. destruct c as [[] [] [] [] [] [] [] []]; reflexivity. Qed.

(** Reading on inside a flag. *)
Lemma tokens_from_flag (flag : string) :
  no_blank flag = true ->
  forall (cur rest : string),
    Str.tokens_from (Some cur) (flag +:+ rest)
    = Str.tokens_from (Some (cur +:+ flag)) rest.
Proof.
  induction flag as [|c flag IH]; intros Hflag cur rest.
  - now rewrite append_empty_r.
  - cbn in Hflag. apply andb_true_iff in Hflag as [Hc Hflag].
    change (String c flag +:+ rest) with (String c (flag +:+ rest)).
    cbn [Str.tokens_from]. rewrite blank_isspace.
    apply negb_true_iff in Hc. rewrite Hc. cbn [default].
    rewrite (IH Hflag). f_equal. f_equal.
    now rewrite append_append.
Qed.

Lemma tokens_from_gap (gap : string) :
  blanks gap = true ->
  forall rest : string,
    Str.tokens_from None (gap +:+ rest) = Str.tokens_from None rest.
Proof.
  induction gap as [|c gap IH]; intros Hgap rest; [reflexivity|].
  cbn in Hgap. apply andb_true_iff in Hgap as [Hc Hgap].
  change (String c gap +:+ rest) with (String c (gap +:+ rest)).
  cbn [Str.tokens_from]. rewrite blank_isspace, Hc. now apply IH.
Qed.

Lemma tokens_from_first (flag rest : string) :
  is_flag flag = true ->
  Str.tokens_from None (flag +:+ rest) = Str.tokens_from (Some flag) rest.
Proof.
  destruct flag as [|c flag]; [discriminate|]. intros Hflag.
  cbn in Hflag. apply andb_true_iff in Hflag as [Hc Hflag].
  change (String c flag +:+ rest) with (String c (flag +:+ rest)).
  cbn [Str.tokens_from]. rewrite blank_isspace.
  apply negb_true_iff in Hc. rewrite Hc. cbn [default].
  now rewrite (tokens_from_flag flag Hflag).
Qed.

(** The split of the source finds the flags of a flag string. *)
Lemma tokens_flags (s : string) (l : list string) :
  flags_of s l -> Str.tokens s = l.
Proof.
  unfold Str.tokens.
  induction 1 as [gap Hgap|gap flag Hgap Hflag
                  |gap flag c rest l Hgap Hflag Hc _ IH].
  - rewrite <- (append_empty_r gap). now rewrite tokens_from_gap.
  - rewrite tokens_from_gap by assumption.
    rewrite <- (append_empty_r flag) at 1.
    now rewrite tokens_from_first.
  - rewrite tokens_from_gap, tokens_from_first by assumption.
    cbn [Str.tokens_from]. rewrite blank_isspace, Hc. now rewrite IH.
Qed.

End FlagStrings.

Section LevelFlags.
Import OptFlags.

Lemma isOptLevelFlag_spec (flag : string) :
  isOptLevelFlag flag = true
  <-> exists c, flag = String "-" (String "O" (String c EmptyString)).
Proof.
  split.
  - unfold isOptLevelFlag. intros Hflag.
    apply andb_true_iff in Hflag as [Hflag Ho].
    apply andb_true_iff in Hflag as [Hlen Hminus].
    apply bool_decide_eq_true in Ho, Hminus.
    destruct flag as [|a [|b [|c [|d flag]]]]; try discriminate Hlen.
    cbn in Ho, Hminus. injection Ho as ->. injection Hminus as ->.
    now exists c.
  - intros [c ->]. reflexivity.
Qed.

(** The composed list for a quoted flag string, in terms of the split
    of the source. *)
Lemma makePeanoOptArgs_tokens (fin fout flags : string) :
  makePeanoOptArgs fin fout (Str.quoted flags)
  = inr (before_level
           ++ chosen_level "-O3" (Str.tokens flags)
           :: after_level fin fout
           ++ other_flags (Str.tokens flags)).
Proof.
  unfold makePeanoOptArgs.
  rewrite quoted_length. simpl Nat.eqb. simpl Nat.ltb.
  rewrite quoted_front, quoted_back.
  rewrite !bool_decide_eq_true_2 by reflexivity. simpl orb. cbv iota.
  pose proof (quoted_stripped flags) as Hs. rewrite quoted_length in Hs.
  rewrite Hs. rewrite default_args_split.
  rewrite foldl_add_flag; [reflexivity | apply before_level_plain | reflexivity].
Qed.

End LevelFlags.

(** C4.  With the default arguments and the added flag string ["-O2"] in
    its quote pair, the composed list has the length of the defaults, has
    [-O2] where [-O3] was (position 6), contains [-O2] once and [-O3]
    nowhere, the two file names not being level flags themselves.  In
    general, when the quoted text is the flags [supplied] with white
    space between them, the composed list is the defaults with the level
    replaced in place by the last level flag among [supplied], if there
    is one, followed by those of [supplied] that are not level flags, in
    the order they were given; a level flag being [-O] followed by
    exactly one character. *)
Theorem makePeanoOptArgs_level_replaced_in_place (fin fout : string) :
  OptFlags.isOptLevelFlag fin = false ->
  OptFlags.isOptLevelFlag fout = false ->
  (exists args,
      OptFlags.makePeanoOptArgs fin fout (Str.quoted "-O2") = inr args
      /\ OptFlags.default_args fin fout !! 6%nat = Some "-O3"
      /\ args !! 6%nat = Some "-O2"
      /\ length args = length (OptFlags.default_args fin fout)
      /\ length (filter (fun a => a = "-O2") args) = 1%nat
      /\ "-O3" ∉ args)
  /\ (forall (flags : string) (supplied : list string),
        flags_of flags supplied ->
        OptFlags.makePeanoOptArgs fin fout (Str.quoted flags)
        = inr (before_level
                 ++ chosen_level "-O3" supplied
                 :: after_level fin fout
                 ++ other_flags supplied))
  /\ (forall flag : string,
        OptFlags.isOptLevelFlag flag = true
        <-> exists c, flag = String "-" (String "O" (String c EmptyString))).
Proof.
  intros Hin Hout. split; [|split].
  - eexists. split; [vm_compute; reflexivity|].
    assert (fin <> "-O2") by (apply isOptLevelFlag_ne; [assumption|reflexivity]).
    assert (fout <> "-O2") by (apply isOptLevelFlag_ne; [assumption|reflexivity]).
    assert (fin <> "-O3") by (apply isOptLevelFlag_ne; [assumption|reflexivity]).
    assert (fout <> "-O3") by (apply isOptLevelFlag_ne; [assumption|reflexivity]).
    repeat split; try reflexivity.
    + repeat (rewrite filter_cons; case_decide; try congruence; try discriminate).
      reflexivity.
    + rewrite !elem_of_cons, elem_of_nil. intros Hel.
      repeat (destruct Hel as [Hel|Hel]; [congruence || discriminate|]).
      exact Hel.
  - intros flags supplied Hflags.
    rewrite makePeanoOptArgs_tokens. now rewrite (tokens_flags _ _ Hflags).
  - apply isOptLevelFlag_spec.
Qed.

(** The theorem at the file names the pipeline uses, and its general
    part at the flag string [-O1  --foo=1 -O0 -x] with two level
    flags. *)
Lemma makePeanoOptArgs_level_replaced_in_place_witness :
  (exists args,
      OptFlags.makePeanoOptArgs "/tmp/input.ll" "/tmp/input.opt.ll"
        (Str.quoted "-O2") = inr args
      /\ args !! 6%nat = Some "-O2"
      /\ length args
         = length (OptFlags.default_args "/tmp/input.ll" "/tmp/input.opt.ll")
      /\ length (filter (fun a => a = "-O2") args) = 1%nat
      /\ "-O3" ∉ args)
  /\ OptFlags.makePeanoOptArgs "/tmp/input.ll" "/tmp/input.opt.ll"
       (Str.quoted " -O1  --foo=1 -O0 -x ")
     = inr (before_level
              ++ "-O0" :: after_level "/tmp/input.ll" "/tmp/input.opt.ll"
              ++ ["--foo=1"; "-x"]).
Proof.
  destruct (makePeanoOptArgs_level_replaced_in_place
              "/tmp/input.ll" "/tmp/input.opt.ll" eq_refl eq_refl)
    as ((args & Hargs & _ & Hlevel & Hlen & Hone & Hno) & Hgeneral & _).
  split.
  - exists args. repeat split; assumption.
  - apply (Hgeneral " -O1  --foo=1 -O0 -x " ["-O1"; "--foo=1"; "-O0"; "-x"]).
    apply (flags_more " " "-O1" " "); try reflexivity.
    apply (flags_more " " "--foo=1" " "); try reflexivity.
    apply (flags_more "" "-O0" " "); try reflexivity.
    apply (flags_more "" "-x" " "); try reflexivity.
    now apply flags_none.
Defined.

(** ** The kernel descriptor *)

(** C3, as stated, fails: the argument list has six pointers to host
    buffer objects, not five. *)
Lemma five_host_pointers_refuted :
  ~ abi_with_five_host_pointers (Kernel.makeKernelJSON "matmul" "0x101" "inst0").
Proof.
  intros (l & Hl & _ & _ & _ & _ & Hfive).
  vm_compute in Hl. injection Hl as <-.
  vm_compute in Hfive. discriminate.
Qed.

(** C3, amended.  For every kernel name, id and instance name the kernel
    document holds exactly one kernel entry, and the argument list of
    that entry is the fixed list of nine slots: the scalar [opcode] at
    0x00, the pointer [instr] into SRAM at 0x08, the scalar [ninstr] at
    0x10 and the six pointers [bo0] .. [bo5] to host buffer objects at
    0x14, 0x1c, 0x24, 0x2c, 0x34 and 0x3c, eight bytes apart. *)
Theorem kernel_descriptor_nine_slot_abi (name id instance : string) :
  Kernel.kernels (Kernel.kernelsData name id instance)
  = Some [Kernel.makeKernelJSON name id instance]
  /\ Kernel.slots (Kernel.makeKernelJSON name id instance) = Some fixed_abi
  /\ length fixed_abi = 9%nat
  /\ map Kernel.slot_name (Kernel.host_pointers fixed_abi)
     = ["bo0"; "bo1"; "bo2"; "bo3"; "bo4"; "bo5"]
  /\ map Kernel.slot_offset (Kernel.host_pointers fixed_abi)
     = [20; 28; 36; 44; 52; 60]
  /\ Hex.literal_value "0x14" = Some 20 /\ Hex.literal_value "0x1c" = Some 28
  /\ Hex.literal_value "0x24" = Some 36 /\ Hex.literal_value "0x2c" = Some 44
  /\ Hex.literal_value "0x34" = Some 52 /\ Hex.literal_value "0x3c" = Some 60.
Proof.
  repeat split; vm_compute; reflexivity.
Qed.

(** ** ToolchainLocator *)

Section Locator.
Context `{Platform}.

Lemma recognized_getTargetDir (npuVersion : string) :
  recognized npuVersion = true ->
  exists d, getTargetDir npuVersion = inr d.
Proof.
  unfold recognized, getTargetDir. intros Hr.
  destruct (String.eqb npuVersion "npu1"); [eauto|].
  destruct (String.eqb npuVersion "npu4"); [eauto|discriminate].
Qed.

Lemma unrecognized_getTargetDir (npuVersion : string) :
  recognized npuVersion = false ->
  getTargetDir npuVersion = inl ("unsupported NPUVersion: " +:+ npuVersion).
Proof.
  unfold recognized, getTargetDir. intros Hr.
  destruct (String.eqb npuVersion "npu1"); [discriminate|].
  destruct (String.eqb npuVersion "npu4"); [discriminate|reflexivity].
Qed.

Lemma recognized_spec (npuVersion : string) :
  recognized npuVersion = true <-> npuVersion = "npu1" \/ npuVersion = "npu4".
Proof.
  unfold recognized. rewrite orb_true_iff, !String.eqb_eq. reflexivity.
Qed.

End Locator.

(** C10.  [getTargetDir] succeeds exactly for [npu1] and [npu4].  For
    these neither [findVitis] nor [makeChessEnv] ever dereferences a
    failed result.  For every other identifier [makeChessEnv] does so on
    every call, and [findVitis] does so as soon as it gets as far as the
    target directory: the toolchain directory given, a license variable
    set and the license accepted, and the [aietools] directory
    present. *)
Theorem getTargetDir_dereference `{Platform} (npuVersion : string) :
  ((exists d, getTargetDir npuVersion = inr d)
   <-> npuVersion = "npu1" \/ npuVersion = "npu4")
  /\ (recognized npuVersion = true ->
      forall (vitisDir : option string) (dir : string) (w w' : World),
        findVitis vitisDir npuVersion w <> Abort FailureDeref w'
        /\ makeChessEnv dir npuVersion w <> Abort FailureDeref w')
  /\ (recognized npuVersion = false ->
      forall (dir : string) (w : World),
        (exists w', makeChessEnv dir npuVersion w = Abort FailureDeref w')
        /\ (is_Some (w_env w !! "XILINXD_LICENSE_FILE") ->
            is_Some (w_fs w !! (dir // "aietools")) ->
            exists w',
              findVitis (Some dir) npuVersion w = Abort FailureDeref w')).
Proof.
  split; [|split].
  - rewrite <- recognized_spec. split.
    + intros [d Hd]. destruct (recognized npuVersion) eqn:Hr; [reflexivity|].
      rewrite unrecognized_getTargetDir in Hd by assumption. discriminate.
    + apply recognized_getTargetDir.
  - intros Hr vitisDir dir w w'.
    destruct (recognized_getTargetDir _ Hr) as [d Hd].
    split.
    + unfold findVitis, reporting. rewrite Hd. mcrush.
    + unfold makeChessEnv, reporting. rewrite Hd. mcrush.
  - intros Hr dir w. split.
    + unfold makeChessEnv, reporting.
      rewrite (unrecognized_getTargetDir _ Hr). msimpl. eauto.
    + intros [lic Hlic] Hdir.
      unfold findVitis, reporting.
      rewrite (unrecognized_getTargetDir _ Hr). msimpl.
      rewrite Hlic. cbn.
      rewrite bool_decide_eq_true_2 by assumption. cbn. eauto.
Qed.

Section OnDemoPlatform.
#[local] Existing Instance Demo.platform.

(** The theorem at [npu1], which is recognized, and at [npu2], which is
    not. *)
Lemma getTargetDir_dereference_witness :
  (findVitis (Some "/vitis") "npu1" Demo.vendor_world
     <> Abort FailureDeref Demo.vendor_world
   /\ makeChessEnv "/vitis" "npu1" Demo.vendor_world
        <> Abort FailureDeref Demo.vendor_world)
  /\ (exists w', makeChessEnv "/vitis" "npu2" Demo.vendor_world
                 = Abort FailureDeref w')
  /\ (exists w', findVitis (Some "/vitis") "npu2" Demo.vendor_world
                 = Abort FailureDeref w').
Proof.
  split; [|split].
  - apply (proj1 (proj2 (getTargetDir_dereference "npu1"))). reflexivity.
  - apply (proj1 (proj2 (proj2 (getTargetDir_dereference "npu2"))
                    eq_refl "/vitis" Demo.vendor_world)).
  - apply (proj2 (proj2 (proj2 (getTargetDir_dereference "npu2"))
                    eq_refl "/vitis" Demo.vendor_world)).
    + eexists. reflexivity.
    + eexists. reflexivity.
Defined.

(** ** The license check *)

(** C2 at the failing input: with the toolchain under [/vitis] and
    [XILINXD_LICENSE_FILE] naming a file that does not exist,
    [findVitis] succeeds and reports nothing. *)
Theorem findVitis_accepts_missing_XILINXD_license_file :
  w_env Demo.vendor_world !! "XILINXD_LICENSE_FILE"
    = Some "/licenses/missing.lic"
  /\ w_fs Demo.vendor_world !! "/licenses/missing.lic" = None
  /\ findVitis (Some "/vitis") "npu1" Demo.vendor_world
     = Ret (Some "/vitis", Some "/vitis") Demo.vendor_world.
Proof. repeat split; vm_compute; reflexivity. Qed.

End OnDemoPlatform.

Section License.
Context `{Platform}.

(** The part of C2 the code does implement: with neither license
    variable set, resolution fails. *)
Lemma findVitis_no_license_variable (vitisDir : option string)
    (npuVersion : string) (w : World) :
  w_env w !! "XILINXD_LICENSE_FILE" = None ->
  w_env w !! "LM_LICENSE_FILE" = None ->
  exists v w', findVitis vitisDir npuVersion w = Ret (v, None) w'.
Proof.
  intros Hx Hl. unfold findVitis. msimpl.
  destruct vitisDir as [dir|]; msimpl.
  - rewrite Hx, Hl. cbn. eauto.
  - repeat case_match; msimpl; rewrite ?Hx, ?Hl; cbn; eauto.
Qed.

(** And the file [LM_LICENSE_FILE] names is checked when
    [XILINXD_LICENSE_FILE] is not set. *)
Lemma findVitis_LM_license_file_missing (dir npuVersion lic : string)
    (w : World) :
  w_env w !! "XILINXD_LICENSE_FILE" = None ->
  w_env w !! "LM_LICENSE_FILE" = Some lic ->
  w_fs w !! lic = None ->
  findVitis (Some dir) npuVersion w
  = Ret (Some dir, None)
      (with_event
         (EvErr ("ERROR: license file" +:+ lic +:+ " does not exist")) w).
Proof.
  intros Hx Hl Hf. unfold findVitis. msimpl.
  rewrite Hx, Hl. cbn. rewrite Hf.
  rewrite bool_decide_eq_false_2 by (intros [? ?]; discriminate).
  reflexivity.
Qed.

End License.

(** ** ProcessRunner *)

Section Runner.
Context `{Platform}.

(** Announcing a run only writes to [llvm::outs()]. *)
Lemma announceRun_run (program : string) (args : list string)
    (verbose : bool) (env : option (list string)) (w : World) :
  exists w0,
    announceRun program args verbose env w = Ret tt w0
    /\ w_fs w0 = w_fs w /\ w_env w0 = w_env w /\ w_cwd w0 = w_cwd w
    /\ w_device w0 = w_device w /\ execs w0 = execs w.
Proof.
  unfold announceRun. destruct verbose; [|cbn; eauto 10].
  destruct env; cbn; eexists; (split; [reflexivity|]);
    cbn; repeat split; unfold execs; cbn;
    rewrite !filter_app, !filter_cons_False, !filter_nil, ?app_nil_r
      by (cbn; discriminate); reflexivity.
Qed.

End Runner.

(** The part of C5 the code does implement.  When the resolved program
    path does not exist, [runTool] returns failure, starts no process
    and leaves the files as they were.  When it exists and the temporary
    log file could be created, the process is started exactly once;
    provided its log can be read back (nothing is read back on Windows),
    [runTool] returns success if the exit code is zero and failure
    otherwise, and on a nonzero code it writes the message with the
    spawn error to [llvm::errs()], followed, off Windows, by the captured
    output. *)
Theorem runTool_outcome `{Platform} (program_ : string) (args : list string)
    (verbose : bool) (env : option (list string)) (w : World) :
  let program := resolvedProgram program_ in
  let w0 := final_world (announceRun program args verbose env w) in
  (w_fs w !! program = None ->
   exists w',
     runTool program_ args verbose env w = Ret failure w'
     /\ execs w' = execs w /\ w_fs w' = w_fs w)
  /\ (is_Some (w_fs w !! program) ->
      forall temporaryPath captured,
        createTemporaryFile (host w0) "tmpRunTool" "Logging"
          = inr temporaryPath ->
        let w1 := with_fs (<[temporaryPath := File EmptyString]> (w_fs w0)) w0 in
        let stats :=
          ExecuteAndWait (host w1) program (program :: args) (envSmallVec env)
            (redirects temporaryPath) in
        (if win32 then captured = EmptyString
         else ex_fs stats !! temporaryPath = Some (File captured)) ->
        exists w',
          runTool program_ args verbose env w
            = Ret (if ex_result stats =? 0 then success else failure) w'
          /\ execs w'
             = execs w ++ [EvExec program (program :: args) (envSmallVec env)]
          /\ (ex_result stats <> 0 ->
              EvErr ("Failed to run tool: " +:+ program +:+ ". Error: '"
                       +:+ ex_ErrMsg stats +:+ "'" +:+ Str.of_char Str.newline)
                ∈ w_trace w'
              /\ (win32 = false -> last (w_trace w') = Some (EvErr captured)))).
Proof.
  intros program w0.
  destruct (announceRun_run program args verbose env w)
    as (w0' & Hann & Hfs & Henv & Hcwd & Hdev & Hex).
  assert (w0 = w0') as -> by (unfold w0; now rewrite Hann).
  split.
  - intros Hnone. unfold runTool. fold program.
    rewrite <- Hfs in Hnone.
    rewrite seq_run, Hann. msimpl. rewrite Hnone.
    rewrite bool_decide_eq_false_2 by (intros [? ?]; discriminate). cbn.
    eexists. split; [reflexivity|]. split; [|exact Hfs].
    rewrite execs_with_event by reflexivity. exact Hex.
  - intros Hsome temporaryPath captured Htmp w1 stats Hcap.
    unfold runTool. fold program.
    rewrite <- Hfs in Hsome.
    rewrite seq_run, Hann. msimpl.
    rewrite bool_decide_eq_true_2 by assumption. cbn.
    rewrite Htmp. cbn.
    change (ExecuteAndWait _ program (program :: args) (envSmallVec env)
              (redirects temporaryPath))
      with stats.
    destruct win32 eqn:Hwin.
    + subst captured. cbn.
      destruct (ex_result stats =? 0) eqn:Hres; cbn;
        destruct verbose; cbn.
      all: eexists; split; [reflexivity|]; split.
      all: try (intros Hne; apply Z.eqb_eq in Hres; contradiction).
      all: repeat rewrite execs_with_event by reflexivity.
      all: try (unfold execs; cbn; rewrite filter_app, filter_cons_True by reflexivity;
                cbn; fold (execs w0'); now rewrite Hex).
      all: intros _; split; [cbn; set_solver | discriminate].
    + cbn. rewrite Hcap. cbn.
      destruct (ex_result stats =? 0) eqn:Hres; cbn;
        destruct verbose; cbn.
      all: eexists; split; [reflexivity|]; split.
      all: try (intros Hne; apply Z.eqb_eq in Hres; contradiction).
      all: repeat rewrite execs_with_event by reflexivity.
      all: try (unfold execs; cbn; rewrite filter_app, filter_cons_True by reflexivity;
                cbn; fold (execs w0'); now rewrite Hex).
      all: intros _; split; [cbn; set_solver | intros _; cbn; apply last_snoc].
Qed.

Section RunnerOnDemoPlatform.
#[local] Existing Instance Demo.platform.

(** At a program that does not exist and at one that does. *)
Lemma runTool_outcome_witness :
  (exists w',
      runTool "/no/such/tool" ["--version"] false None Demo.world
        = Ret failure w'
      /\ execs w' = execs Demo.world /\ w_fs w' = w_fs Demo.world)
  /\ (exists w',
         runTool "/peano/bin/opt" ["--version"] false None Demo.world
           = Ret success w'
         /\ execs w'
            = [EvExec "/peano/bin/opt" ["/peano/bin/opt"; "--version"]
                 (Some [])]).
Proof.
  split.
  - apply (proj1 (runTool_outcome "/no/such/tool" ["--version"] false None
                    Demo.world)).
    reflexivity.
  - edestruct (proj2 (runTool_outcome "/peano/bin/opt" ["--version"] false None
                        Demo.world))
      as (w' & Hrun & Hexecs & _).
    + eexists. vm_compute. reflexivity.
    + vm_compute. reflexivity.
    + vm_compute. reflexivity.
    + exists w'. split; [exact Hrun | exact Hexecs].
Defined.

End RunnerOnDemoPlatform.

(** C5 at the failing input.  The program is there, the log file is
    created and the process is started; it exits with code zero and
    removes the file its output is redirected to.  [runTool] then
    builds a [std::string] from a null pointer instead of returning
    success. *)
Theorem runTool_exit_code_zero_without_success :
  let program := "/peano/bin/opt" in
  let args := ["--version"] in
  @win32 Cases.lost_log_platform = false
  /\ is_Some (w_fs Demo.world !! program)
  /\ (forall h env redirect,
         ex_result (@ExecuteAndWait Cases.lost_log_platform h program
                      (program :: args) env redirect) = 0)
  /\ exists w',
       @runTool Cases.lost_log_platform program args false None Demo.world
       = Abort NullString w'
       /\ execs w' = [EvExec program (program :: args) (Some [])].
Proof.
  intros program args.
  split; [reflexivity|]. split; [now eexists|]. split; [reflexivity|].
  eexists. split; vm_compute; reflexivity.
Qed.

(** ** Hexadecimal text *)

Section HexFacts.
Import Hex.

Lemma append_nil_r (s : string) : s +:+ EmptyString = s.
Proof.
  induction s as [|c s IH]; [reflexivity|].
  change (String c (s +:+ EmptyString) = String c s). now rewrite IH.
Qed.

Lemma append_assoc (a b c : string) : (a +:+ b) +:+ c = a +:+ (b +:+ c).
Proof.
  induction a as [|x a IH]; [reflexivity|].
  change (String x ((a +:+ b) +:+ c) = String x (a +:+ (b +:+ c))).
  now rewrite IH.
Qed.

Lemma digit_upper_value (d : Z) :
  0 <= d < 16 ->
  digit_value (digit_upper d) = Some d
  /\ is_upper_digit (digit_upper d) = true.
Proof.
  intros Hd.
  assert (d = 0 \/ d = 1 \/ d = 2 \/ d = 3 \/ d = 4 \/ d = 5 \/ d = 6
          \/ d = 7 \/ d = 8 \/ d = 9 \/ d = 10 \/ d = 11 \/ d = 12
          \/ d = 13 \/ d = 14 \/ d = 15) as Hcases by lia.
  repeat (destruct Hcases as [->|Hcases]; [split; reflexivity|]).
  subst d. split; reflexivity.
Qed.

Lemma value_from_app (a b : string) (v : Z) :
  value_from v (a +:+ b) = value_from v a ≫= fun v' => value_from v' b.
Proof.
  revert v. induction a as [|c a IH]; intros v; simpl; [reflexivity|].
  destruct (digit_value c); [apply IH | reflexivity].
Qed.

Lemma all_chars_app (p : ascii -> bool) (a b : string) :
  all_chars p (a +:+ b) = all_chars p a && all_chars p b.
Proof.
  induction a as [|c a IH]; simpl; [reflexivity|].
  now rewrite IH, andb_assoc.
Qed.

(** The digits of [n]: at least one, at most [k] when [n < 16 ^ k],
    uppercase, and they denote [n]. *)
Lemma digits_aux_spec (fuel : nat) :
  forall (n : Z) (acc : string) (k : nat),
    (0 < fuel)%nat -> 0 <= n < 2 ^ Z.of_nat fuel ->
    (0 < k)%nat -> n < 16 ^ Z.of_nat k ->
    exists ds,
      digits_aux digit_upper fuel n acc = ds +:+ acc
      /\ (0 < String.length ds <= k)%nat
      /\ all_chars is_upper_digit ds = true
      /\ forall v, value_from v ds
                   = Some (v * 16 ^ Z.of_nat (String.length ds) + n).
Proof.
  induction fuel as [|fuel IH]; intros n acc k Hfuel Hn Hk Hnk; [lia|].
  simpl.
  assert (0 <= n mod 16 < 16) as Hd by (apply Z.mod_pos_bound; lia).
  destruct (digit_upper_value _ Hd) as [Hval Hup].
  destruct (n / 16 =? 0) eqn:Hq.
  - apply Z.eqb_eq in Hq.
    exists (String (digit_upper (n mod 16)) EmptyString).
    split; [reflexivity|]. split; [simpl; lia|]. split.
    + simpl. now rewrite Hup.
    + intros v. simpl. rewrite Hval. f_equal.
      rewrite (Z.div_mod n 16) at 2 by lia. rewrite Hq. lia.
  - apply Z.eqb_neq in Hq.
    assert (16 <= n) as H16.
    { destruct (Z_lt_le_dec n 16) as [Hlt|]; [|assumption].
      rewrite Z.div_small in Hq by lia. contradiction. }
    assert (1 < k)%nat as Hk2.
    { destruct k as [|[|k]]; [lia| |lia]. simpl in Hnk. lia. }
    assert (0 < fuel)%nat as Hf0.
    { destruct fuel; [|lia]. change (2 ^ Z.of_nat 1) with 2 in Hn. lia. }
    destruct (IH (n / 16) (String (digit_upper (n mod 16)) acc) (k - 1)%nat)
      as (ds & Hds & Hlen & Hall & Hv).
    + lia.
    + split; [apply Z.div_pos; lia|].
      apply Z.div_lt_upper_bound; [lia|].
      replace (Z.of_nat (S fuel)) with (Z.of_nat fuel + 1) in Hn by lia.
      rewrite Z.pow_add_r in Hn by lia. lia.
    + lia.
    + apply Z.div_lt_upper_bound; [lia|].
      replace (Z.of_nat k) with (1 + Z.of_nat (k - 1)) in Hnk by lia.
      rewrite Z.pow_add_r in Hnk by lia. lia.
    + exists (ds +:+ String (digit_upper (n mod 16)) EmptyString).
      split; [rewrite Hds, append_assoc; reflexivity|].
      rewrite length_append. simpl. split; [lia|]. split.
      * rewrite all_chars_app, Hall. simpl. now rewrite Hup.
      * intros v. rewrite value_from_app, Hv. simpl. rewrite Hval.
        f_equal.
        replace (Z.of_nat (String.length ds + 1))
          with (Z.of_nat (String.length ds) + 1) by lia.
        rewrite Z.pow_add_r by lia.
        rewrite (Z.div_mod n 16) at 3 by lia. lia.
Qed.

Lemma zeros_length (k : nat) : String.length (zeros k) = k.
Proof. induction k; simpl; congruence. Qed.

Lemma zeros_upper (k : nat) : all_chars is_upper_digit (zeros k) = true.
Proof. induction k; simpl; [reflexivity | assumption]. Qed.

Lemma zeros_value (k : nat) (s : string) :
  value_from 0 (zeros k +:+ s) = value_from 0 s.
Proof. induction k; simpl; [reflexivity | assumption]. Qed.

(** [%08X] on a 32-bit word: eight uppercase digits that denote it. *)
Lemma format_08X_word (word : Z) :
  uint32 word ->
  String.length (format_08X word) = 8%nat
  /\ all_chars is_upper_digit (format_08X word) = true
  /\ value (format_08X word) = Some word.
Proof.
  intros [Hlo Hhi]. unfold format_08X, pad0, digits.
  destruct (digits_aux_spec (S (Z.to_nat (Z.log2 word))) word EmptyString 8)
    as (ds & Hds & Hlen & Hall & Hv).
  - lia.
  - split; [assumption|].
    destruct (Z.eq_dec word 0) as [->|Hne]; [reflexivity|].
    rewrite Nat2Z.inj_succ, Z2Nat.id by apply Z.log2_nonneg.
    apply Z.log2_spec. lia.
  - lia.
  - exact Hhi.
  - rewrite Hds, append_nil_r.
    split; [rewrite length_append, zeros_length; lia|].
    split; [rewrite all_chars_app, zeros_upper, Hall; reflexivity|].
    assert (value (zeros (8 - String.length ds) +:+ ds)
            = value_from 0 (zeros (8 - String.length ds) +:+ ds)) as ->.
    { unfold value.
      destruct (zeros (8 - String.length ds) +:+ ds) eqn:Hz; [|reflexivity].
      apply (f_equal String.length) in Hz.
      rewrite length_append in Hz. simpl in Hz. lia. }
    rewrite zeros_value, Hv. f_equal; lia.
Qed.

End HexFacts.

(** ** The instruction dump *)

Section Dump.
Context `{Platform}.

Lemma to_size_t_small (z : Z) : 0 <= z < 2 ^ 64 -> to_size_t z = z.
Proof. intros Hz. unfold to_size_t. now apply Z.mod_small. Qed.

Lemma to_size_t_le (z : Z) : 0 <= z -> to_size_t z <= z.
Proof. intros Hz. unfold to_size_t. apply Z.mod_le; lia. Qed.

Lemma ArrayRef_get_lookup (a : list Z) (i : nat) (word : Z) :
  a !! i = Some word -> ArrayRef.get a (Z.of_nat i) = Some word.
Proof.
  intros Hi. unfold ArrayRef.get, ArrayRef.size.
  pose proof (lookup_lt_Some _ _ _ Hi).
  destruct (0 <=? Z.of_nat i) eqn:Hge; [|lia].
  destruct (Z.of_nat i <? Z.of_nat (length a)) eqn:Hlti; [|lia].
  simpl. now rewrite Nat2Z.id.
Qed.

Lemma os_write_run (p s c : string) (w : World) :
  w_fs w !! p = Some (File c) ->
  os_write p s w = Ret tt (with_fs (<[p := File (c +:+ s)]> (w_fs w)) w).
Proof. intros Hp. unfold os_write. msimpl. now rewrite Hp. Qed.

(** The loop from word [i] on, with [k] words left before the last
    one: it appends their lines to the file. *)
Lemma emitWords_run (out : string) (a : list Z) (k : nat) :
  forall (i fuel : nat) (c : string) (w : World),
    ArrayRef.size a <= 2 ^ 31 ->
    (i + k + 1 = length a)%nat -> (k < fuel)%nat ->
    w_fs w !! out = Some (File c) ->
    exists w',
      emitWords fuel out a (Z.of_nat i) w = Ret tt w'
      /\ w_fs w' !! out
         = Some (File (c +:+ Str.concat (map line (take k (drop i a)))))
      /\ w_trace w' = w_trace w.
Proof.
  unfold ArrayRef.size.
  induction k as [|k IH]; intros i fuel c w Hsize Hik Hfuel Hc.
  - destruct fuel as [|fuel]; [lia|]. simpl.
    rewrite !to_size_t_small by (unfold ArrayRef.size; lia).
    unfold ArrayRef.size.
    destruct (Z.of_nat i <? Z.of_nat (length a) - 1) eqn:Hlt; [lia|].
    exists w. rewrite append_nil_r. auto.
  - destruct fuel as [|fuel]; [lia|]. simpl.
    rewrite !to_size_t_small by (unfold ArrayRef.size; lia).
    unfold ArrayRef.size.
    destruct (Z.of_nat i <? Z.of_nat (length a) - 1) eqn:Hlt; [|lia].
    destruct (lookup_lt_is_Some_2 a i) as [word Hword]; [lia|].
    rewrite (ArrayRef_get_lookup _ _ _ Hword).
    rewrite seq_run, (os_write_run _ _ _ _ Hc).
    destruct (Z.of_nat i =? INT_MAX) eqn:Hmax; [unfold INT_MAX in *; lia|].
    replace (Z.of_nat i + 1) with (Z.of_nat (S i)) by lia.
    destruct (IH (S i) fuel (c +:+ line word)
                (with_fs (<[out := File (c +:+ line word)]> (w_fs w)) w))
      as (w' & Hrun & Hfile & Htrace).
    + assumption.
    + lia.
    + lia.
    + simpl. apply lookup_insert_eq.
    + exists w'. split; [exact Hrun|]. split; [|exact Htrace].
      rewrite Hfile. rewrite (drop_S _ _ _ Hword). simpl.
      now rewrite append_assoc.
Qed.

Lemma lines_last (f : Z -> string) (a : list Z) (word : Z) :
  last a = Some word ->
  lines (map f a)
  = Str.concat
      (map (fun x => f x +:+ Str.of_char Str.newline)
           (take (length a - 1) a))
      +:+ f word.
Proof.
  revert word. induction a as [|x a IH]; intros word Hlast; [discriminate|].
  destruct a as [|y a].
  - simpl in *. now injection Hlast as ->.
  - rewrite last_cons_cons in Hlast. specialize (IH _ Hlast).
    change (lines (map f (x :: y :: a)))
      with (f x +:+ Str.of_char Str.newline +:+ lines (map f (y :: a))).
    rewrite IH.
    replace (length (x :: y :: a) - 1)%nat
      with (S (length (y :: a) - 1)) by (simpl; lia).
    rewrite firstn_cons.
    change (map ?g (x :: ?l)) with (g x :: map g l).
    cbn [Str.concat]. now rewrite !append_assoc.
Qed.

(** No access of the loop is out of range when the array is not
    empty. *)
Lemma emitWords_in_bounds (out : string) (a : list Z) (fuel : nat) :
  forall (i : Z) (w w' : World),
    a <> [] -> 0 <= i <= INT_MAX ->
    emitWords fuel out a i w <> Abort OutOfBounds w'.
Proof.
  induction fuel as [|fuel IH]; intros i w w' Ha Hi; simpl; [discriminate|].
  unfold INT_MAX in Hi.
  rewrite (to_size_t_small i) by lia.
  destruct (i <? to_size_t (ArrayRef.size a - 1)) eqn:Hlt; [|discriminate].
  apply Z.ltb_lt in Hlt.
  assert (i < ArrayRef.size a) as Hin.
  { destruct (Z_le_gt_dec 0 (ArrayRef.size a - 1)) as [Hpos|Hneg].
    - pose proof (to_size_t_le _ Hpos). lia.
    - unfold ArrayRef.size in *. destruct a; [contradiction|].
      simpl length in Hneg. lia. }
  unfold ArrayRef.get.
  destruct (0 <=? i) eqn:Hge; [|lia].
  destruct (i <? ArrayRef.size a) eqn:Hlti; [|lia]. simpl.
  destruct (lookup_lt_is_Some_2 a (Z.to_nat i)) as [word Hword];
    [unfold ArrayRef.size in Hin; lia|].
  rewrite Hword, seq_run.
  destruct (os_write out (line word) w) as [[] w1|f w1] eqn:Hw.
  - fold (line word). rewrite Hw.
    destruct (i =? INT_MAX) eqn:Hmax; [discriminate|].
    apply IH; [assumption | unfold INT_MAX in *; lia].
  - fold (line word). rewrite Hw. unfold os_write in Hw. mcrush.
Qed.

(** The iteration bound of the model is never what stops the loop. *)
Lemma emitWords_fuel (out : string) (a : list Z) (fuel : nat) :
  forall (i : Z) (w w' : World),
    0 <= i <= INT_MAX -> a <> [] ->
    ArrayRef.size a <= Z.of_nat fuel + i -> (0 < fuel)%nat ->
    emitWords fuel out a i w <> Abort FuelExhausted w'.
Proof.
  induction fuel as [|fuel IH]; intros i w w' Hi Ha Hsize Hfuel; [lia|].
  simpl. unfold INT_MAX in Hi.
  rewrite (to_size_t_small i) by lia.
  destruct (i <? to_size_t (ArrayRef.size a - 1)) eqn:Hlt; [|discriminate].
  apply Z.ltb_lt in Hlt.
  assert (0 <= ArrayRef.size a - 1) as Hpos.
  { unfold ArrayRef.size. destruct a; [contradiction|]. simpl length. lia. }
  pose proof (to_size_t_le _ Hpos).
  destruct (ArrayRef.get a i); [|discriminate].
  rewrite seq_run.
  destruct (os_write out (Hex.format_08X z +:+ Str.of_char Str.newline) w)
    as [[] w1|f w1] eqn:Hw.
  - destruct (i =? INT_MAX) eqn:Hmax; [discriminate|].
    apply IH; try assumption; unfold INT_MAX in *; lia.
  - unfold os_write in Hw. mcrush.
Qed.

Lemma openOutputFile_run (out : string) (w : World) :
  openOutputFile_error (host w) out = None ->
  openOutputFile out w
  = Ret None (with_fs (<[out := File EmptyString]> (w_fs w)) w).
Proof. intros Hopen. unfold openOutputFile. msimpl. now rewrite Hopen. Qed.

Lemma last_nonempty (a : list Z) : a <> [] -> exists word, last a = Some word.
Proof.
  intros Ha. destruct (last a) eqn:Hl; [eauto|].
  apply last_None in Hl. contradiction.
Qed.

End Dump.

(** C6.  For a non-empty sequence of 32-bit words (of at most 2^31
    words, so that the [int] index does not overflow) and an output file
    that opens, the dump succeeds and the file holds the words one per
    line, with a newline between consecutive words and none after the
    last; each word is written as exactly eight uppercase hexadecimal
    digits that denote it, zeros in front.  The words 1, 2, 3 give the
    three lines [00000001], [00000002], [00000003]. *)
Theorem emitNpuInstructions_text `{Platform} (outputNPU : string)
    (a : list Z) (w : World) :
  a <> [] ->
  ArrayRef.size a <= 2 ^ 31 ->
  Forall uint32 a ->
  IR.npu_instructions (w_device w)
    = Some (IR.DenseUI32ResourceElementsAttr (Some a)) ->
  openOutputFile_error (host w) outputNPU = None ->
  (exists w',
      emitNpuInstructions outputNPU w = Ret success w'
      /\ w_fs w' !! outputNPU = Some (File (lines (map Hex.format_08X a))))
  /\ Forall (fun word =>
               String.length (Hex.format_08X word) = 8%nat
               /\ Hex.all_chars Hex.is_upper_digit (Hex.format_08X word) = true
               /\ Hex.value (Hex.format_08X word) = Some word) a
  /\ lines (map Hex.format_08X [1; 2; 3])
     = "00000001
00000002
00000003".
Proof.
  intros Ha Hsize Hwords Hattr Hopen. split; [|split].
  - unfold emitNpuInstructions. rewrite bindM_run. cbn [Prim.get].
    rewrite Hattr. rewrite bindM_run, (openOutputFile_run _ _ Hopen).
    destruct (last_nonempty a Ha) as [word Hlast].
    destruct (emitWords_run outputNPU a (length a - 1) 0 (S (length a))
                EmptyString
                (with_fs (<[outputNPU := File EmptyString]> (w_fs w)) w))
      as (w1 & Hrun & Hfile & _).
    + assumption.
    + destruct a; [contradiction | simpl; lia].
    + lia.
    + simpl. apply lookup_insert_eq.
    + rewrite seq_run. change 0 with (Z.of_nat 0). rewrite Hrun.
      unfold ArrayRef.back. rewrite Hlast.
      rewrite seq_run, (os_write_run _ _ _ _ Hfile).
      eexists. split; [reflexivity|].
      simpl. rewrite lookup_insert_eq. do 2 f_equal.
      rewrite (lines_last Hex.format_08X a word Hlast). reflexivity.
  - eapply Forall_impl; [exact Hwords|]. intros word. apply format_08X_word.
  - reflexivity.
Qed.

(** C9.  With the attribute holding the array [a] and the output file
    open, a run of [emitNpuInstructions] stops on an out-of-range access
    exactly when [a] is empty; the last element, which [back()] reads,
    is missing exactly when [a] is empty; and the iteration bound of the
    model is never what stops a run. *)
Theorem emitNpuInstructions_bounds `{Platform} (outputNPU : string)
    (a : list Z) (w : World) :
  IR.npu_instructions (w_device w)
    = Some (IR.DenseUI32ResourceElementsAttr (Some a)) ->
  openOutputFile_error (host w) outputNPU = None ->
  ((exists w', emitNpuInstructions outputNPU w = Abort OutOfBounds w')
   <-> a = [])
  /\ (ArrayRef.back a = None <-> a = [])
  /\ (forall w', emitNpuInstructions outputNPU w <> Abort FuelExhausted w').
Proof.
  intros Hattr Hopen.
  assert (emitNpuInstructions outputNPU w
          = match emitWords (S (length a)) outputNPU a 0
                    (with_fs (<[outputNPU := File EmptyString]> (w_fs w)) w)
            with
            | Ret _ w1 =>
                match ArrayRef.back a with
                | None => Abort OutOfBounds w1
                | Some word =>
                    (os_write outputNPU (Hex.format_08X word) ;;
                     Prim.ret success) w1
                end
            | Abort f w1 => Abort f w1
            end) as Hrun.
  { unfold emitNpuInstructions. rewrite bindM_run. cbn [Prim.get].
    rewrite Hattr. rewrite bindM_run, (openOutputFile_run _ _ Hopen).
    rewrite seq_run. destruct (emitWords _ _ _ _ _); [|reflexivity].
    destruct (ArrayRef.back a); reflexivity. }
  rewrite Hrun. clear Hrun.
  set (w0 := with_fs (<[outputNPU := File EmptyString]> (w_fs w)) w).
  split; [|split].
  - split.
    + intros [w' Hoob]. destruct a as [|x a]; [reflexivity|]. exfalso.
      destruct (emitWords _ _ _ _ w0) as [[] w1|f w1] eqn:Hloop.
      * destruct (last_nonempty (x :: a)) as [word Hword]; [discriminate|].
        unfold ArrayRef.back in Hoob. rewrite Hword in Hoob.
        unfold os_write in Hoob. mcrush.
      * injection Hoob as -> ->.
        eapply (emitWords_in_bounds outputNPU (x :: a)); [| |exact Hloop].
        -- discriminate.
        -- unfold INT_MAX. lia.
    + intros ->. eexists. reflexivity.
  - unfold ArrayRef.back. apply last_None.
  - intros w'. destruct a as [|x a]; [discriminate|].
    destruct (emitWords _ _ _ _ w0) as [[] w1|f w1] eqn:Hloop.
    + destruct (last_nonempty (x :: a)) as [word Hword]; [discriminate|].
      unfold ArrayRef.back. rewrite Hword. unfold os_write. mcrush.
    + intros Heq. injection Heq as -> ->.
      eapply (emitWords_fuel outputNPU (x :: a)); [| | | |exact Hloop].
      * unfold INT_MAX. lia.
      * discriminate.
      * unfold ArrayRef.size. lia.
      * lia.
Qed.

Section DumpOnDemoPlatform.
#[local] Existing Instance Demo.platform.

(** The theorem at the three words of the demo device. *)
Lemma emitNpuInstructions_text_witness :
  exists w',
    emitNpuInstructions "/out/npu_instructions.txt" Demo.world = Ret success w'
    /\ w_fs w' !! "/out/npu_instructions.txt"
       = Some (File (lines (map Hex.format_08X [1; 2; 3]))).
Proof.
  apply (proj1 (emitNpuInstructions_text "/out/npu_instructions.txt"
                  [1; 2; 3] Demo.world
                  ltac:(discriminate) ltac:(vm_compute; discriminate)
                  ltac:(repeat constructor; vm_compute; discriminate)
                  eq_refl eq_refl)).
Defined.

(** The theorem at the demo device and at the same device with no
    words. *)
Lemma emitNpuInstructions_bounds_witness :
  ((exists w', emitNpuInstructions "/out/npu_instructions.txt" Demo.world
               = Abort OutOfBounds w')
   <-> [1; 2; 3] = @nil Z)
  /\ (ArrayRef.back [1; 2; 3] = None <-> [1; 2; 3] = @nil Z).
Proof.
  destruct (emitNpuInstructions_bounds "/out/npu_instructions.txt" [1; 2; 3]
              Demo.world) as (Hoob & Hback & _);
    [reflexivity | reflexivity |].
  split; [exact Hoob | exact Hback].
Defined.

End DumpOnDemoPlatform.
From Stdlib Require DecimalZ DecimalPos DecimalFacts.

(** ** CoreElfBuilder *)

Section DeviceFrames.
Context `{Platform}.

Lemma device_findVitis (v : option string) (n : string) :
  preserves w_device (findVitis v n).
Proof. apply preserves_findVitis; reflexivity. Qed.

Lemma device_openOutputFile (p : string) :
  preserves w_device (openOutputFile p).
Proof. apply preserves_openOutputFile; reflexivity. Qed.

Lemma device_os_write (p s : string) : preserves w_device (os_write p s).
Proof. apply preserves_os_write; reflexivity. Qed.

Lemma device_discard (p : string) : preserves w_device (discard p).
Proof. apply preserves_discard; reflexivity. Qed.

Lemma device_dumpStrToDisk (s p : string) :
  preserves w_device (dumpStrToDisk s p).
Proof. apply preserves_dumpStrToDisk; reflexivity. Qed.

Lemma device_makeChessArgs (v t n : string) (b : bool) :
  preserves w_device (makeChessArgs v t n b).
Proof. apply preserves_makeChessArgs; reflexivity. Qed.

Lemma device_makeChessEnv (v n : string) :
  preserves w_device (makeChessEnv v n).
Proof. apply preserves_makeChessEnv; reflexivity. Qed.

#[local] Hint Resolve device_findVitis device_openOutputFile device_os_write
  device_discard device_dumpStrToDisk device_makeChessArgs
  device_makeChessEnv : frame.

Lemma device_announceRun (p : string) (a : list string) (v : bool)
    (e : option (list string)) :
  preserves w_device (announceRun p a v e).
Proof. unfold announceRun. frame. Qed.

#[local] Hint Resolve device_announceRun : frame.

Lemma device_runTool (p : string) (a : list string) (v : bool)
    (e : option (list string)) :
  preserves w_device (runTool p a v e).
Proof. unfold runTool. frame. Qed.

#[local] Hint Resolve device_runTool : frame.

Lemma device_assembleFileUsingChess (i o : string) (x : list string)
    (t v n : string) (b : bool) :
  preserves w_device (assembleFileUsingChess i o x t v n b).
Proof. unfold assembleFileUsingChess. frame. Qed.

#[local] Hint Resolve device_assembleFileUsingChess : frame.

Lemma device_assembleStringUsingChess (s i o d : string) (x : list string)
    (wd t n : string) (b : bool) :
  preserves w_device (assembleStringUsingChess s i o d x wd t n b).
Proof. unfold assembleStringUsingChess, assembleStringUsing. frame. Qed.

#[local] Hint Resolve device_assembleStringUsingChess : frame.

Lemma device_ukernelObject (t c n : string) (files : string * string * string)
    (b : bool) (u v : option string) :
  preserves w_device (ukernelObject t c n files b u v).
Proof. unfold ukernelObject. destruct files as [[? ?] ?]. frame. Qed.

Lemma device_linkCoreWithChess (o t c n : string) (b : bool)
    (u : option string) (col row : Z) (e : string) (v m : option string) :
  preserves w_device (linkCoreWithChess o t c n b u col row e v m).
Proof. unfold linkCoreWithChess. frame. Qed.

Lemma device_linkCoreWithPeano (o t a p : string) (b : bool)
    (u : option string) (col row : Z) (e : string) (v m : option string) :
  preserves w_device (linkCoreWithPeano o t a p b u col row e v m).
Proof. unfold linkCoreWithPeano. frame. Qed.

#[local] Hint Resolve device_ukernelObject device_linkCoreWithChess
  device_linkCoreWithPeano : frame.

Lemma coreElfFileName_run (i : nat) (col row : Z) (c : IR.CoreOp)
    (w : World) :
  coreElfFileName i col row c w
  = Ret (default (synthesizedElfFileName col row) (IR.elf_file c))
      match IR.elf_file c with
      | Some _ => w
      | None =>
          with_device
            (IR.setElfFile i (synthesizedElfFileName col row) (w_device w)) w
      end.
Proof. unfold coreElfFileName. now destruct (IR.elf_file c). Qed.

(** Whatever else happens to a core, the device is changed by the
    naming alone. *)
Lemma coreElfFile_device (objFile tempDir : string) (useChess : bool)
    (targetArch : string) (verbose : bool) (peanoDir npuVersion : string)
    (ukernel : option string) (files : string * string * string)
    (i : nat) (vitisDir : option string) (w : World) :
  w_device
    (final_world
       (coreElfFile objFile tempDir useChess targetArch verbose peanoDir
          npuVersion ukernel files i vitisDir w))
  = name_tile i (w_device w).
Proof.
  unfold coreElfFile, name_tile. rewrite bindM_run. cbn [Prim.get].
  destruct (IR.tiles (w_device w) !! i) as [t|]; [|reflexivity].
  destruct (IR.core t) as [c|]; [|reflexivity].
  rewrite bindM_run, coreElfFileName_run.
  match goal with
  | |- w_device (final_world (?k ?w1)) = _ =>
      assert (preserves w_device k) as Hk
  end.
  { frame. }
  rewrite Hk. now destruct (IR.elf_file c).
Qed.

Lemma tiles_named_refl (d : IR.DeviceOp) : tiles_named [] d d.
Proof.
  intros i t Hi. exists t. split; [assumption|]. split.
  - split; [reflexivity|]. split; [reflexivity|].
    destruct (IR.core t); auto.
  - intros Hin. apply elem_of_nil in Hin. contradiction.
Qed.

Lemma core_with_name (t : IR.TileOp) (c : IR.CoreOp) (f : string) :
  IR.elf_file c = Some f -> named_core t c = c.
Proof.
  intros Hf. destruct c as [e]. simpl in Hf. subst e.
  reflexivity.
Qed.

Lemma name_tile_step (done : list nat) (d0 d : IR.DeviceOp) (i : nat) :
  tiles_named done d0 d -> tiles_named (i :: done) d0 (name_tile i d).
Proof.
  intros Hinv j t Hj.
  destruct (Hinv j t Hj) as (t' & Hj' & Hkept & Hnamed).
  assert (forall c f, IR.core t' = Some c -> IR.elf_file c = Some f ->
                      tile_named t t') as Hpreset.
  { intros c f Hc Hf c0 Hc0. destruct Hkept as (_ & _ & Hcore).
    rewrite Hc0 in Hcore. destruct Hcore as [Hsame|Hdone]; [|exact Hdone].
    rewrite Hc in Hsame. injection Hsame as ->.
    rewrite Hc. f_equal. symmetry. eapply core_with_name; eassumption. }
  assert (IR.core t' = None -> tile_named t t') as Hnocore.
  { intros Hc c0 Hc0. destruct Hkept as (_ & _ & Hcore).
    rewrite Hc0 in Hcore. destruct Hcore; congruence. }
  unfold name_tile.
  destruct (IR.tiles d !! i) as [ti|] eqn:Hi.
  2:{ exists t'. split; [assumption|]. split; [assumption|].
      intros Hin. apply elem_of_cons in Hin as [->|Hin]; [congruence|auto]. }
  destruct (IR.core ti) as [ci|] eqn:Hci.
  2:{ exists t'. split; [assumption|]. split; [assumption|].
      intros Hin. apply elem_of_cons in Hin as [->|Hin]; [|auto].
      apply Hnocore. congruence. }
  destruct (IR.elf_file ci) as [f|] eqn:Hf.
  { exists t'. split; [assumption|]. split; [assumption|].
    intros Hin. apply elem_of_cons in Hin as [->|Hin]; [|auto].
    apply (Hpreset ci f); congruence. }
  unfold IR.setElfFile. cbn [IR.tiles].
  destruct (decide (j = i)) as [->|Hne].
  - rewrite Hi in Hj'. injection Hj' as <-.
    rewrite list_lookup_alter_eq, Hi. cbn.
    eexists. split; [reflexivity|].
    destruct Hkept as (Hcol & Hrow & Hcore).
    assert (IR.core t = Some ci) as Ht.
    { destruct (IR.core t) as [c|].
      - destruct Hcore as [Hs|Hs]; rewrite Hci in Hs; injection Hs as ->;
          [reflexivity|discriminate].
      - congruence. }
    assert (Some {| IR.elf_file :=
                      Some (synthesizedElfFileName (IR.col ti) (IR.row ti)) |}
            = Some (named_core t ci)) as Hname.
    { unfold named_core, elf_name. rewrite Hf, Hcol, Hrow. reflexivity. }
    split.
    + split; [exact Hcol|]. split; [exact Hrow|]. cbn.
      rewrite Ht. right. exact Hname.
    + intros _ c Hc. cbn. rewrite Ht in Hc. injection Hc as <-. exact Hname.
  - rewrite list_lookup_alter_ne by congruence.
    exists t'. split; [assumption|]. split; [assumption|].
    intros Hin. apply elem_of_cons in Hin as [->|Hin]; [congruence|auto].
Qed.

Lemma forTiles_device (d0 : IR.DeviceOp)
    (body : nat -> option string -> M (Flow (option string))) :
  (forall i v w, w_device (final_world (body i v w)) = name_tile i (w_device w)) ->
  forall (idxs done : list nat) (v : option string) (w : World),
    tiles_named done d0 (w_device w) ->
    exists done',
      tiles_named done' d0 (w_device (final_world (forTiles body idxs v w)))
      /\ (returned (forTiles body idxs v w) = Some success ->
          forall j, j ∈ done \/ j ∈ idxs -> j ∈ done').
Proof.
  intros Hbody. induction idxs as [|i idxs IH]; intros done v w Hinv.
  - exists done. split; [exact Hinv|]. intros _ j [Hj|Hj]; [exact Hj|].
    apply elem_of_nil in Hj. contradiction.
  - cbn [forTiles]. rewrite bindM_run.
    pose proof (Hbody i v w) as Hdev.
    pose proof (name_tile_step done d0 (w_device w) i Hinv) as Hstep.
    rewrite <- Hdev in Hstep.
    destruct (body i v w) as [[v'|] w1|f w1]; cbn in Hstep.
    + destruct (IH (i :: done) v' w1 Hstep) as (done' & Hinv' & Hall).
      exists done'. split; [exact Hinv'|].
      intros Hs j Hj. apply (Hall Hs).
      rewrite !elem_of_cons in *. tauto.
    + exists (i :: done). split; [exact Hstep|]. discriminate.
    + exists (i :: done). split; [exact Hstep|]. discriminate.
Qed.

End DeviceFrames.

(** Evaluates the value of a digit that is written out. *)
Ltac digit :=
  match goal with
  | |- context [decimal_digit ?c] =>
      let v := eval vm_compute in (decimal_digit c) in
      change (decimal_digit c) with v
  end.

Section DecimalNumerals.

(** The digits of a numeral of the library, read after digits that
    denote [acc]. *)
Lemma digits_value_acc (d : Decimal.uint) (acc : positive) :
  digits_value (Z.pos acc) (NilEmpty.string_of_uint d)
  = Some (Z.pos (Pos.of_uint_acc d acc)).
Proof.
  revert acc. induction d; intros acc; cbn [NilEmpty.string_of_uint];
    [reflexivity|..];
    cbn [digits_value Pos.of_uint_acc]; digit; cbv iota;
    match goal with
    | |- digits_value ?z _ = Some (Z.pos (Pos.of_uint_acc _ ?p)) =>
        replace z with (Z.pos p) by lia
    end; apply IHd.
Qed.

Lemma digits_value_uint (d : Decimal.uint) :
  digits_value 0 (NilEmpty.string_of_uint d) = Some (Z.of_N (Pos.of_uint d)).
Proof.
  induction d; cbn [NilEmpty.string_of_uint]; [reflexivity|..];
    cbn [digits_value Pos.of_uint]; digit; cbv iota; [exact IHd|..];
    match goal with
    | |- digits_value ?z _ = Some (Z.of_N (N.pos (Pos.of_uint_acc _ ?p))) =>
        change z with (Z.pos p)
    end; apply digits_value_acc.
Qed.

(** The numeral of a positive number starts with a digit that is not
    zero. *)
Lemma to_uint_head (p : positive) (d : Decimal.uint) :
  Pos.to_uint p <> Decimal.D0 d.
Proof.
  intros Hp.
  pose proof (DecimalPos.Unsigned.to_of (Pos.to_uint p)) as Hnorm.
  rewrite DecimalPos.Unsigned.of_to in Hnorm. cbn [N.to_uint] in Hnorm.
  pose proof (DecimalPos.Unsigned.to_uint_nonzero p) as Hnz.
  rewrite Hnorm in Hnz. rewrite DecimalFacts.unorm_0 in Hnz.
  rewrite (DecimalFacts.unorm_nzhead _ Hnz) in Hnorm.
  rewrite Hp in Hnorm. symmetry in Hnorm.
  exact (DecimalFacts.nzhead_nonzero _ _ Hnorm).
Qed.

Lemma string_of_pos (p : positive) :
  exists c s,
    NilZero.string_of_uint (Pos.to_uint p) = String c s
    /\ NilEmpty.string_of_uint (Pos.to_uint p) = String c s
    /\ c <> "0"%char /\ c <> "-"%char.
Proof.
  pose proof (to_uint_head p) as Hhead.
  pose proof (DecimalPos.Unsigned.to_uint_nonnil p) as Hnil.
  destruct (Pos.to_uint p) as [|d|d|d|d|d|d|d|d|d|d];
    [contradiction | now destruct (Hhead d) | ..];
    cbn; eexists _, _; (split; [reflexivity|]); (split; [reflexivity|]);
    split; discriminate.
Qed.

(** [std::to_string] writes the number in base ten. *)
Lemma to_string_decimal (z : Z) : decimal z (Str.to_string z).
Proof.
  unfold decimal, Str.to_string, NilZero.string_of_int.
  destruct z as [|p|p]; cbn [Z.to_int]; [split; reflexivity|..].
  - destruct (string_of_pos p) as (c & s & -> & Hdigits & Hzero & Hminus).
    pose proof (digits_value_uint (Pos.to_uint p)) as Hval.
    rewrite Hdigits, DecimalPos.Unsigned.of_to in Hval. cbn [Z.of_N] in Hval.
    split.
    + unfold numeral_value.
      destruct c as [[] [] [] [] [] [] [] []]; try exact Hval;
        now destruct Hminus.
    + unfold no_leading_zero.
      destruct c as [[] [] [] [] [] [] [] []]; try reflexivity;
        now destruct Hzero.
  - destruct (string_of_pos p) as (c & s & -> & Hdigits & Hzero & Hminus).
    pose proof (digits_value_uint (Pos.to_uint p)) as Hval.
    rewrite Hdigits, DecimalPos.Unsigned.of_to in Hval. cbn [Z.of_N] in Hval.
    split.
    + unfold numeral_value. rewrite Hval. reflexivity.
    + unfold no_leading_zero.
      destruct c as [[] [] [] [] [] [] [] []]; try reflexivity;
        now destruct Hzero.
Qed.

Lemma synthesizedElfFileName_decimal (col row : Z) :
  core_elf_name col row (synthesizedElfFileName col row).
Proof.
  exists (Str.to_string col), (Str.to_string row).
  split; [apply to_string_decimal|]. split; [apply to_string_decimal|].
  reflexivity.
Qed.

End DecimalNumerals.

(** C7.  The name of a core's ELF file is its attribute if it has one
    and the name [core_<col>_<row>.elf] otherwise, and only in the second
    case is the device written to, the name being stored on the core.
    However [generateCoreElfFiles] ends,
    every tile keeps its coordinates, a core stays a core, and a core is
    either as it was or carries its name, so that an attribute that was
    there is still there; when it returns success every core carries its
    name.  The name made from the coordinates is, for every column and
    row, the text [core_], the column written in base ten, [_], the row
    written in base ten, and [.elf]; at column 2 and row 5 it is
    [core_2_5.elf].  A core with the attribute [custom.elf] is named
    [custom.elf]. *)
Theorem generateCoreElfFiles_names `{Platform} (objFile tempDir : string)
    (useChess : bool) (vitisDir : option string) (targetArch : string)
    (verbose : bool) (peanoDir npuVersion : string) (ukernel : option string)
    (w : World) :
  let o := generateCoreElfFiles objFile tempDir useChess vitisDir targetArch
             verbose peanoDir npuVersion ukernel w in
  (forall i col row c w0,
      exists w1,
        coreElfFileName i col row c w0
          = Ret (default (synthesizedElfFileName col row) (IR.elf_file c)) w1
        /\ (is_Some (IR.elf_file c) -> w1 = w0)
        /\ (IR.elf_file c = None ->
            w1 = with_device
                   (IR.setElfFile i (synthesizedElfFileName col row)
                      (w_device w0)) w0))
  /\ (forall i t,
        IR.tiles (w_device w) !! i = Some t ->
        exists t',
          IR.tiles (w_device (final_world o)) !! i = Some t'
          /\ tile_kept t t'
          /\ (forall c f, IR.core t = Some c -> IR.elf_file c = Some f ->
                          IR.core t' = Some c)
          /\ (returned o = Some success -> tile_named t t'))
  /\ (forall col row, core_elf_name col row (synthesizedElfFileName col row))
  /\ synthesizedElfFileName 2 5 = "core_2_5.elf"
  /\ (forall t, elf_name t {| IR.elf_file := Some "custom.elf" |} = "custom.elf").
Proof.
  intros o. split; [|split; [|split; [|split]]].
  - intros i col row c w0. rewrite coreElfFileName_run. eexists.
    split; [reflexivity|]. split.
    + intros [f Hf]. now rewrite Hf.
    + intros Hnone. now rewrite Hnone.
  - assert (exists done',
               tiles_named done' (w_device w) (w_device (final_world o))
               /\ (returned o = Some success ->
                   forall j, (j < length (IR.tiles (w_device w)))%nat ->
                             j ∈ done')) as (done' & Hinv & Hall).
    { subst o. unfold generateCoreElfFiles. rewrite bindM_run. cbn [Prim.get].
      destruct (ukernelFiles npuVersion) as [files|].
      - destruct (forTiles_device (w_device w)
                    (coreElfFile objFile tempDir useChess targetArch verbose
                       peanoDir npuVersion ukernel files)
                    (coreElfFile_device _ _ _ _ _ _ _ _ _)
                    (seq 0 (length (IR.tiles (w_device w)))) [] vitisDir w
                    (tiles_named_refl _)) as (done' & Hinv & Hall).
        exists done'. split; [exact Hinv|].
        intros Hs j Hj. apply (Hall Hs). right.
        apply elem_of_seq. lia.
      - exists []. split; [apply tiles_named_refl | discriminate]. }
    intros i t Hi. destruct (Hinv i t Hi) as (t' & Hi' & Hkept & Hnamed).
    exists t'. split; [exact Hi'|]. split; [exact Hkept|]. split.
    + intros c f Hc Hf. destruct Hkept as (_ & _ & Hcore).
      rewrite Hc in Hcore. destruct Hcore as [Hs|Hs]; [exact Hs|].
      now rewrite (core_with_name t c f Hf) in Hs.
    + intros Hs. apply Hnamed, (Hall Hs). eapply lookup_lt_Some, Hi.
  - apply synthesizedElfFileName_decimal.
  - reflexivity.
  - reflexivity.
Qed.

Section ElfOnDemoPlatform.
#[local] Existing Instance Demo.platform.

(** The theorem at the demo device: after a successful run the core at
    (2, 5) is named [core_2_5.elf] and the core at (0, 2) is still named
    [custom.elf]. *)
Lemma generateCoreElfFiles_names_witness :
  let o := generateCoreElfFiles "/tmp/build/input.o" "/tmp/build" false None
             "AIE2" false "/peano" "npu1" None Demo.world in
  returned o = Some success
  /\ (exists t', IR.tiles (w_device (final_world o)) !! 0%nat = Some t'
                 /\ IR.core t' = Some {| IR.elf_file := Some "core_2_5.elf" |})
  /\ (exists t', IR.tiles (w_device (final_world o)) !! 1%nat = Some t'
                 /\ IR.core t' = Some {| IR.elf_file := Some "custom.elf" |}).
Proof.
  intros o.
  assert (returned o = Some success) as Hs by (vm_compute; reflexivity).
  split; [exact Hs|]. split.
  - destruct (proj1 (proj2 (generateCoreElfFiles_names "/tmp/build/input.o"
                              "/tmp/build" false None "AIE2" false "/peano"
                              "npu1" None Demo.world))
                0%nat _ eq_refl) as (t' & Ht' & _ & _ & Hnamed).
    exists t'. split; [exact Ht'|]. exact (Hnamed Hs _ eq_refl).
  - destruct (proj1 (proj2 (generateCoreElfFiles_names "/tmp/build/input.o"
                              "/tmp/build" false None "AIE2" false "/peano"
                              "npu1" None Demo.world))
                1%nat _ eq_refl) as (t' & Ht' & _ & Hpreset & _).
    exists t'. split; [exact Ht'|]. exact (Hpreset _ _ eq_refl eq_refl).
Defined.

End ElfOnDemoPlatform.

(** ** XclbinPackager: merging into a base container *)

Section Merge.
Context `{Platform}.

Lemma join_relative_ne (a b1 b2 : string) :
  Path.is_absolute b1 = false -> Path.is_absolute b2 = false ->
  String.length b1 <> String.length b2 ->
  a // b1 <> a // b2.
Proof.
  intros H1 H2 Hlen Heq. unfold Path.join in Heq. rewrite H1, H2 in Heq.
  apply (f_equal String.length) in Heq.
  destruct (Nat.eqb (String.length a) 0); [contradiction|].
  destruct (bool_decide (Str.back a = Some "/"%char));
    rewrite !length_append in Heq; simpl in Heq; lia.
Qed.

Lemma partition_paths_differ (tempDir : string) :
  tempDir // "aie_partition.json" <> tempDir // "aie_input_partition.json".
Proof. apply join_relative_ne; [reflexivity | reflexivity | discriminate]. Qed.

Lemma withPDIs_PDIs (root partition : gmap string json) (l : list json) :
  Xclbin.PDIs (Xclbin.withPDIs root partition l) = Some l.
Proof.
  unfold Xclbin.PDIs, Xclbin.withPDIs, Json.getObject, Json.getArray. cbn.
  rewrite lookup_insert_eq. cbn. now rewrite lookup_insert_eq.
Qed.

Lemma mergePartition_run (tempDir : string) (w w' : World) :
  Xclbin.mergePartition tempDir w = Ret success w' ->
  exists inputText newText root partition base added,
    w_fs w !! (tempDir // "aie_input_partition.json") = Some (File inputText)
    /\ json_parse inputText = Some (JObj root)
    /\ Json.getObject root "aie_partition" = Some partition
    /\ Json.getArray partition "PDIs" = Some base
    /\ w_fs w !! (tempDir // "aie_partition.json") = Some (File newText)
    /\ (exists doc, json_parse newText = Some doc
                    /\ Xclbin.PDIs doc = Some added)
    /\ w_fs w' !! (tempDir // "aie_partition.json")
       = Some (File (json_format
                       (Xclbin.withPDIs root partition (base ++ added))))
    /\ w_fs w' !! (tempDir // "aie_input_partition.json")
       = Some (File inputText).
Proof.
  intros Hrun.
  unfold Xclbin.mergePartition, openInputFile, Xclbin.partitionPDIs,
    dumpStrToDisk, openOutputFile, os_write in Hrun.
  msimpl. repeat (case_match; msimpl).
  all: repeat match goal with
         | Hobj : Json.getAsObject ?j = Some _ |- _ =>
             destruct j; simplify_eq/=
         | Hin : <[?p := _]> _ !! ?p = Some _ |- _ =>
             rewrite lookup_insert_eq in Hin; simplify_eq/=
         end.
  all: do 6 eexists.
  all: split; [reflexivity|].
  all: split; [eassumption|].
  all: split; [eassumption|].
  all: split; [eassumption|].
  all: split; [eassumption|].
  all: split;
    [eexists; split; [eassumption|];
     unfold Xclbin.PDIs; cbn;
     match goal with
     | Hp : Json.getObject ?g "aie_partition" = Some _
       |- Json.getObject ?g "aie_partition" ≫= _ = _ => rewrite Hp
     end; cbn; eassumption|].
  all: pose proof (partition_paths_differ tempDir).
  all: split;
    [rewrite lookup_insert_eq; reflexivity
    |rewrite !lookup_insert_ne by assumption; eassumption].
Qed.

(** A successful run starts the resolved program once, as its last
    act on the processes. *)
Lemma runTool_success_exec (program_ : string) (args : list string)
    (verbose : bool) (env : option (list string)) (w w' : World) :
  runTool program_ args verbose env w = Ret success w' ->
  execs w'
  = execs w ++ [EvExec (resolvedProgram program_)
                  (resolvedProgram program_ :: args) (envSmallVec env)].
Proof.
  intros Hrun. unfold runTool in Hrun. rewrite seq_run in Hrun.
  destruct (announceRun_run (resolvedProgram program_) args verbose env w)
    as (w0 & Hann & _ & _ & _ & _ & Hex).
  rewrite Hann in Hrun. rewrite <- Hex. clear Hann Hex.
  msimpl. repeat (case_match; msimpl).
  all: unfold execs; rewrite ?filter_app; cbn; rewrite ?app_nil_r;
    reflexivity.
Qed.

End Merge.

(** ** The partition document between its writing and its reading *)

Section PartitionFile.
Context `{Platform}.

Lemma dumpStrToDisk_written (payload p : string) (w w1 : World) :
  dumpStrToDisk payload p w = Ret None w1 ->
  w_fs w1 = <[p := File payload]> (w_fs w).
Proof.
  unfold dumpStrToDisk, openOutputFile, os_write. intros Hrun. msimpl.
  destruct (openOutputFile_error (host w) p); msimpl.
  rewrite lookup_insert_eq in Hrun. msimpl.
  now rewrite insert_insert_eq.
Qed.

Lemma fs_dis_digits (n : nat) : preserves w_fs (Uuid.dis_digits n).
Proof.
  induction n as [|n IH]; [apply preserves_ret|].
  cbn [Uuid.dis_digits]. apply preserves_bind; [intros w; reflexivity|].
  intros d. apply preserves_bind; [exact IH|]. intros rest.
  apply preserves_ret.
Qed.

Lemma fs_getUUIDString (uuidStr : string) (w w1 : World) :
  Uuid.getUUIDString w = Ret uuidStr w1 -> w_fs w1 = w_fs w.
Proof.
  assert (preserves w_fs Uuid.getUUIDString) as Hkeeps.
  { pose proof fs_dis_digits. unfold Uuid.getUUIDString.
    repeat (apply preserves_bind;
              [first [solve [auto] | intros w0; reflexivity]|];
            intros ?).
    apply preserves_ret. }
  intros Hrun. specialize (Hkeeps w). now rewrite Hrun in Hkeeps.
Qed.

Lemma fs_generatePDI (Output tempDir p : string) (r : LogicalResult)
    (w w1 : World) :
  (forall h, snd (bootgen_main h (bootgen_args Output tempDir)) !! p
             = h_fs h !! p) ->
  tempDir // "design.bif" <> p ->
  generatePDI Output tempDir w = Ret r w1 ->
  w_fs w1 !! p = w_fs w !! p.
Proof.
  intros Hboot Hbif Hrun.
  unfold generatePDI, openOutputFile, os_write in Hrun. msimpl.
  destruct (openOutputFile_error (host w) (tempDir // "design.bif"));
    msimpl; [reflexivity|].
  rewrite lookup_insert_eq in Hrun. msimpl.
  rewrite insert_insert_eq in Hrun.
  match type of Hrun with
  | context [bootgen_main ?h ?flags] =>
      pose proof (Hboot h) as Hkept;
      change (bootgen_args Output tempDir) with flags in Hkept;
      destruct (bootgen_main h flags) as [status fs]
  end.
  cbn in Hkept. rewrite lookup_insert_ne in Hkept by exact Hbif.
  destruct (status =? 0); msimpl; exact Hkept.
Qed.

Lemma findAMDAIETool_found (toolName dir tool : string) (w w1 : World) :
  findAMDAIETool toolName dir w = Ret (Some tool) w1 -> w1 = w.
Proof. unfold findAMDAIETool. intros Hrun. mcrush. Qed.

Lemma fs_runTool (program_ : string) (args : list string)
    (verbose : bool) (env : option (list string)) (p : string)
    (r : LogicalResult) (w w1 : World) :
  (forall h env' redirect,
      ex_fs (ExecuteAndWait h (resolvedProgram program_)
               (resolvedProgram program_ :: args) env' redirect) !! p
      = h_fs h !! p) ->
  (forall h log,
      createTemporaryFile h "tmpRunTool" "Logging" = inr log -> log <> p) ->
  runTool program_ args verbose env w = Ret r w1 ->
  w_fs w1 !! p = w_fs w !! p.
Proof.
  intros Hexec Hlog Hrun. unfold runTool in Hrun. rewrite seq_run in Hrun.
  destruct (announceRun_run (resolvedProgram program_) args verbose env w)
    as (w0 & Hann & Hfs & Henv & Hcwd & _ & _).
  rewrite Hann in Hrun. rewrite <- Hfs. clear Hann.
  msimpl.
  destruct (bool_decide (is_Some (w_fs w0 !! resolvedProgram program_)));
    msimpl; [|reflexivity].
  destruct (createTemporaryFile (host w0) "tmpRunTool" "Logging")
    as [msg|log] eqn:Htmp; msimpl; [reflexivity|].
  pose proof (Hlog _ _ Htmp) as Hne.
  match type of Hrun with
  | context [ExecuteAndWait ?h ?prog ?pargs ?e ?red] =>
      pose proof (Hexec h e red) as Hkept;
      destruct (ExecuteAndWait h prog pargs e red) as [res msg time fs]
  end.
  cbn in Hkept. rewrite lookup_insert_ne in Hkept by exact Hne.
  repeat (case_match; msimpl); exact Hkept.
Qed.

End PartitionFile.


Section MergeOnDemoPlatform.
#[local] Existing Instance Demo.platform.

(** On the demo platform nothing but [generateXCLBin] touches the
    partition document. *)
Lemma demo_partition_left_alone :
  partition_left_alone "/tmp/build" "/base.xclbin"
    "/install/bin/iree-aie-xclbinutil".
Proof.
  split; [|split].
  - intros h. cbn. apply lookup_insert_ne. discriminate.
  - intros h env redirect. cbn. rewrite !lookup_insert_ne by discriminate.
    reflexivity.
  - intros h log [= <-]. discriminate.
Qed.


End MergeOnDemoPlatform.

(** ** Toolchain resolution in the pipeline *)

Section ResolutionOnDemoPlatform.
#[local] Existing Instance Demo.platform.


End ResolutionOnDemoPlatform.

Section Resolution.
Context `{Platform}.

Lemma execs_findVitis (v : option string) (n : string) :
  preserves execs (findVitis v n).
Proof.
  apply preserves_findVitis;
    first [reflexivity | apply execs_with_event].
Qed.

Lemma execs_emitRequestedInstructions (c : Config) :
  preserves execs (emitRequestedInstructions c).
Proof.
  unfold emitRequestedInstructions. destruct (outputNPU c).
  - apply preserves_emitNpuInstructions;
      first [reflexivity | apply execs_with_event].
  - apply preserves_ret.
Qed.

(** What [findVitis] returns depends on the host alone. *)
Lemma findVitis_host (v : option string) (n : string) (w1 w2 : World) :
  host w1 = host w2 ->
  returned (findVitis v n w1) = returned (findVitis v n w2).
Proof.
  destruct w1 as [e1 c1 f1 d1 r1 t1], w2 as [e2 c2 f2 d2 r2 t2].
  unfold host. cbn. intros Hh. injection Hh as -> -> ->.
  unfold findVitis, reporting, getTargetDir, host. msimpl.
  repeat (case_match; msimpl); reflexivity.
Qed.

Lemma unresolved_host (v : option string) (n : string) (w1 w2 : World) :
  host w1 = host w2 -> unresolved v n w1 -> unresolved v n w2.
Proof.
  intros Hh (v' & w' & Hrun). unfold unresolved.
  pose proof (findVitis_host v n w1 w2 Hh) as Hret.
  rewrite Hrun in Hret. cbn in Hret.
  destruct (findVitis v n w2) as [r w2'|f w2']; [|discriminate].
  injection Hret as <-. eexists _, _. reflexivity.
Qed.

End Resolution.

#[local] Arguments execs : simpl never.
#[local] Arguments with_event : simpl never.


Section ResolutionWitness.
#[local] Existing Instance Demo.platform.


End ResolutionWitness.

(** * Further properties of the pipeline *)

(** ** Strings *)

Section MoreStringFacts.

Lemma substring_all (s : string) : String.substring 0 (String.length s) s = s.
Proof. induction s as [|c s IH]; simpl; [reflexivity | now rewrite IH]. Qed.

Lemma substring_skip (p t : string) (m : nat) :
  String.substring (String.length p) m (p +:+ t) = String.substring 0 m t.
Proof.
  induction p as [|c p IH]; simpl; [|exact IH].
  destruct t, m; reflexivity.
Qed.

Lemma substring_split (s : string) :
  forall k : nat, (k <= String.length s)%nat ->
    s = String.substring 0 k s
          +:+ String.substring k (String.length s - k) s.
Proof.
  induction s as [|c s IH]; intros k Hk; simpl in Hk.
  - replace k with 0%nat by lia. reflexivity.
  - destruct k as [|k].
    + cbn [String.substring]. simpl String.length. simpl Nat.sub.
      cbn [String.substring]. now rewrite substring_all.
    + cbn [String.substring]. simpl String.length. simpl Nat.sub.
      change (String c s = String c (String.substring 0 k s
                             +:+ String.substring k (String.length s - k) s)).
      f_equal. apply IH. lia.
Qed.

Lemma hasEnding_append (p e : string) : Str.hasEnding (p +:+ e) e = true.
Proof.
  unfold Str.hasEnding. rewrite length_append.
  destruct (Nat.leb_spec (String.length e)
              (String.length p + String.length e)) as [_|Hlt]; [|lia].
  replace (String.length p + String.length e - String.length e)%nat
    with (String.length p) by lia.
  rewrite substring_skip, substring_all. apply String.eqb_refl.
Qed.

Lemma hasEnding_inv (full ending : string) :
  Str.hasEnding full ending = true ->
  full = String.substring 0 (String.length full - String.length ending) full
           +:+ ending.
Proof.
  unfold Str.hasEnding.
  destruct (Nat.leb_spec (String.length ending) (String.length full))
    as [Hle|_]; [|discriminate].
  intros Heq. apply String.eqb_eq in Heq.
  pose proof (substring_split full
                (String.length full - String.length ending)) as Hsplit.
  replace (String.length full
             - (String.length full - String.length ending))%nat
    with (String.length ending) in Hsplit by lia.
  rewrite Heq in Hsplit. apply Hsplit. lia.
Qed.

End MoreStringFacts.

(** X21.  [hasEnding] tells whether [ending] is a suffix of [fullString]:
    it holds exactly when [fullString] is some prefix followed by
    [ending]; in particular every string has the empty ending, and an
    ending longer than the string is never one. *)
Theorem hasEnding_suffix (fullString ending : string) :
  (Str.hasEnding fullString ending = true
   <-> exists prefix, fullString = prefix +:+ ending)
  /\ Str.hasEnding fullString EmptyString = true
  /\ ((String.length fullString < String.length ending)%nat ->
      Str.hasEnding fullString ending = false).
Proof.
  split; [|split].
  - split.
    + intros Hend. eexists. apply hasEnding_inv, Hend.
    + intros [prefix ->]. apply hasEnding_append.
  - rewrite <- (append_nil_r fullString) at 1. apply hasEnding_append.
  - intros Hlt. unfold Str.hasEnding.
    destruct (Nat.leb_spec (String.length ending) (String.length fullString));
      [lia | reflexivity].
Qed.

(** ** The program [runTool] starts *)

(** X20.  The program [runTool] looks for is the given one, with [.exe]
    appended on Windows unless it already ends in [.exe]: off Windows
    nothing is appended; a name that ends in [.exe] is kept as it is on
    every platform; on Windows a name that does not end in [.exe] gets
    [.exe] appended.  So resolving twice is resolving once, and the
    resolved program ends in [.exe] exactly on Windows or when the given
    one did. *)
Theorem resolvedProgram_idempotent `{Platform} (program_ : string) :
  (win32 = false -> resolvedProgram program_ = program_)
  /\ ((exists stem, program_ = stem +:+ ".exe") ->
      resolvedProgram program_ = program_)
  /\ (win32 = true -> (forall stem, program_ <> stem +:+ ".exe") ->
      resolvedProgram program_ = program_ +:+ ".exe")
  /\ resolvedProgram (resolvedProgram program_) = resolvedProgram program_
  /\ ((exists stem, resolvedProgram program_ = stem +:+ ".exe")
      <-> win32 = true \/ exists stem, program_ = stem +:+ ".exe").
Proof.
  assert (Str.hasEnding program_ ".exe" = true
          <-> exists stem, program_ = stem +:+ ".exe") as Hexe.
  { split.
    - intros Hend. eexists. apply hasEnding_inv, Hend.
    - intros [stem ->]. apply hasEnding_append. }
  unfold resolvedProgram.
  destruct win32; cbn [andb].
  - destruct (Str.hasEnding program_ ".exe") eqn:Hend;
      cbn [negb]; cbv iota; rewrite ?Hend, ?hasEnding_append;
      cbn [negb]; cbv iota.
    + pose proof (proj1 Hexe eq_refl) as Hstem.
      split; [discriminate|]. split; [reflexivity|].
      split;
        [intros _ Hno; destruct Hstem as [stem ->]; now destruct (Hno stem)|].
      split; [reflexivity|]. split; auto.
    + split; [discriminate|].
      split; [intros Hstem; apply Hexe in Hstem; discriminate|].
      split; [reflexivity|].
      split; [reflexivity|]. split; [auto|]. intros _. now exists program_.
  - split; [reflexivity|]. split; [reflexivity|].
    split; [discriminate|]. split; [reflexivity|].
    split; [auto|]. now intros [Hw|Hstem].
Qed.

(** ** Identifiers *)

Section Identifiers.
Context `{Platform}.

Lemma matches_app (p1 p2 : list (ascii -> bool)) (s1 s2 : string) :
  matches p1 s1 = true -> matches p2 s2 = true ->
  matches (p1 ++ p2) (s1 +:+ s2) = true.
Proof.
  revert s1. induction p1 as [|p p1 IH]; intros [|c s1] H1 H2;
    try discriminate H1; simpl in *; [exact H2|].
  apply andb_true_iff in H1 as [Hc H1]. rewrite Hc. now apply IH.
Qed.

Lemma matches_length (p : list (ascii -> bool)) (s : string) :
  matches p s = true -> String.length s = length p.
Proof.
  revert s. induction p as [|q p IH]; intros [|c s] Hm;
    try discriminate Hm; simpl in *; [reflexivity|].
  apply andb_true_iff in Hm as [_ Hm]. f_equal. now apply IH.
Qed.

Lemma small_number (d bound : Z) :
  0 <= d < bound -> exists k : nat, (k < Z.to_nat bound)%nat /\ d = Z.of_nat k.
Proof. intros Hd. exists (Z.to_nat d). lia. Qed.

(** A number below sixteen is written as one digit. *)
Lemma dis_digit (r : Z) :
  matches [is_lower_hex_digit] (Hex.digits_lower (0 + r mod (15 - 0 + 1)))
  = true.
Proof.
  change (15 - 0 + 1) with 16.
  destruct (small_number (0 + r mod 16) 16) as (k & Hk & ->).
  { pose proof (Z.mod_pos_bound r 16). lia. }
  do 16 (destruct k as [|k]; [reflexivity|]). simpl in Hk. lia.
Qed.

Lemma dis2_digit (r : Z) :
  matches [is_variant_digit] (Hex.digits_lower (8 + r mod (11 - 8 + 1)))
  = true.
Proof.
  change (11 - 8 + 1) with 4.
  destruct (small_number (r mod 4) 4) as (k & Hk & ->).
  { pose proof (Z.mod_pos_bound r 4). lia. }
  do 4 (destruct k as [|k]; [reflexivity|]). simpl in Hk. lia.
Qed.

Lemma dis_digits_run (n : nat) (w : World) :
  exists s,
    Uuid.dis_digits n w = Ret s (Nat.iter n with_draw w)
    /\ matches (replicate n is_lower_hex_digit) s = true.
Proof.
  revert w. induction n as [|n IH]; intros w.
  - exists EmptyString. split; reflexivity.
  - destruct (IH (with_draw w)) as (rest & Hrun & Hrest).
    cbn [Uuid.dis_digits]. rewrite bindM_run. unfold Uuid.uniform_int at 1.
    rewrite bindM_run, Hrun. eexists. split.
    + rewrite Nat.iter_succ_r. reflexivity.
    + apply (matches_app [_] _ _ _ (dis_digit _) Hrest).
Qed.

End Identifiers.

(** X24.  [getUUIDString] draws thirty-one numbers from the generator and
    changes nothing else; whatever the generator gives, the result has
    the thirty-six characters of a version-4 identifier: lowercase
    hexadecimal digits in groups of 8, 4, 4, 4 and 12 with a hyphen
    between groups, the third group starting with [4] and the fourth with
    [8], [9], [a] or [b]. *)
Theorem getUUIDString_version_4 `{Platform} (w : World) :
  exists s,
    Uuid.getUUIDString w = Ret s (Nat.iter 31 with_draw w)
    /\ uuid_v4 s = true
    /\ String.length s = 36%nat
    /\ String.get 8 s = Some "-"%char /\ String.get 13 s = Some "-"%char
    /\ String.get 14 s = Some "4"%char
    /\ String.get 18 s = Some "-"%char /\ String.get 23 s = Some "-"%char.
Proof.
  unfold Uuid.getUUIDString.
  destruct (dis_digits_run 8 w) as (a & Ha & Ma).
  destruct (dis_digits_run 4 (Nat.iter 8 with_draw w)) as (b & Hb & Mb).
  destruct (dis_digits_run 3 (Nat.iter 4 with_draw (Nat.iter 8 with_draw w)))
    as (c & Hc & Mc).
  set (w3 := Nat.iter 3 with_draw
               (Nat.iter 4 with_draw (Nat.iter 8 with_draw w))) in *.
  destruct (dis_digits_run 3 (with_draw w3)) as (e & He & Me).
  destruct (dis_digits_run 12 (Nat.iter 3 with_draw (with_draw w3)))
    as (f & Hf & Mf).
  rewrite bindM_run, Ha, bindM_run, Hb, bindM_run, Hc, bindM_run.
  unfold Uuid.uniform_int at 1. rewrite bindM_run, He, bindM_run, Hf.
  eexists. split; [reflexivity|].
  assert (uuid_v4
            (a +:+ "-" +:+ b +:+ "-4" +:+ c +:+ "-"
               +:+ Hex.digits_lower (8 + random_bits (w_rng w3) mod (11 - 8 + 1))
               +:+ e +:+ "-" +:+ f) = true) as Hshape.
  { unfold uuid_v4, uuid_v4_pattern.
    apply matches_app; [exact Ma|].
    apply (matches_app [_] _ "-"); [reflexivity|].
    apply matches_app; [exact Mb|].
    apply (matches_app [_; _] _ "-4"); [reflexivity|].
    apply matches_app; [exact Mc|].
    apply (matches_app [_] (_ :: _) "-"); [reflexivity|].
    apply (matches_app [_]); [apply dis2_digit|].
    apply matches_app; [exact Me|].
    apply (matches_app [_] _ "-"); [reflexivity|].
    exact Mf. }
  split; [exact Hshape|].
  split; [apply (matches_length _ _ Hshape)|].
  revert Hshape. generalize (a +:+ "-" +:+ b +:+ "-4" +:+ c +:+ "-"
               +:+ Hex.digits_lower (8 + random_bits (w_rng w3) mod (11 - 8 + 1))
               +:+ e +:+ "-" +:+ f).
  intros s Hs. unfold uuid_v4, uuid_v4_pattern in Hs. cbn in Hs.
  repeat (destruct s as [|? s]; [discriminate Hs|];
          apply andb_true_iff in Hs as [? Hs]).
  unfold is_char in *.
  repeat match goal with
         | Hc : Ascii.eqb _ _ = true |- _ => apply Ascii.eqb_eq in Hc; subst
         end.
  repeat split; reflexivity.
Qed.

From Stdlib Require DecimalZ DecimalPos.

(** ** Looking for a tool *)

(** X22.  [findAMDAIETool] returns the first path that exists among, in
    this order, [<dir>/<tool>], [<dir>/bin/<tool>], [<dir>/tools/<tool>]
    (these three only when an installation directory is given) and what
    [findTool] finds, and then leaves the world as it is; when none
    exists it fails and writes the one message naming the tool. *)
Theorem findAMDAIETool_first_candidate `{Platform}
    (toolName amdAIEInstallDir : string) (w : World) :
  findAMDAIETool toolName amdAIEInstallDir w
  = match List.find (fun p => bool_decide (is_Some (w_fs w !! p)))
            (tool_candidates toolName amdAIEInstallDir w) with
    | Some p => Ret (Some p) w
    | None => Ret None (with_event (tool_not_found toolName) w)
    end.
Proof.
  unfold findAMDAIETool, tool_candidates, tool_not_found.
  destruct (String.length amdAIEInstallDir =? 0)%nat; cbn [negb app List.find];
    munfold; cbn [host h_fs];
    repeat (destruct (bool_decide _); cbn [negb]; try reflexivity).
Qed.

(** ** OptFlagComposer: what is accepted *)

Section Quoting.

Lemma substring_get (s : string) :
  forall (k : nat) (c : ascii),
    String.get k s = Some c ->
    String.substring k 1 s = String c EmptyString.
Proof.
  induction s as [|d s IH]; intros k c Hget; [discriminate|].
  destruct k as [|k]; simpl in *.
  - injection Hget as ->. now destruct s.
  - now apply IH.
Qed.

(** A string of at least two characters that starts and ends with a
    double quote is the quoted form of what is between them. *)
Lemma quoted_inv (s : string) :
  (2 <= String.length s)%nat ->
  Str.front s = Some Str.dquote -> Str.back s = Some Str.dquote ->
  s = Str.quoted (String.substring 1 (String.length s - 2) s).
Proof.
  destruct s as [|c s]; [simpl; lia|]. intros Hlen Hfront Hback.
  unfold Str.front in Hfront. simpl in Hfront. injection Hfront as ->.
  unfold Str.back in Hback. simpl String.length in *. simpl Nat.pred in Hback.
  assert (String.length s = S (String.length s - 1)) as Hs by lia.
  rewrite Hs in Hback. simpl String.get in Hback.
  unfold Str.quoted. f_equal.
  replace (S (String.length s) - 2)%nat with (String.length s - 1)%nat by lia.
  cbn [String.substring].
  pose proof (substring_split s (String.length s - 1)) as Hsplit.
  replace (String.length s - (String.length s - 1))%nat with 1%nat
    in Hsplit by lia.
  rewrite (substring_get _ _ _ Hback) in Hsplit.
  apply Hsplit. lia.
Qed.

Lemma makePeanoOptArgs_empty (fin fout : string) :
  OptFlags.makePeanoOptArgs fin fout EmptyString
  = inr (OptFlags.default_args fin fout).
Proof. reflexivity. Qed.

Lemma makePeanoOptArgs_quoted (fin fout flags : string) :
  OptFlags.makePeanoOptArgs fin fout (Str.quoted flags)
  = inr (before_level
           ++ chosen_level "-O3" (Str.tokens flags)
           :: after_level fin fout
           ++ other_flags (Str.tokens flags)).
Proof.
  unfold OptFlags.makePeanoOptArgs.
  rewrite quoted_length. simpl Nat.eqb. simpl Nat.ltb.
  rewrite quoted_front, quoted_back.
  rewrite !bool_decide_eq_true_2 by reflexivity. simpl orb. cbv iota.
  pose proof (quoted_stripped flags) as Hs. rewrite quoted_length in Hs.
  rewrite Hs. rewrite default_args_split.
  rewrite foldl_add_flag; [reflexivity | apply before_level_plain | reflexivity].
Qed.

(** The flag strings that are accepted. *)
Lemma makePeanoOptArgs_accepted (fin fout flags : string)
    (args : list string) :
  OptFlags.makePeanoOptArgs fin fout flags = inr args ->
  flags = EmptyString \/ exists inner, flags = Str.quoted inner.
Proof.
  unfold OptFlags.makePeanoOptArgs.
  destruct (Nat.eqb_spec (String.length flags) 0) as [Hz|Hnz].
  { intros _. left. now destruct flags. }
  destruct (Nat.ltb_spec (String.length flags) 2) as [Hlt|Hge];
    [discriminate|].
  destruct (bool_decide_reflect (Str.front flags = Some Str.dquote))
    as [Hfront|]; [|discriminate].
  destruct (bool_decide_reflect (Str.back flags = Some Str.dquote))
    as [Hback|]; [|discriminate].
  intros _. right. eexists. now apply quoted_inv.
Qed.

Lemma no_level_filter (l : list string) :
  Forall (fun a => OptFlags.isOptLevelFlag a = false) l ->
  filter (fun a => OptFlags.isOptLevelFlag a = true) l = [].
Proof.
  induction 1 as [|a l Ha _ IH]; [reflexivity|].
  rewrite filter_cons_False by (rewrite Ha; discriminate). exact IH.
Qed.

Lemma chosen_level_is_level (o : string) (flags : list string) :
  OptFlags.isOptLevelFlag o = true ->
  OptFlags.isOptLevelFlag (chosen_level o flags) = true.
Proof.
  intros Ho. unfold chosen_level.
  destruct (last _) as [x|] eqn:Hlast; [|exact Ho].
  apply last_Some_elem_of, list_elem_of_filter in Hlast. apply Hlast.
Qed.

Lemma other_flags_plain (flags : list string) :
  Forall (fun a => OptFlags.isOptLevelFlag a = false) (other_flags flags).
Proof.
  apply Forall_forall. intros a Ha.
  apply list_elem_of_filter in Ha. apply Ha.
Qed.

End Quoting.

(** X25.  [makePeanoOptArgs] accepts a flag string exactly when it is
    empty or is some text between two double quotes; every other string
    is refused with the one message about the form of the flags. *)
Theorem makePeanoOptArgs_accepts_quoted (fin fout flags : string) :
  ((exists args, OptFlags.makePeanoOptArgs fin fout flags = inr args)
   <-> flags = EmptyString \/ exists inner, flags = Str.quoted inner)
  /\ (forall msg, OptFlags.makePeanoOptArgs fin fout flags = inl msg ->
                  msg = OptFlags.malformed_msg).
Proof.
  split.
  - split.
    + intros [args Hargs]. eapply makePeanoOptArgs_accepted, Hargs.
    + intros [->|[inner ->]].
      * eexists. apply makePeanoOptArgs_empty.
      * eexists. apply makePeanoOptArgs_quoted.
  - intros msg. unfold OptFlags.makePeanoOptArgs.
    destruct (String.length flags =? 0)%nat; [discriminate|].
    destruct (_ || _ || _); [|discriminate]. now intros [= <-].
Qed.

(** X26.  Whatever flag string is accepted, the composed list holds
    exactly one optimization-level flag, and holds it at position 6,
    where the defaults have [-O3]; the two file names are taken not to
    be level flags themselves. *)
Theorem makePeanoOptArgs_one_level (fin fout flags : string)
    (args : list string) :
  OptFlags.isOptLevelFlag fin = false ->
  OptFlags.isOptLevelFlag fout = false ->
  OptFlags.makePeanoOptArgs fin fout flags = inr args ->
  exists level,
    filter (fun a => OptFlags.isOptLevelFlag a = true) args = [level]
    /\ args !! 6%nat = Some level
    /\ OptFlags.isOptLevelFlag level = true.
Proof.
  intros Hin Hout Hargs.
  assert (Forall (fun a => OptFlags.isOptLevelFlag a = false)
                 (after_level fin fout)) as Hafter.
  { unfold after_level. cbn.
    repeat (constructor; [first [assumption | reflexivity]|]). constructor. }
  assert (exists level others,
             args = before_level ++ level :: after_level fin fout ++ others
             /\ OptFlags.isOptLevelFlag level = true
             /\ Forall (fun a => OptFlags.isOptLevelFlag a = false) others)
    as (level & others & -> & Hlevel & Hothers).
  { destruct (makePeanoOptArgs_accepted _ _ _ _ Hargs) as [->|[inner ->]].
    - rewrite makePeanoOptArgs_empty in Hargs. injection Hargs as <-.
      exists "-O3", []. rewrite app_nil_r.
      split; [apply default_args_split|]. split; [reflexivity | constructor].
    - rewrite makePeanoOptArgs_quoted in Hargs. injection Hargs as <-.
      eexists _, _. split; [reflexivity|].
      split; [now apply chosen_level_is_level | apply other_flags_plain]. }
  exists level. split; [|split; [reflexivity | exact Hlevel]].
  rewrite filter_app, (no_level_filter _ before_level_plain).
  rewrite filter_cons_True by exact Hlevel.
  rewrite filter_app, (no_level_filter _ Hafter), (no_level_filter _ Hothers).
  reflexivity.
Qed.

(** The theorem at the file names the pipeline uses, with three flags of
    which two are level flags. *)
Lemma makePeanoOptArgs_one_level_witness :
  exists level,
    filter (fun a => OptFlags.isOptLevelFlag a = true)
      (before_level
         ++ "-O2" :: after_level "/tmp/input.ll" "/tmp/input.opt.ll" ++ ["-g"])
    = [level]
    /\ (before_level
          ++ "-O2" :: after_level "/tmp/input.ll" "/tmp/input.opt.ll"
          ++ ["-g"]) !! 6%nat = Some level
    /\ OptFlags.isOptLevelFlag level = true.
Proof.
  apply (makePeanoOptArgs_one_level "/tmp/input.ll" "/tmp/input.opt.ll"
           (Str.quoted "-O1 -g -O2")); reflexivity.
Defined.

(** ** Names of ELF files *)

Section Names.

Lemma append_cons (c : ascii) (a b : string) :
  String c a +:+ b = String c (a +:+ b).
Proof. reflexivity. Qed.

Lemma append_nil_l (b : string) : EmptyString +:+ b = b.
Proof. reflexivity. Qed.

(** Where a text free of [sep] ends and [sep] follows is determined by
    the whole. *)
Lemma split_unique (sep : ascii) (a : string) :
  forall a' x x' : string,
    Hex.all_chars (fun c => negb (Ascii.eqb c sep)) a = true ->
    Hex.all_chars (fun c => negb (Ascii.eqb c sep)) a' = true ->
    a +:+ String sep x = a' +:+ String sep x' -> a = a' /\ x = x'.
Proof.
  induction a as [|c a IH]; intros [|c' a'] x x' Ha Ha' Heq;
    rewrite ?append_cons, ?append_nil_l in Heq; simpl in Ha, Ha'.
  - injection Heq as ->. auto.
  - injection Heq as <- _. rewrite Ascii.eqb_refl in Ha'. discriminate.
  - injection Heq as -> _. rewrite Ascii.eqb_refl in Ha. discriminate.
  - injection Heq as <- Heq.
    apply andb_true_iff in Ha as [_ Ha], Ha' as [_ Ha'].
    destruct (IH a' x x' Ha Ha' Heq) as [-> ->]. auto.
Qed.

(** A number is written with digits and, in front, a minus sign. *)
Lemma to_string_chars (P : ascii -> bool) (z : Z) :
  Hex.all_chars P "-0123456789" = true ->
  Hex.all_chars P (Str.to_string z) = true.
Proof.
  intros HP. cbn in HP.
  repeat match type of HP with
         | _ && _ = true => apply andb_true_iff in HP as [? HP]
         end.
  assert (forall u, Hex.all_chars P (NilEmpty.string_of_uint u) = true)
    as Huint.
  { induction u; cbn; rewrite ?IHu, ?andb_true_r; assumption || reflexivity. }
  assert (forall u, Hex.all_chars P (NilZero.string_of_uint u) = true)
    as Hzero.
  { intros u. destruct u; try apply Huint. cbn. now rewrite andb_true_r. }
  unfold Str.to_string, NilZero.string_of_int.
  destruct (Z.to_int z) as [u|u]; [apply Hzero|].
  cbn [Hex.all_chars]. rewrite Hzero. now rewrite andb_true_r.
Qed.

Lemma to_string_inj (z z' : Z) : Str.to_string z = Str.to_string z' -> z = z'.
Proof.
  unfold Str.to_string. intros Heq.
  apply (f_equal NilZero.int_of_string) in Heq.
  assert (forall n, Z.to_int n <> Decimal.Pos Decimal.Nil
                    /\ Z.to_int n <> Decimal.Neg Decimal.Nil) as Hnonnil.
  { intros [|p|p]; cbn; split; try discriminate;
      intros [= Hp]; exact (DecimalPos.Unsigned.to_uint_nonnil p Hp). }
  rewrite !NilZero.isi in Heq by apply Hnonnil.
  injection Heq as Heq. now apply DecimalZ.to_int_inj.
Qed.

End Names.

(** X27.  The name made from the coordinates of a tile tells the
    coordinates: two tiles get the same name [core_<col>_<row>.elf] only
    if they are in the same column and the same row. *)
Theorem synthesizedElfFileName_injective (col row col' row' : Z) :
  synthesizedElfFileName col row = synthesizedElfFileName col' row'
  <-> col = col' /\ row = row'.
Proof.
  split; [|now intros [-> ->]].
  unfold synthesizedElfFileName. intros Heq.
  rewrite !append_cons, !append_nil_l in Heq.
  injection Heq as Heq.
  apply split_unique in Heq as [Hcol Hrow];
    [|now apply to_string_chars..].
  change ".elf" with (String "." "elf") in Hrow.
  apply split_unique in Hrow as [Hrow _];
    [|now apply to_string_chars..].
  split; now apply to_string_inj.
Qed.

(** ** ToolchainLocator: what a resolution guarantees *)

Section Resolved.
Context `{Platform}.

Lemma findVitis_success_inv (vitisDir vitisDir' : option string)
    (npuVersion dir : string) (w w' : World) :
  findVitis vitisDir npuVersion w = Ret (vitisDir', Some dir) w' ->
  w' = w /\ vitisDir' = Some dir /\ (forall d, vitisDir = Some d -> d = dir)
  /\ (is_Some (w_env w !! "XILINXD_LICENSE_FILE")
      \/ exists lic, w_env w !! "XILINXD_LICENSE_FILE" = None
                     /\ w_env w !! "LM_LICENSE_FILE" = Some lic
                     /\ is_Some (w_fs w !! lic))
  /\ exists targetDir,
       getTargetDir npuVersion = inr targetDir
       /\ is_Some (w_fs w !! (dir // "aietools"))
       /\ is_Some (w_fs w !! (dir // "aietools" // "tps" // "lnx64"
                                // targetDir // "bin" // "LNa64bin"
                                // "chess-clang"))
       /\ is_Some (w_fs w !! (dir // "aietools" // "tps" // "lnx64"
                                // targetDir // "bin" // "LNa64bin"
                                // "chess-llvm-link")).
Proof.
  intros Hrun. unfold findVitis, reporting in Hrun.
  destruct (getTargetDir npuVersion) as [msg|targetDir] eqn:Htarget.
  all: msimpl; repeat (case_match; msimpl).
  all: repeat match goal with
         | Hb : negb _ = false |- _ => apply negb_false_iff in Hb
         | Hb : bool_decide _ = true |- _ => apply bool_decide_eq_true in Hb
         end.
  all: split; [reflexivity|]; split; [reflexivity|].
  all: split; [intros d [= ->]; reflexivity || congruence|].
  all: (split; [first [left; eauto; fail | right; eauto 10]|]).
  all: eauto 10.
Qed.

End Resolved.

(** X14.  When [findVitis] succeeds it has written nothing and changed
    nothing; the directory it returns is the one the caller gave, if any,
    and is what the caller's [vitisDir] holds afterwards; a license
    variable is set (and the file [LM_LICENSE_FILE] names exists, if that
    is the one); the hardware family is a recognized one; and the
    [aietools] directory, [chess-clang] and [chess-llvm-link] exist under
    the directory. *)
Theorem findVitis_success `{Platform} (vitisDir vitisDir' : option string)
    (npuVersion dir : string) (w w' : World) :
  findVitis vitisDir npuVersion w = Ret (vitisDir', Some dir) w' ->
  w' = w /\ vitisDir' = Some dir /\ (forall d, vitisDir = Some d -> d = dir)
  /\ (is_Some (w_env w !! "XILINXD_LICENSE_FILE")
      \/ exists lic, w_env w !! "XILINXD_LICENSE_FILE" = None
                     /\ w_env w !! "LM_LICENSE_FILE" = Some lic
                     /\ is_Some (w_fs w !! lic))
  /\ exists targetDir,
       getTargetDir npuVersion = inr targetDir
       /\ is_Some (w_fs w !! (dir // "aietools"))
       /\ is_Some (w_fs w !! (dir // "aietools" // "tps" // "lnx64"
                                // targetDir // "bin" // "LNa64bin"
                                // "chess-clang"))
       /\ is_Some (w_fs w !! (dir // "aietools" // "tps" // "lnx64"
                                // targetDir // "bin" // "LNa64bin"
                                // "chess-llvm-link")).
Proof. apply findVitis_success_inv. Qed.

Section ResolvedOnDemoPlatform.
#[local] Existing Instance Demo.platform.

(** The theorem at the world with the toolchain under [/vitis]. *)
Lemma findVitis_success_witness :
  is_Some (w_fs Demo.vendor_world !! ("/vitis" // "aietools"))
  /\ exists targetDir,
       getTargetDir "npu1" = inr targetDir
       /\ is_Some (w_fs Demo.vendor_world
                     !! ("/vitis" // "aietools" // "tps" // "lnx64"
                           // targetDir // "bin" // "LNa64bin"
                           // "chess-clang")).
Proof.
  destruct (findVitis_success (Some "/vitis") (Some "/vitis") "npu1" "/vitis"
              Demo.vendor_world Demo.vendor_world)
    as (_ & _ & _ & _ & targetDir & Htarget & Htools & Hclang & _).
  - vm_compute. reflexivity.
  - split; [exact Htools|]. exists targetDir. split; assumption.
Defined.

End ResolvedOnDemoPlatform.

(** X15.  The variable [VITIS] is read and its value never used: when the
    caller gives no directory and [VITIS] is set, [findVitis] does not
    look for [v++] either and fails with the message that the directory
    could not be found, whatever is installed. *)
Theorem findVitis_ignores_VITIS `{Platform} (npuVersion : string) (w : World) :
  is_Some (w_env w !! "VITIS") ->
  findVitis None npuVersion w
  = Ret (None, None)
      (with_event
         (EvErr ("ERROR: couldn't find vitis directory"
                   +:+ Str.of_char Str.newline)) w).
Proof.
  intros [dir Hdir]. unfold findVitis. msimpl. now rewrite Hdir.
Qed.

Section IgnoredOnDemoPlatform.
#[local] Existing Instance Demo.platform.

(** The theorem at a world where the toolchain is installed under
    [/vitis], [VITIS] says so and the license is named: giving the
    directory succeeds, leaving it to [VITIS] fails. *)
Lemma findVitis_ignores_VITIS_witness :
  findVitis (Some "/vitis") "npu1" Cases.vitis_env_world
    = Ret (Some "/vitis", Some "/vitis") Cases.vitis_env_world
  /\ findVitis None "npu1" Cases.vitis_env_world
     = Ret (None, None)
         (with_event
            (EvErr ("ERROR: couldn't find vitis directory"
                      +:+ Str.of_char Str.newline)) Cases.vitis_env_world).
Proof.
  split; [vm_compute; reflexivity|].
  apply (findVitis_ignores_VITIS "npu1" Cases.vitis_env_world).
  eexists. vm_compute. reflexivity.
Defined.

End IgnoredOnDemoPlatform.

Section Stable.
Context `{Platform}.

Lemma host_findVitis (v : option string) (n : string) :
  preserves host (findVitis v n).
Proof. unfold findVitis, reporting. frame. Qed.

Lemma findVitis_again (v v' r : option string) (n : string) (w w' : World) :
  findVitis v n w = Ret (v', r) w' ->
  returned (findVitis v' n w) = Some (v', r).
Proof.
  intros Hrun. destruct v as [d|].
  - assert (v' = Some d) as ->; [|now rewrite Hrun].
    unfold findVitis, reporting in Hrun. msimpl.
    repeat (case_match; msimpl); reflexivity.
  - destruct v' as [d|]; [|now rewrite Hrun].
    unfold findVitis, reporting in *. msimpl.
    repeat (case_match; msimpl); reflexivity.
Qed.

End Stable.

(** X16.  Resolution is stable: [findVitis] called again with the
    directory the first call left in [vitisDir] gives the same directory
    and the same result; the first call changes neither the environment,
    the files nor the device and starts no process. *)
Theorem findVitis_stable `{Platform} (vitisDir vitisDir' r : option string)
    (npuVersion : string) (w w' : World) :
  findVitis vitisDir npuVersion w = Ret (vitisDir', r) w' ->
  returned (findVitis vitisDir' npuVersion w') = Some (vitisDir', r)
  /\ host w' = host w /\ w_device w' = w_device w /\ execs w' = execs w.
Proof.
  intros Hrun.
  pose proof (host_findVitis vitisDir npuVersion w) as Hhost.
  pose proof (device_findVitis vitisDir npuVersion w) as Hdev.
  pose proof (execs_findVitis vitisDir npuVersion w) as Hex.
  rewrite Hrun in Hhost, Hdev, Hex. cbn in Hhost, Hdev, Hex.
  split; [|auto].
  rewrite (findVitis_host vitisDir' npuVersion w' w Hhost).
  eapply findVitis_again, Hrun.
Qed.

Section StableOnDemoPlatform.
#[local] Existing Instance Demo.platform.

(** The theorem where there is no toolchain, and where there is one. *)
Lemma findVitis_stable_witness :
  (exists w', findVitis None "npu1" Demo.world = Ret (None, None) w'
              /\ returned (findVitis None "npu1" w') = Some (None, None))
  /\ returned (findVitis (Some "/vitis") "npu1" Demo.vendor_world)
     = Some (Some "/vitis", Some "/vitis").
Proof.
  split.
  - eexists. split; [vm_compute; reflexivity|].
    eapply (findVitis_stable None None None "npu1" Demo.world).
    vm_compute. reflexivity.
  - eapply (findVitis_stable (Some "/vitis") (Some "/vitis") (Some "/vitis")
              "npu1" Demo.vendor_world Demo.vendor_world).
    vm_compute. reflexivity.
Defined.

End StableOnDemoPlatform.

(** ** The environment of the vendor compiler *)

(** X17.  After [findVitis] has succeeded, [makeChessEnv] can only stop
    on a missing [PATH]: the license it needs is then known to be named.
    With [PATH] set it returns the four entries [PATH], [LD_LIBRARY_PATH],
    [RDI_DATADIR] and [XILINXD_LICENSE_FILE], the last carrying the value
    of [XILINXD_LICENSE_FILE] or else of [LM_LICENSE_FILE], and changes
    nothing; with [PATH] unset it builds a path from a null pointer. *)
Theorem makeChessEnv_after_findVitis `{Platform}
    (vitisDir vitisDir' : option string) (npuVersion dir : string)
    (w w' : World) :
  findVitis vitisDir npuVersion w = Ret (vitisDir', Some dir) w' ->
  exists targetDir license,
    getTargetDir npuVersion = inr targetDir
    /\ (w_env w !! "XILINXD_LICENSE_FILE" = Some license
        \/ w_env w !! "XILINXD_LICENSE_FILE" = None
           /\ w_env w !! "LM_LICENSE_FILE" = Some license)
    /\ match w_env w !! "PATH" with
       | Some path =>
           makeChessEnv dir npuVersion w'
           = Ret [ "PATH="
                     +:+ (dir // "aietools" // "tps" // "lnx64" // targetDir
                            // "bin" // "LNa64bin")
                     +:+ EnvPathSeparator +:+ path;
                   "LD_LIBRARY_PATH="
                     +:+ (dir // "aietools" // "lib" // "lnx64.o")
                     +:+ EnvPathSeparator
                     +:+ (dir // "aietools" // "lnx64" // "tools" // "dot"
                            // "lib")
                     +:+ EnvPathSeparator
                     +:+ default EmptyString (w_env w !! "LD_LIBRARY_PATH");
                   "RDI_DATADIR=" +:+ (dir // "aietools" // "data");
                   "XILINXD_LICENSE_FILE=" +:+ license ] w'
       | None => makeChessEnv dir npuVersion w' = Abort NullString w'
       end.
Proof.
  intros Hrun.
  destruct (findVitis_success_inv _ _ _ _ _ _ Hrun)
    as (-> & _ & _ & Hlic & targetDir & Htarget & _).
  assert (exists license,
             (w_env w !! "XILINXD_LICENSE_FILE" = Some license
              \/ w_env w !! "XILINXD_LICENSE_FILE" = None
                 /\ w_env w !! "LM_LICENSE_FILE" = Some license))
    as [license Hlicense].
  { destruct Hlic as [[l Hl]|(l & Hx & Hl & _)]; eauto. }
  exists targetDir, license. split; [exact Htarget|].
  split; [exact Hlicense|].
  unfold makeChessEnv, reporting. rewrite Htarget. msimpl.
  destruct (w_env w !! "PATH") as [path|]; cbn; [|reflexivity].
  destruct Hlicense as [Hx|[Hx Hl]]; rewrite Hx; cbn; [reflexivity|].
  rewrite Hl. reflexivity.
Qed.

Section EnvOnDemoPlatform.
#[local] Existing Instance Demo.platform.

(** The theorem at the world with the toolchain under [/vitis]. *)
Lemma makeChessEnv_after_findVitis_witness :
  exists targetDir license,
    getTargetDir "npu1" = inr targetDir
    /\ (w_env Demo.vendor_world !! "XILINXD_LICENSE_FILE" = Some license
        \/ w_env Demo.vendor_world !! "XILINXD_LICENSE_FILE" = None
           /\ w_env Demo.vendor_world !! "LM_LICENSE_FILE" = Some license)
    /\ match w_env Demo.vendor_world !! "PATH" with
       | Some path =>
           makeChessEnv "/vitis" "npu1" Demo.vendor_world
           = Ret [ "PATH="
                     +:+ ("/vitis" // "aietools" // "tps" // "lnx64"
                            // targetDir // "bin" // "LNa64bin")
                     +:+ EnvPathSeparator +:+ path;
                   "LD_LIBRARY_PATH="
                     +:+ ("/vitis" // "aietools" // "lib" // "lnx64.o")
                     +:+ EnvPathSeparator
                     +:+ ("/vitis" // "aietools" // "lnx64" // "tools"
                            // "dot" // "lib")
                     +:+ EnvPathSeparator
                     +:+ default EmptyString
                           (w_env Demo.vendor_world !! "LD_LIBRARY_PATH");
                   "RDI_DATADIR=" +:+ ("/vitis" // "aietools" // "data");
                   "XILINXD_LICENSE_FILE=" +:+ license ] Demo.vendor_world
       | None =>
           makeChessEnv "/vitis" "npu1" Demo.vendor_world
           = Abort NullString Demo.vendor_world
       end.
Proof.
  apply (makeChessEnv_after_findVitis (Some "/vitis") (Some "/vitis") "npu1"
           "/vitis" Demo.vendor_world Demo.vendor_world).
  vm_compute. reflexivity.
Defined.

End EnvOnDemoPlatform.

(** ** Files *)

Section Files.
Context `{Platform}.

Lemma with_fs_with_fs (fs1 fs2 : gmap string Node) (w : World) :
  with_fs fs2 (with_fs fs1 w) = with_fs fs2 w.
Proof. reflexivity. Qed.

Lemma execs_with_fs (fs : gmap string Node) (w : World) :
  execs (with_fs fs w) = execs w.
Proof. reflexivity. Qed.

Lemma execs_with_device (d : IR.DeviceOp) (w : World) :
  execs (with_device d w) = execs w.
Proof. reflexivity. Qed.

Lemma dumpStrToDisk_run (payload p : string) (w : World) :
  dumpStrToDisk payload p w
  = match openOutputFile_error (host w) p with
    | Some msg => Ret (Some msg) w
    | None => Ret None (with_fs (<[p := File payload]> (w_fs w)) w)
    end.
Proof.
  unfold dumpStrToDisk, openOutputFile, os_write. msimpl.
  destruct (openOutputFile_error (host w) p); [reflexivity|]. cbn.
  rewrite lookup_insert_eq. cbn. rewrite insert_insert_eq. reflexivity.
Qed.

Lemma openInputFile_file (p c : string) (w : World) :
  w_fs w !! p = Some (File c) -> openInputFile_error (host w) p = None ->
  openInputFile p w = Ret (inr c) w.
Proof. intros Hp He. unfold openInputFile. msimpl. now rewrite Hp, He. Qed.

End Files.

(** X23.  What [dumpStrToDisk] writes is what the file then holds,
    whatever it held before, and reading the file gives the payload
    back; no other path changes and nothing is written to the streams.
    When the file cannot be opened the message is returned and the world
    is as it was. *)
Theorem dumpStrToDisk_round_trip `{Platform} (payload outputPath : string)
    (w : World) :
  match openOutputFile_error (host w) outputPath with
  | Some errorMessage =>
      dumpStrToDisk payload outputPath w = Ret (Some errorMessage) w
  | None =>
      exists w',
        dumpStrToDisk payload outputPath w = Ret None w'
        /\ w' = with_fs (<[outputPath := File payload]> (w_fs w)) w
        /\ w_fs w' !! outputPath = Some (File payload)
        /\ (forall p, p <> outputPath -> w_fs w' !! p = w_fs w !! p)
        /\ (openInputFile_error (host w') outputPath = None ->
            openInputFile outputPath w' = Ret (inr payload) w')
  end.
Proof.
  rewrite dumpStrToDisk_run.
  destruct (openOutputFile_error (host w) outputPath); [reflexivity|].
  eexists. split; [reflexivity|]. split; [reflexivity|].
  assert (<[outputPath := File payload]> (w_fs w) !! outputPath
          = Some (File payload)) as Hp by apply lookup_insert_eq.
  split; [exact Hp|]. split.
  - intros p Hne. cbn. now rewrite lookup_insert_ne.
  - intros Hread. now apply openInputFile_file.
Qed.

(** ** The boot image *)

(** X11.  [generatePDI] writes the description [design.bif] into the
    working directory, replacing what was there, and then calls the
    embedded boot-image generator exactly once, with the arguments
    [-arch versal -image <tempDir>/design.bif -o <Output> -w] after an
    empty first argument; it succeeds exactly when the generator returns
    zero, leaves the files as the generator left them, starts no process
    and does not touch the device.  When [design.bif] cannot be opened
    it fails with a message and the generator is not called. *)
Theorem generatePDI_bootgen `{Platform} (Output tempDir : string) (w : World) :
  match openOutputFile_error (host w) (tempDir // "design.bif") with
  | Some errorMessage =>
      generatePDI Output tempDir w
      = Ret failure
          (with_event
             (EvErr ("failed to open design.bif because: " +:+ errorMessage))
             w)
  | None =>
      let w1 :=
        with_fs (<[tempDir // "design.bif" := File (designBif tempDir)]>
                   (w_fs w)) w in
      let r := bootgen_main (host w1) (bootgen_args Output tempDir) in
      exists w',
        generatePDI Output tempDir w
          = Ret (if fst r =? 0 then success else failure) w'
        /\ w_fs w' = snd r
        /\ w_trace w'
           = w_trace w ++ EvBootgen (bootgen_args Output tempDir)
               :: (if fst r =? 0 then []
                   else [EvErr "failed to execute bootgen"])
        /\ execs w' = execs w
        /\ w_device w' = w_device w
  end.
Proof.
  unfold generatePDI, openOutputFile, os_write, bootgen_args. msimpl.
  destruct (openOutputFile_error (host w) (tempDir // "design.bif"));
    [reflexivity|].
  cbn. rewrite lookup_insert_eq. cbn. rewrite insert_insert_eq.
  unfold host. cbn.
  destruct (bootgen_main _ _) as [status fs]. cbn.
  destruct (status =? 0); cbn; eexists; (split; [reflexivity|]).
  - split; [reflexivity|]. split; [reflexivity|].
    split; [|reflexivity].
    now rewrite !execs_with_fs, execs_with_event, !execs_with_fs.
  - split; [reflexivity|].
    split; [unfold with_event; cbn; now rewrite <- app_assoc|].
    split; [|reflexivity].
    rewrite execs_with_event by reflexivity.
    now rewrite !execs_with_fs, execs_with_event, !execs_with_fs.
Qed.

(** ** ProcessRunner: the log file and the command line *)

Section RunnerFacts.
Context `{Platform}.

(** However a run ends, it has started the resolved program once or,
    not returning success, not at all. *)
Lemma runTool_execs (program_ : string) (args : list string)
    (verbose : bool) (env : option (list string)) (w : World) :
  let o := runTool program_ args verbose env w in
  (execs (final_world o) = execs w /\ returned o <> Some success)
  \/ execs (final_world o) = execs w ++ [started program_ args env].
Proof.
  unfold runTool, started. rewrite seq_run.
  destruct (announceRun_run (resolvedProgram program_) args verbose env w)
    as (w0 & Hann & _ & _ & _ & _ & Hex).
  rewrite Hann. rewrite <- Hex. clear Hann Hex.
  msimpl. repeat (case_match; msimpl).
  all: first
         [ left; split; [|discriminate];
           unfold execs, with_event; cbn; rewrite ?filter_app; cbn;
           rewrite ?app_nil_r; reflexivity
         | right;
           unfold execs, with_event; cbn; rewrite ?filter_app; cbn;
           rewrite ?app_nil_r; reflexivity ].
Qed.

Lemma runTool_success (program_ : string) (args : list string)
    (verbose : bool) (env : option (list string)) (w w' : World)
    (r : LogicalResult) :
  runTool program_ args verbose env w = Ret r w' -> failed r = false ->
  execs w' = execs w ++ [started program_ args env].
Proof.
  intros Hrun Hr. destruct r; [|discriminate].
  exact (runTool_success_exec _ _ _ _ _ _ Hrun).
Qed.

Lemma makeChessArgs_ret (vitisDir tempDir npuVersion : string)
    (verbose : bool) (w w' : World) (exe : string) (flags : list string) :
  makeChessArgs vitisDir tempDir npuVersion verbose w = Ret (exe, flags) w' ->
  w' = w
  /\ exe = vitisDir // "aietools" // "bin" // "unwrapped" // "lnx64.o"
             // "xchesscc"
  /\ forall w0, makeChessArgs vitisDir tempDir npuVersion verbose w0
                = Ret (exe, flags) w0.
Proof.
  unfold makeChessArgs. intros Hrun. msimpl.
  repeat (case_match; msimpl); auto.
Qed.

Lemma makeChessEnv_ret (vitisDir npuVersion : string) (w w' : World)
    (env : list string) :
  makeChessEnv vitisDir npuVersion w = Ret env w' ->
  w' = w /\ length env = 4%nat.
Proof.
  unfold makeChessEnv, reporting. intros Hrun. msimpl.
  repeat (case_match; msimpl); auto.
Qed.

End RunnerFacts.


Section AssemblerOnDemoPlatform.
#[local] Existing Instance Demo.platform.


End AssemblerOnDemoPlatform.

(** X19.  The log file of a run.  With the program present, when the
    temporary file that captures the output cannot be created [runTool]
    fails with a message and starts no process.  When it was created but
    cannot be read back after the process has ended (off Windows), the
    run stops on a string built from a null pointer, whatever the exit
    code was. *)
Theorem runTool_log_file `{Platform} (program_ : string) (args : list string)
    (verbose : bool) (env : option (list string)) (w : World) :
  let program := resolvedProgram program_ in
  let w0 := final_world (announceRun program args verbose env w) in
  is_Some (w_fs w !! program) ->
  match createTemporaryFile (host w0) "tmpRunTool" "Logging" with
  | inl errorCode =>
      runTool program_ args verbose env w
      = Ret failure
          (with_event
             (EvErr ("Failed to create temporary file: " +:+ errorCode
                       +:+ Str.of_char Str.newline)) w0)
      /\ execs w0 = execs w /\ w_fs w0 = w_fs w
  | inr temporaryPath =>
      let w1 :=
        with_fs (<[temporaryPath := File EmptyString]> (w_fs w0)) w0 in
      let stats :=
        ExecuteAndWait (host w1) program (program :: args) (envSmallVec env)
          (redirects temporaryPath) in
      win32 = false ->
      (forall captured,
          ex_fs stats !! temporaryPath <> Some (File captured)) ->
      runTool program_ args verbose env w
      = Abort NullString
          (with_fs (ex_fs stats)
             (with_event (EvExec program (program :: args) (envSmallVec env))
                w1))
  end.
Proof.
  intros program w0 Hprog.
  destruct (announceRun_run program args verbose env w)
    as (w0' & Hann & Hfs & _ & _ & _ & Hex).
  assert (w0 = w0') as -> by (unfold w0; now rewrite Hann).
  unfold runTool. fold program. rewrite seq_run, Hann. msimpl.
  rewrite <- Hfs in Hprog.
  rewrite bool_decide_eq_true_2 by assumption. cbn.
  destruct (createTemporaryFile (host w0') "tmpRunTool" "Logging")
    as [errorCode|temporaryPath]; cbn.
  - auto.
  - intros Hwin Hlost. rewrite Hwin. cbn.
    match goal with
    | |- context [ex_fs ?s !! temporaryPath] =>
        specialize (Hlost); destruct (ex_fs s !! temporaryPath) as [[c|]|] eqn:Hlog
    end; try reflexivity.
    exfalso. eapply Hlost. reflexivity.
Qed.

(** The theorem on a platform where no temporary file can be created,
    and on one where every process removes its log. *)
Lemma runTool_log_file_witness :
  (@runTool Cases.no_log_platform "/peano/bin/opt" ["--version"] false None
     Demo.world
   = Ret failure
       (with_event
          (EvErr ("Failed to create temporary file: " +:+ "Permission denied"
                    +:+ Str.of_char Str.newline)) Demo.world)
   /\ execs Demo.world = execs Demo.world
   /\ w_fs Demo.world = w_fs Demo.world)
  /\ exists w',
       @runTool Cases.lost_log_platform "/peano/bin/opt" ["--version"] false
         None Demo.world
       = Abort NullString w'.
Proof.
  split.
  - exact (@runTool_log_file Cases.no_log_platform "/peano/bin/opt"
             ["--version"] false None Demo.world
             ltac:(eexists; vm_compute; reflexivity)).
  - eexists.
    refine (@runTool_log_file Cases.lost_log_platform "/peano/bin/opt"
              ["--version"] false None Demo.world _ eq_refl _).
    + eexists. vm_compute. reflexivity.
    + intros captured. vm_compute. discriminate.
Defined.

(** ** Which processes a stage starts *)

Section ExecFrames.
Context `{Platform}.

Lemma preserves_ret_inv {X A} (f : World -> X) (m : M A) (w w' : World)
    (a : A) :
  preserves f m -> m w = Ret a w' -> f w' = f w.
Proof. intros Hm Hrun. specialize (Hm w). now rewrite Hrun in Hm. Qed.

Lemma execs_dumpStrToDisk (payload p : string) :
  preserves execs (dumpStrToDisk payload p).
Proof.
  apply preserves_dumpStrToDisk;
    first [reflexivity | apply execs_with_event].
Qed.

Lemma execs_dis_digits (n : nat) : preserves execs (Uuid.dis_digits n).
Proof.
  induction n as [|n IH]; [apply preserves_ret|].
  cbn [Uuid.dis_digits]. apply preserves_bind; [intros w; reflexivity|].
  intros d. apply preserves_bind; [exact IH|]. intros rest.
  apply preserves_ret.
Qed.

Lemma execs_getUUIDString : preserves execs Uuid.getUUIDString.
Proof.
  pose proof execs_dis_digits.
  unfold Uuid.getUUIDString.
  repeat (apply preserves_bind; [first [solve [auto] | intros w; reflexivity]|];
          intros ?).
  apply preserves_ret.
Qed.

Lemma execs_generatePDI (Output tempDir : string) :
  preserves execs (generatePDI Output tempDir).
Proof.
  pose proof (preserves_openOutputFile execs) as Hopen.
  pose proof (preserves_os_write execs) as Hwrite.
  unfold generatePDI.
  apply preserves_bind;
    [apply Hopen; first [reflexivity | apply execs_with_event]|].
  intros [msg|]; [frame|].
  apply preserves_seq;
    [apply Hwrite; first [reflexivity | apply execs_with_event]|].
  apply preserves_bind; [apply preserves_get|]. intros w0.
  destruct (bootgen_main _ _) as [status fs]. frame.
Qed.

Lemma execs_findAMDAIETool (toolName dir : string) :
  preserves execs (findAMDAIETool toolName dir).
Proof. unfold findAMDAIETool. frame. Qed.

Lemma execs_openInputFile (p : string) : preserves execs (openInputFile p).
Proof. unfold openInputFile. frame. Qed.

Lemma execs_mergePartition (tempDir : string) :
  preserves execs (Xclbin.mergePartition tempDir).
Proof.
  pose proof execs_openInputFile. pose proof execs_dumpStrToDisk.
  unfold Xclbin.mergePartition, Xclbin.partitionPDIs. frame.
Qed.

Lemma execs_generateCDO (tempDir : string) :
  preserves execs (generateCDO tempDir).
Proof. unfold generateCDO. frame. Qed.

Lemma execs_generateControlPackets (tempDir : string)
    (pm : PassManagerConfig) :
  preserves execs (generateControlPackets tempDir pm).
Proof.
  unfold generateControlPackets.
  apply preserves_bind; [apply preserves_get|]. intros w0.
  destruct (runControlPacketPasses _ _ _ _) as [r d]. frame.
Qed.

Lemma execs_copy_file (from to : string) : preserves execs (copy_file from to).
Proof. unfold copy_file. frame. Qed.

(** What [prepareXCLBin] has started when it hands over the command
    line of the last run. *)
Lemma prepareXCLBin_commands
    (Output tempDir xclBinKernelID xclBinKernelName xclBinInstanceName
       amdAIEInstallDir : string) (verbose : bool)
    (inputXclbin : option string) (w w' : World) (xclbinutil : string)
    (flags : list string) :
  Xclbin.prepareXCLBin Output tempDir xclBinKernelID xclBinKernelName
    xclBinInstanceName amdAIEInstallDir verbose inputXclbin w
  = Ret (Continue (xclbinutil, flags)) w' ->
  flags = xclbinutil_package Output tempDir inputXclbin
  /\ (exists w0, findAMDAIETool "iree-aie-xclbinutil" amdAIEInstallDir w0
                 = Ret (Some xclbinutil) w0)
  /\ execs w'
     = execs w
         ++ match inputXclbin with
            | Some input =>
                [started xclbinutil (xclbinutil_dump tempDir input) None]
            | None => []
            end.
Proof.
  intros Hrun. unfold Xclbin.prepareXCLBin in Hrun.
  minv Hrun.
  all: injection Hrun as <- <- <-.
  all: repeat match goal with
         | Hm : dumpStrToDisk _ _ _ = Ret _ _ |- _ =>
             apply (preserves_ret_inv execs _ _ _ _
                      (execs_dumpStrToDisk _ _)) in Hm
         | Hm : Uuid.getUUIDString _ = Ret _ _ |- _ =>
             apply (preserves_ret_inv execs _ _ _ _ execs_getUUIDString)
               in Hm
         | Hm : generatePDI _ _ _ = Ret _ _ |- _ =>
             apply (preserves_ret_inv execs _ _ _ _
                      (execs_generatePDI _ _)) in Hm
         | Hm : Xclbin.mergePartition _ _ = Ret _ _ |- _ =>
             apply (preserves_ret_inv execs _ _ _ _
                      (execs_mergePartition _)) in Hm
         end.
  all: match goal with
       | Hm : findAMDAIETool _ _ ?w0 = Ret (Some _) ?w1 |- _ =>
           assert (w1 = w0) as ->
             by (revert Hm; rewrite findAMDAIETool_first_candidate;
                 destruct (List.find _ _); congruence)
       end.
  all: split; [reflexivity|].
  all: split; [eauto|].
  - match goal with
    | Htool : runTool _ _ _ _ _ = Ret ?r _, Hr : failed ?r = false |- _ =>
        apply (fun H0 => runTool_success _ _ _ _ _ _ _ H0 Hr) in Htool
    end.
    unfold xclbinutil_dump. congruence.
  - rewrite app_nil_r. congruence.
Qed.

End ExecFrames.

Lemma generateXCLBin_run `{Platform}
    (Output tempDir xclBinKernelID xclBinKernelName xclBinInstanceName
       amdAIEInstallDir : string) (verbose : bool)
    (inputXclbin : option string) (w w' : World) :
  Xclbin.generateXCLBin Output tempDir xclBinKernelID xclBinKernelName
    xclBinInstanceName amdAIEInstallDir verbose inputXclbin w
  = Ret success w' ->
  exists xclbinutil,
    (exists w0, findAMDAIETool "iree-aie-xclbinutil" amdAIEInstallDir w0
                = Ret (Some xclbinutil) w0)
    /\ execs w'
       = execs w
           ++ match inputXclbin with
              | Some input =>
                  [started xclbinutil (xclbinutil_dump tempDir input) None]
              | None => []
              end
           ++ [started xclbinutil
                 (xclbinutil_package Output tempDir inputXclbin) None].
Proof.
  intros Hrun. unfold Xclbin.generateXCLBin in Hrun.
  apply bindM_ret_inv in Hrun as (p & w1 & Hprep & Hrun).
  destruct p as [[xclbinutil flags]|]; [|discriminate].
  destruct (prepareXCLBin_commands _ _ _ _ _ _ _ _ _ _ _ _ Hprep)
    as (-> & Htool & Hex).
  exists xclbinutil. split; [exact Htool|].
  rewrite (runTool_success_exec _ _ _ _ _ _ Hrun), Hex.
  now rewrite <- app_assoc.
Qed.


(** X7.  A successful [generateXCLBin] has started the packaging tool,
    and nothing else: once without a base container, with the arguments
    that add the memory topology, the kernel descriptor and the
    partition; twice with one, first in dump mode on the base container
    and then with [--input <base>] in place of the memory topology.  The
    tool is the one [findAMDAIETool] finds under the name
    [iree-aie-xclbinutil]. *)
Theorem generateXCLBin_commands `{Platform}
    (Output tempDir xclBinKernelID xclBinKernelName xclBinInstanceName
       amdAIEInstallDir : string) (verbose : bool)
    (inputXclbin : option string) (w w' : World) :
  Xclbin.generateXCLBin Output tempDir xclBinKernelID xclBinKernelName
    xclBinInstanceName amdAIEInstallDir verbose inputXclbin w
  = Ret success w' ->
  exists xclbinutil,
    (exists w0, findAMDAIETool "iree-aie-xclbinutil" amdAIEInstallDir w0
                = Ret (Some xclbinutil) w0)
    /\ execs w'
       = execs w
           ++ match inputXclbin with
              | Some input =>
                  [started xclbinutil (xclbinutil_dump tempDir input) None]
              | None => []
              end
           ++ [started xclbinutil
                 (xclbinutil_package Output tempDir inputXclbin) None].
Proof. apply generateXCLBin_run. Qed.

Section PackagerOnDemoPlatform.
#[local] Existing Instance Demo.platform.

(** The theorem at the demo world, without a base container. *)
Lemma generateXCLBin_commands_witness :
  let w' :=
    final_world
      (Xclbin.generateXCLBin "/out/module.xclbin" "/tmp/build" "0x101"
         "matmul" "inst0" "/install" false None Demo.world) in
  exists xclbinutil,
    (exists w0, findAMDAIETool "iree-aie-xclbinutil" "/install" w0
                = Ret (Some xclbinutil) w0)
    /\ execs w'
       = execs Demo.world ++ []
           ++ [started xclbinutil
                 (xclbinutil_package "/out/module.xclbin" "/tmp/build" None)
                 None].
Proof.
  intros w'.
  apply (generateXCLBin_commands "/out/module.xclbin" "/tmp/build" "0x101"
           "matmul" "inst0" "/install" false None Demo.world w').
  vm_compute. reflexivity.
Defined.

End PackagerOnDemoPlatform.

(** ** UnifiedObjectBuilder: the open backend *)

Section Unified.
Context `{Platform}.

Lemma final_bind {A B} (m : M A) (k : A -> M B) (w : World) :
  final_world (bindM m k w)
  = match m w with
    | Ret a w1 => final_world (k a w1)
    | Abort _ w1 => w1
    end.
Proof. rewrite bindM_run. now destruct (m w). Qed.

Lemma returned_bind {A B} (m : M A) (k : A -> M B) (w : World) :
  returned (bindM m k w)
  = match m w with
    | Ret a w1 => returned (k a w1)
    | Abort _ _ => None
    end.
Proof. rewrite bindM_run. now destruct (m w). Qed.

End Unified.

Lemma generateUnifiedObject_open_run `{Platform} (outputFile : string)
    (pm : PassManagerConfig) (verbose : bool) (tempDir : string)
    (vitisDir : option string) (targetArch peanoDir npuVersion
      additionalPeanoOptFlags : string) (w : World) :
  let o := generateUnifiedObject outputFile pm false verbose tempDir vitisDir
             targetArch peanoDir npuVersion additionalPeanoOptFlags w in
  w_device (final_world o) = w_device w
  /\ match OptFlags.makePeanoOptArgs (tempDir // "input.ll")
             (tempDir // "input.opt.ll") additionalPeanoOptFlags with
     | inl _ => returned o <> Some success /\ execs (final_world o) = execs w
     | inr peanoArgs =>
         let opt := started (peanoDir // "bin" // "opt") peanoArgs None in
         let llc := started (peanoDir // "bin" // "llc")
                      (llc_args tempDir targetArch outputFile) None in
         (returned o = Some success ->
          execs (final_world o) = execs w ++ [opt; llc])
         /\ (execs (final_world o) = execs w
             \/ execs (final_world o) = execs w ++ [opt]
             \/ execs (final_world o) = execs w ++ [opt; llc])
     end.
Proof.
  intros o. split.
  - subst o. unfold generateUnifiedObject.
    pose proof device_dumpStrToDisk. pose proof device_runTool.
    assert (forall r : string + list string,
               preserves w_device (reporting r))
      by (intros r; unfold reporting; frame).
    match goal with
    | |- w_device (final_world (?m w)) = _ =>
        assert (preserves w_device m) as Hm; [|apply Hm]
    end.
    frame.
  - assert (exists w0,
               o = (w1 <- Prim.get ;;
                    match runLoweringPasses pm false (w_device w1) with
                    | None => Prim.errs "Failed to lower to LLVM" ;;
                              Prim.ret failure
                    | Some moduleOpCopy =>
                        match translateModuleToLLVMIR moduleOpCopy with
                        | None =>
                            Prim.errs "Failed to translate module to LLVMIR" ;;
                            Prim.ret failure
                        | Some inputLLStr =>
                            maybeErr <- dumpStrToDisk inputLLStr
                                          (tempDir // "input.ll") ;;
                            match maybeErr with
                            | Some err =>
                                Prim.errs ("Failed to dump to disk input.ll"
                                             +:+ " because: " +:+ err) ;;
                                Prim.ret failure
                            | None =>
                                peanoArgs <-
                                  reporting
                                    (OptFlags.makePeanoOptArgs
                                       (tempDir // "input.ll")
                                       (tempDir // "input.opt.ll")
                                       additionalPeanoOptFlags) ;;
                                match peanoArgs with
                                | None =>
                                    Prim.errs "Failed to make peano opt args" ;;
                                    Prim.ret failure
                                | Some peanoArgs =>
                                    r <- runTool (peanoDir // "bin" // "opt")
                                           peanoArgs verbose None ;;
                                    if failed r then
                                      Prim.errs
                                        "Failed to optimize ll with peano" ;;
                                      Prim.ret failure
                                    else
                                      r <- runTool (peanoDir // "bin" // "llc")
                                             (llc_args tempDir targetArch
                                                outputFile)
                                             verbose None ;;
                                      if failed r then
                                        Prim.errs
                                          ("Failed to assemble ll with peano"
                                             +:+ Str.of_char Str.newline) ;;
                                        Prim.ret failure
                                      else Prim.ret success
                                end
                            end
                        end
                    end) w0
               /\ execs w0 = execs w) as (w0 & -> & <-).
    { subst o. unfold generateUnifiedObject. rewrite seq_run.
      destruct verbose; cbn; eexists; (split; [reflexivity|]);
        [apply execs_with_event|]; reflexivity. }
    rewrite bindM_run. cbn [Prim.get].
    destruct (runLoweringPasses pm false (w_device w0)) as [moduleOpCopy|].
    2:{ destruct (OptFlags.makePeanoOptArgs _ _ _); munfold; cbn;
          rewrite execs_with_event by reflexivity;
          [split; [discriminate | reflexivity]
          |split; [discriminate | auto]]. }
    destruct (translateModuleToLLVMIR moduleOpCopy) as [inputLLStr|].
    2:{ destruct (OptFlags.makePeanoOptArgs _ _ _); munfold; cbn;
          rewrite execs_with_event by reflexivity;
          [split; [discriminate | reflexivity]
          |split; [discriminate | auto]]. }
    rewrite bindM_run, dumpStrToDisk_run.
    destruct (openOutputFile_error (host w0) (tempDir // "input.ll")).
    { destruct (OptFlags.makePeanoOptArgs _ _ _); munfold; cbn;
        rewrite execs_with_event by reflexivity;
        [split; [discriminate | reflexivity]
        |split; [discriminate | auto]]. }
    set (w1 := with_fs _ w0).
    change (execs w0) with (execs w1). clearbody w1. clear w0.
    rewrite bindM_run. unfold reporting.
    destruct (OptFlags.makePeanoOptArgs _ _ _) as [msg|peanoArgs].
    { munfold. cbn. rewrite !execs_with_event by reflexivity.
      split; [discriminate | reflexivity]. }
    change (Prim.ret (Some peanoArgs) w1) with (Ret (Some peanoArgs) w1).
    cbv beta iota.
    rewrite bindM_run.
    pose proof (runTool_execs (peanoDir // "bin" // "opt") peanoArgs verbose
                  None w1) as Hopt.
    cbv zeta in Hopt.
    destruct (runTool (peanoDir // "bin" // "opt") peanoArgs verbose None w1)
      as [r w2|f w2] eqn:Hrun1; cbn [final_world returned] in *.
    2:{ split; [discriminate|].
        destruct Hopt as [[-> _]| ->]; auto. }
    destruct r; cbn [failed].
    2:{ munfold. cbn. rewrite execs_with_event by reflexivity.
        split; [discriminate|].
        destruct Hopt as [[-> _]| ->]; auto. }
    pose proof (runTool_success_exec _ _ _ _ _ _ Hrun1) as Hex1. clear Hopt.
    fold (started (peanoDir // "bin" // "opt") peanoArgs None) in Hex1.
    rewrite bindM_run.
    pose proof (runTool_execs (peanoDir // "bin" // "llc")
                  (llc_args tempDir targetArch outputFile) verbose None w2)
      as Hllc.
    cbv zeta in Hllc. rewrite Hex1 in Hllc.
    destruct (runTool (peanoDir // "bin" // "llc") _ verbose None w2)
      as [r w3|f w3] eqn:Hrun2; cbn [final_world returned] in *.
    2:{ split; [discriminate|].
        destruct Hllc as [[-> _]| ->]; rewrite <- ?app_assoc; auto. }
    destruct r; cbn [failed]; munfold; cbn.
    + rewrite (runTool_success_exec _ _ _ _ _ _ Hrun2), Hex1.
      rewrite <- app_assoc. auto.
    + rewrite execs_with_event by reflexivity.
      split; [discriminate|].
      destruct Hllc as [[-> _]| ->]; rewrite <- ?app_assoc; auto.
Qed.

(** X5.  [generateUnifiedObject] with the open backend never touches
    the device, and the only processes it starts are the optimizer [opt]
    and then the static compiler [llc] of the open toolchain: [llc] is
    started only after [opt] has been, a run that returns success has
    started both, [opt] with the arguments of [makePeanoOptArgs] and
    [llc] with [<tempDir>/input.opt.ll -O2 --march=<arch> ... -o
    <outputFile>]; and when the additional flags are refused no process
    is started at all. *)
Theorem generateUnifiedObject_open_backend `{Platform} (outputFile : string)
    (pm : PassManagerConfig) (verbose : bool) (tempDir : string)
    (vitisDir : option string) (targetArch peanoDir npuVersion
      additionalPeanoOptFlags : string) (w : World) :
  let o := generateUnifiedObject outputFile pm false verbose tempDir vitisDir
             targetArch peanoDir npuVersion additionalPeanoOptFlags w in
  w_device (final_world o) = w_device w
  /\ match OptFlags.makePeanoOptArgs (tempDir // "input.ll")
             (tempDir // "input.opt.ll") additionalPeanoOptFlags with
     | inl _ => returned o <> Some success /\ execs (final_world o) = execs w
     | inr peanoArgs =>
         let opt := started (peanoDir // "bin" // "opt") peanoArgs None in
         let llc := started (peanoDir // "bin" // "llc")
                      (llc_args tempDir targetArch outputFile) None in
         (returned o = Some success ->
          execs (final_world o) = execs w ++ [opt; llc])
         /\ (execs (final_world o) = execs w
             \/ execs (final_world o) = execs w ++ [opt]
             \/ execs (final_world o) = execs w ++ [opt; llc])
     end.
Proof. apply generateUnifiedObject_open_run. Qed.

(** ** CoreElfBuilder: the open backend *)

Section Linking.
Context `{Platform}.

Lemma execs_openOutputFile (p : string) : preserves execs (openOutputFile p).
Proof.
  apply preserves_openOutputFile;
    first [reflexivity | apply execs_with_event].
Qed.

Lemma execs_os_write (p s : string) : preserves execs (os_write p s).
Proof.
  apply preserves_os_write; first [reflexivity | apply execs_with_event].
Qed.

Lemma linkCoreWithPeano_run (objFile tempDir targetArch peanoDir : string)
    (verbose : bool) (ukernel : option string) (col row : Z)
    (elfFileName : string) (vitisDir vitisDir' : option string)
    (w w' : World) :
  ukernelRequested ukernel = false ->
  linkCoreWithPeano objFile tempDir targetArch peanoDir verbose ukernel col
    row elfFileName vitisDir None w
  = Ret (Continue vitisDir') w' ->
  vitisDir' = vitisDir
  /\ execs w'
     = execs w
         ++ [started (peanoDir // "bin" // "clang")
               ([ objFile;
                  "--target=" +:+ lower targetArch +:+ "-none-unknown-elf";
                  "-Wl,--gc-sections";
                  "-Wl,--orphan-handling=error";
                  "-Wl,-T," +:+ tempDir // (elfFileName +:+ ".ld");
                  "-o"; tempDir // elfFileName ]
                  ++ (if verbose then ["-v"] else [])) None].
Proof.
  intros Hnone Hrun. unfold linkCoreWithPeano in Hrun. rewrite Hnone in Hrun.
  apply bindM_ret_inv in Hrun as (err & w1 & Hopen & Hrun).
  apply (preserves_ret_inv execs _ _ _ _ (execs_openOutputFile _)) in Hopen.
  destruct err as [msg|]; [mcrush|].
  apply bindM_ret_inv in Hrun as (w1' & w1'' & Hget & Hrun).
  injection Hget as <- <-.
  destruct (AIETranslateToLdScript (w_device w1) col row) as [script|];
    [|mcrush].
  apply seq_ret_inv in Hrun as (? & w2 & Hwrite & Hrun).
  apply (preserves_ret_inv execs _ _ _ _ (execs_os_write _ _)) in Hwrite.
  apply bindM_ret_inv in Hrun as (mm & w3 & Hmm & Hrun).
  injection Hmm as <- <-.
  apply bindM_ret_inv in Hrun as (r & w4 & Htool & Hrun).
  destruct r; cbn [failed] in Hrun; [|discriminate].
  injection Hrun as <- <-.
  split; [reflexivity|].
  rewrite (runTool_success_exec _ _ _ _ _ _ Htool). unfold started.
  cbn [app]. congruence.
Qed.

Lemma coreElfFile_open_run (objFile tempDir targetArch : string)
    (verbose : bool) (peanoDir npuVersion : string)
    (ukernel : option string) (files : string * string * string) (i : nat)
    (vitisDir vitisDir' : option string) (w w' : World) :
  ukernelRequested ukernel = false ->
  coreElfFile objFile tempDir false targetArch verbose peanoDir npuVersion
    ukernel files i vitisDir w
  = Ret (Continue vitisDir') w' ->
  vitisDir' = vitisDir
  /\ execs w'
     = execs w
         ++ option_list
              (link_at objFile tempDir targetArch peanoDir verbose
                 (w_device w) i).
Proof.
  intros Hnone Hrun. unfold coreElfFile in Hrun. unfold link_at.
  rewrite bindM_run in Hrun. cbn [Prim.get] in Hrun.
  destruct (IR.tiles (w_device w) !! i) as [t|]; cbn [mbind option_bind].
  2:{ injection Hrun as <- <-. now rewrite app_nil_r. }
  destruct (IR.core t) as [c|]; cbn [mbind option_bind option_list].
  2:{ injection Hrun as <- <-. now rewrite app_nil_r. }
  rewrite bindM_run, coreElfFileName_run in Hrun.
  set (w1 := match IR.elf_file c with Some _ => w | None => _ end) in Hrun.
  assert (execs w1 = execs w) as <-
    by (subst w1; now destruct (IR.elf_file c)).
  rewrite bindM_run in Hrun. cbn [Prim.current_path] in Hrun.
  rewrite bindM_run in Hrun. unfold ukernelObject in Hrun.
  destruct files as [[content name] object]. rewrite Hnone in Hrun.
  cbn [Prim.ret] in Hrun.
  apply linkCoreWithPeano_run in Hrun as [-> ->]; [|exact Hnone].
  split; [reflexivity|]. unfold clang_link, clang_args, elf_name. cbn [fst snd].
  reflexivity.
Qed.

(** Naming a core does not change the command line of any core. *)
Lemma link_at_name_tile (objFile tempDir targetArch peanoDir : string)
    (verbose : bool) (d : IR.DeviceOp) (j i : nat) :
  link_at objFile tempDir targetArch peanoDir verbose (name_tile j d) i
  = link_at objFile tempDir targetArch peanoDir verbose d i.
Proof.
  unfold name_tile.
  destruct (IR.tiles d !! j) as [t|] eqn:Hj; [|reflexivity].
  destruct (IR.core t) as [c|] eqn:Hc; [|reflexivity].
  destruct (IR.elf_file c) as [f|] eqn:Hf; [reflexivity|].
  unfold link_at, IR.setElfFile. cbn [IR.tiles].
  destruct (decide (i = j)) as [->|Hne].
  - rewrite list_lookup_alter_eq, Hj. cbn. rewrite Hc. cbn.
    unfold clang_link, clang_args, elf_name. cbn. now rewrite Hf.
  - now rewrite list_lookup_alter_ne by congruence.
Qed.

Lemma forTiles_open_run (objFile tempDir targetArch : string)
    (verbose : bool) (peanoDir npuVersion : string)
    (ukernel : option string) (files : string * string * string) :
  ukernelRequested ukernel = false ->
  forall (idxs : list nat) (vitisDir : option string) (w w' : World),
    forTiles
      (coreElfFile objFile tempDir false targetArch verbose peanoDir
         npuVersion ukernel files) idxs vitisDir w
    = Ret success w' ->
    execs w'
    = execs w
        ++ omap (link_at objFile tempDir targetArch peanoDir verbose
                   (w_device w)) idxs.
Proof.
  intros Hnone. induction idxs as [|i idxs IH]; intros v w w' Hrun.
  - injection Hrun as <-. cbn. now rewrite app_nil_r.
  - cbn [forTiles] in Hrun.
    apply bindM_ret_inv in Hrun as (f & w1 & Hbody & Hrun).
    destruct f as [v1|]; [|discriminate].
    pose proof (coreElfFile_device objFile tempDir false targetArch verbose
                  peanoDir npuVersion ukernel files i v w) as Hdev.
    rewrite Hbody in Hdev. cbn [final_world] in Hdev.
    apply coreElfFile_open_run in Hbody as [-> Hex]; [|exact Hnone].
    rewrite (IH _ _ _ Hrun), Hex, Hdev, <- app_assoc. f_equal.
    cbn [omap list_omap].
    rewrite (list_omap_ext _ (link_at objFile tempDir targetArch peanoDir
                                verbose (w_device w)) idxs idxs).
    + now destruct (link_at _ _ _ _ _ (w_device w) i).
    + apply Forall2_same_length_lookup_2; [reflexivity|].
      intros k x y Hx Hy. rewrite Hx in Hy. injection Hy as <-.
      apply link_at_name_tile.
Qed.

Lemma omap_lookup_seq {A B} (g : A -> option B) (l0 l : list A) :
  omap (fun i => (l0 ++ l) !! i ≫= g) (seq (length l0) (length l))
  = omap g l.
Proof.
  revert l0. induction l as [|x l IH]; intros l0; [reflexivity|].
  cbn [length seq omap list_omap].
  rewrite list_lookup_middle by reflexivity. cbn [mbind option_bind].
  replace (l0 ++ x :: l) with ((l0 ++ [x]) ++ l) by now rewrite <- app_assoc.
  specialize (IH (l0 ++ [x])). rewrite length_app, Nat.add_1_r in IH.
  now rewrite IH.
Qed.

Lemma link_at_cores (objFile tempDir targetArch peanoDir : string)
    (verbose : bool) (d : IR.DeviceOp) :
  omap (link_at objFile tempDir targetArch peanoDir verbose d)
    (seq 0 (length (IR.tiles d)))
  = map (clang_link objFile tempDir targetArch peanoDir verbose) (cores d).
Proof.
  unfold cores.
  transitivity
    (omap (fun t => c ← IR.core t;
                    Some (clang_link objFile tempDir targetArch peanoDir
                            verbose (t, c))) (IR.tiles d)).
  - exact (omap_lookup_seq _ [] (IR.tiles d)).
  - induction (IR.tiles d) as [|t l IH]; [reflexivity|].
    cbn [omap list_omap]. rewrite IH.
    now destruct (IR.core t).
Qed.

Lemma ukernelFiles_recognized (npuVersion : string) :
  is_Some (ukernelFiles npuVersion) <-> recognized npuVersion = true.
Proof.
  unfold ukernelFiles, recognized.
  destruct (String.eqb npuVersion "npu1"); [split; eauto|].
  destruct (String.eqb npuVersion "npu4"); [split; eauto|].
  split; [intros [? ?]; discriminate | discriminate].
Qed.

End Linking.

Lemma generateCoreElfFiles_open_run `{Platform}
    (objFile tempDir : string) (vitisDir : option string)
    (targetArch : string) (verbose : bool) (peanoDir npuVersion : string)
    (ukernel : option string) (w w' : World) :
  ukernelRequested ukernel = false ->
  generateCoreElfFiles objFile tempDir false vitisDir targetArch verbose
    peanoDir npuVersion ukernel w
  = Ret success w' ->
  execs w'
  = execs w
      ++ map (clang_link objFile tempDir targetArch peanoDir verbose)
           (cores (w_device w)).
Proof.
  intros Hnone Hrun. unfold generateCoreElfFiles in Hrun.
  rewrite bindM_run in Hrun. cbn [Prim.get] in Hrun.
  destruct (ukernelFiles npuVersion) as [files|]; [|mcrush].
  rewrite (forTiles_open_run _ _ _ _ _ _ _ _ Hnone _ _ _ _ Hrun).
  now rewrite link_at_cores.
Qed.

(** X3.  With the open backend and no microkernel, a successful
    [generateCoreElfFiles] has started the linker driver [clang] of the
    open toolchain once for every tile that has a core, in the order of
    the tiles, and nothing else.  The run for a core is given the unified
    object, the target, the linker script [<tempDir>/<name>.ld] written
    for it and the output [<tempDir>/<name>], where [<name>] is the ELF
    name of the core, and [-v] when verbose. *)
Theorem generateCoreElfFiles_open_backend_links `{Platform}
    (objFile tempDir : string) (vitisDir : option string)
    (targetArch : string) (verbose : bool) (peanoDir npuVersion : string)
    (ukernel : option string) (w w' : World) :
  ukernelRequested ukernel = false ->
  generateCoreElfFiles objFile tempDir false vitisDir targetArch verbose
    peanoDir npuVersion ukernel w
  = Ret success w' ->
  execs w'
  = execs w
      ++ map (clang_link objFile tempDir targetArch peanoDir verbose)
           (cores (w_device w)).
Proof. apply generateCoreElfFiles_open_run. Qed.

Section LinkingOnDemoPlatform.
#[local] Existing Instance Demo.platform.

(** The theorem at the demo device, which has two cores. *)
Lemma generateCoreElfFiles_open_backend_links_witness :
  let w' :=
    final_world
      (generateCoreElfFiles "/tmp/build/input.o" "/tmp/build" false None
         "AIE2" false "/peano" "npu1" None Demo.world) in
  execs w'
  = execs Demo.world
      ++ map (clang_link "/tmp/build/input.o" "/tmp/build" "AIE2" "/peano"
                false)
           (cores (w_device Demo.world)).
Proof.
  intros w'.
  apply (generateCoreElfFiles_open_backend_links "/tmp/build/input.o"
           "/tmp/build" None "AIE2" false "/peano" "npu1" None Demo.world w').
  - reflexivity.
  - vm_compute. reflexivity.
Defined.

End LinkingOnDemoPlatform.

(** X4.  The hardware family is checked before any tile is looked at:
    for a family other than [npu1] and [npu4], [generateCoreElfFiles]
    fails with the one message and does nothing else, whatever the
    device.  For a recognized family and a device none of whose tiles
    has a core, it succeeds and leaves the world exactly as it was: no
    file is written, no toolchain is looked for and no process is
    started, whichever backend is selected and even when a microkernel
    is requested. *)
Theorem generateCoreElfFiles_without_cores `{Platform}
    (objFile tempDir : string) (useChess : bool) (vitisDir : option string)
    (targetArch : string) (verbose : bool) (peanoDir npuVersion : string)
    (ukernel : option string) (w : World) :
  (recognized npuVersion = false ->
   generateCoreElfFiles objFile tempDir useChess vitisDir targetArch verbose
     peanoDir npuVersion ukernel w
   = Ret failure
       (with_event (EvErr ("unsupported NPU version: " +:+ npuVersion)) w))
  /\ (recognized npuVersion = true ->
      Forall (fun t => IR.core t = None) (IR.tiles (w_device w)) ->
      generateCoreElfFiles objFile tempDir useChess vitisDir targetArch
        verbose peanoDir npuVersion ukernel w
      = Ret success w).
Proof.
  unfold generateCoreElfFiles. rewrite bindM_run. cbn [Prim.get].
  pose proof (ukernelFiles_recognized npuVersion) as Hfiles.
  split.
  - intros Hno. destruct (ukernelFiles npuVersion) as [files|]; [|reflexivity].
    destruct Hfiles as [Hyes _]. rewrite Hyes in Hno by eauto. discriminate.
  - intros Hyes Hbare. destruct Hfiles as [_ Hsome].
    destruct (Hsome Hyes) as [files ->].
    generalize (seq 0 (length (IR.tiles (w_device w)))). intros idxs.
    induction idxs as [|i idxs IH]; [reflexivity|].
    cbn [forTiles]. rewrite bindM_run.
    assert (coreElfFile objFile tempDir useChess targetArch verbose peanoDir
              npuVersion ukernel files i vitisDir w
            = Ret (Continue vitisDir) w) as ->; [|exact IH].
    unfold coreElfFile. rewrite bindM_run. cbn [Prim.get].
    destruct (IR.tiles (w_device w) !! i) as [t|] eqn:Hi; [|reflexivity].
    rewrite Forall_forall in Hbare.
    rewrite (Hbare t) by (eapply list_elem_of_lookup_2, Hi). reflexivity.
Qed.

Section BareOnDemoPlatform.
#[local] Existing Instance Demo.platform.

(** The theorem at a device with two tiles and no core, with the vendor
    backend and a microkernel asked for and no vendor toolchain
    installed; and at a family that is not recognized. *)
Lemma generateCoreElfFiles_without_cores_witness :
  generateCoreElfFiles "/tmp/build/input.o" "/tmp/build" true None "AIE2"
    false "/peano" "npu4" (Some "mm") Cases.bare_world
  = Ret success Cases.bare_world
  /\ generateCoreElfFiles "/tmp/build/input.o" "/tmp/build" false None "AIE2"
       false "/peano" "npu2" None Demo.world
     = Ret failure
         (with_event (EvErr ("unsupported NPU version: " +:+ "npu2"))
            Demo.world).
Proof.
  split.
  - apply (proj2 (generateCoreElfFiles_without_cores "/tmp/build/input.o"
                    "/tmp/build" true None "AIE2" false "/peano" "npu4"
                    (Some "mm") Cases.bare_world)).
    + reflexivity.
    + repeat constructor.
  - apply (proj1 (generateCoreElfFiles_without_cores "/tmp/build/input.o"
                    "/tmp/build" false None "AIE2" false "/peano" "npu2"
                    None Demo.world)).
    reflexivity.
Defined.

End BareOnDemoPlatform.

(** ** The instruction dump: how it fails *)

Section DumpFailure.
Context `{Platform}.

Lemma last_with_event (e : Event) (w : World) :
  last (w_trace (with_event e w)) = Some e.
Proof. unfold with_event. cbn. apply last_snoc. Qed.

Lemma emitNpuInstructions_failure_inv (outputNPU : string) (w w' : World) :
  emitNpuInstructions outputNPU w = Ret failure w' ->
  (IR.npu_instructions (w_device w) = None
   /\ w' = with_event
             (EvDiag "Expected npu_instructions attribute on aie.device") w)
  \/ (IR.npu_instructions (w_device w) = Some IR.OtherAttr
      /\ w' = with_event
                (EvDiag ("Failed to cast npu_instructions to "
                           +:+ "DenseUI32ResourceElementsAttr")) w)
  \/ (exists a errorMessage,
         IR.npu_instructions (w_device w)
           = Some (IR.DenseUI32ResourceElementsAttr (Some a))
         /\ openOutputFile_error (host w) outputNPU = Some errorMessage
         /\ w' = with_event
                   (EvErr ("Failed to open npu_instructions.txt for writing "
                             +:+ "because: " +:+ errorMessage
                             +:+ Str.of_char Str.newline)) w).
Proof.
  intros Hrun. unfold emitNpuInstructions in Hrun.
  rewrite bindM_run in Hrun. cbn [Prim.get] in Hrun.
  destruct (IR.npu_instructions (w_device w)) as [[[a|]|]|].
  - right. right. exists a.
    rewrite bindM_run in Hrun.
    destruct (openOutputFile_error (host w) outputNPU) as [msg|] eqn:Hopen.
    + exists msg. unfold openOutputFile in Hrun. msimpl.
      rewrite Hopen in Hrun. msimpl. auto.
    + exfalso. rewrite (openOutputFile_run _ _ Hopen) in Hrun.
      rewrite seq_run in Hrun.
      destruct (emitWords _ _ _ _ _) as [[] w1|f w1]; [|discriminate].
      destruct (ArrayRef.back a); [|discriminate].
      unfold os_write in Hrun. mcrush.
  - discriminate.
  - right. left. msimpl. auto.
  - left. msimpl. auto.
Qed.

End DumpFailure.

(** X12.  [emitNpuInstructions] returns failure in three cases only, and
    then it has written the one message and changed nothing else, so
    that no file has been created or emptied: the device has no
    [npu_instructions] attribute; the attribute is not a
    [DenseUI32ResourceElementsAttr]; the output file cannot be opened.
    Once the file is open the function succeeds or stops. *)
Theorem emitNpuInstructions_failure `{Platform} (outputNPU : string)
    (w w' : World) :
  emitNpuInstructions outputNPU w = Ret failure w' ->
  (exists e, w' = with_event e w /\ is_report e = true)
  /\ w_fs w' = w_fs w
  /\ (IR.npu_instructions (w_device w) = None
      \/ IR.npu_instructions (w_device w) = Some IR.OtherAttr
      \/ is_Some (openOutputFile_error (host w) outputNPU)).
Proof.
  intros Hrun.
  destruct (emitNpuInstructions_failure_inv _ _ _ Hrun)
    as [[Hattr ->]|[[Hattr ->]|(a & msg & Hattr & Hopen & ->)]].
  - split; [eexists; split; reflexivity|]. auto.
  - split; [eexists; split; reflexivity|]. auto.
  - split; [eexists; split; reflexivity|]. split; [reflexivity|].
    right. right. rewrite Hopen. eauto.
Qed.

Section DumpFailureOnDemoPlatform.
#[local] Existing Instance Demo.platform.

(** The theorem at a device without the attribute. *)
Lemma emitNpuInstructions_failure_witness :
  w_fs (final_world
          (emitNpuInstructions "/out/npu_instructions.txt" Cases.bare_world))
  = w_fs Cases.bare_world.
Proof.
  apply (emitNpuInstructions_failure "/out/npu_instructions.txt"
           Cases.bare_world).
  vm_compute. reflexivity.
Defined.

End DumpFailureOnDemoPlatform.

(** ** The instruction dump: the index *)

Section IndexOverflow.
Context `{Platform}.

Lemma os_write_returns (p s : string) (w : World) :
  exists w', os_write p s w = Ret tt w'.
Proof. unfold os_write. msimpl. repeat case_match; eauto. Qed.

(** With more than [2^31] words the loop reaches the largest [int]
    and increments it. *)
Lemma emitWords_overflow (out : string) (a : list Z) :
  2 ^ 31 < ArrayRef.size a < 2 ^ 64 ->
  forall (k : nat) (i : Z) (fuel : nat) (w : World),
    0 <= i -> i + Z.of_nat k = INT_MAX -> (k < fuel)%nat ->
    exists w', emitWords fuel out a i w = Abort SignedOverflow w'.
Proof.
  intros Hsize. unfold INT_MAX.
  induction k as [|k IH]; intros i fuel w Hi Hk Hfuel;
    (destruct fuel as [|fuel]; [lia|]); cbn [emitWords].
  all: rewrite (to_size_t_small i) by lia.
  all: rewrite (to_size_t_small (ArrayRef.size a - 1)) by lia.
  all: destruct (Z.ltb_spec i (ArrayRef.size a - 1)) as [_|]; [|lia].
  all: unfold ArrayRef.get.
  all: destruct (Z.leb_spec 0 i) as [_|]; [|lia].
  all: destruct (Z.ltb_spec i (ArrayRef.size a)) as [Hlt|]; [|lia].
  all: cbn [andb].
  all: destruct (lookup_lt_is_Some_2 a (Z.to_nat i)) as [word ->];
    [unfold ArrayRef.size in Hlt; lia|].
  all: rewrite seq_run.
  all: destruct (os_write_returns out
                   (Hex.format_08X word +:+ Str.of_char Str.newline) w)
    as [w1 ->].
  - unfold INT_MAX. destruct (Z.eqb_spec i (2 ^ 31 - 1)); [eauto | lia].
  - unfold INT_MAX. destruct (Z.eqb_spec i (2 ^ 31 - 1)); [lia|].
    apply IH; lia.
Qed.

End IndexOverflow.

(** X13.  The loop of [emitNpuInstructions] counts with an [int].  When
    the attribute holds more than [2^31] words (and fewer than [2^64]),
    and the output file opens, the run writes [2^31] lines and then
    stops on the increment of the largest [int]: no such dump ever
    returns. *)
Theorem emitNpuInstructions_index_overflow `{Platform} (outputNPU : string)
    (a : list Z) (w : World) :
  IR.npu_instructions (w_device w)
    = Some (IR.DenseUI32ResourceElementsAttr (Some a)) ->
  openOutputFile_error (host w) outputNPU = None ->
  2 ^ 31 < ArrayRef.size a < 2 ^ 64 ->
  exists w', emitNpuInstructions outputNPU w = Abort SignedOverflow w'.
Proof.
  intros Hattr Hopen Hsize.
  unfold emitNpuInstructions. rewrite bindM_run. cbn [Prim.get].
  rewrite Hattr. rewrite bindM_run, (openOutputFile_run _ _ Hopen).
  rewrite seq_run.
  destruct (emitWords_overflow outputNPU a Hsize (Z.to_nat INT_MAX) 0
              (S (length a))
              (with_fs (<[outputNPU := File EmptyString]> (w_fs w)) w))
    as [w' ->].
  - lia.
  - unfold INT_MAX. lia.
  - unfold ArrayRef.size, INT_MAX in *. lia.
  - eauto.
Qed.

Section IndexOverflowOnDemoPlatform.
#[local] Existing Instance Demo.platform.

(** The theorem at a device with [2^31 + 1] words. *)
Lemma emitNpuInstructions_index_overflow_witness :
  exists w',
    emitNpuInstructions "/out/npu_instructions.txt" Cases.long_world
    = Abort SignedOverflow w'.
Proof.
  apply (emitNpuInstructions_index_overflow "/out/npu_instructions.txt"
           (replicate (Z.to_nat 2147483649) 0) Cases.long_world).
  - reflexivity.
  - reflexivity.
  - unfold ArrayRef.size. rewrite length_replicate, Z2Nat.id by lia.
    split; reflexivity.
Defined.

End IndexOverflowOnDemoPlatform.

(** ** Orchestrator *)

Section Pipeline.
Context `{Platform}.

(** The stages of a successful run, in order. *)
Lemma aie2xclbin_success_inv (c : Config) (w w' : World) :
  aie2xclbin c w = Ret success w' ->
  exists w1 w2 w3 w4 w5 w6,
    emitRequestedInstructions c w = Ret success w1
    /\ generateUnifiedObject (tempDir c // "input.o") (passManager c)
         (useChess c) (verbose c) (tempDir c) (vitisDir c) (targetArch c)
         (peanoDir c) (npuVersion c) (additionalPeanoOptFlags c) w1
       = Ret success w2
    /\ generateCoreElfFiles (tempDir c // "input.o") (tempDir c)
         (useChess c) (vitisDir c) (targetArch c) (verbose c) (peanoDir c)
         (npuVersion c) (ukernel c) w2
       = Ret success w3
    /\ (if emitCtrlPkt c
        then generateControlPackets (tempDir c) (passManager c)
        else Prim.ret success) w3 = Ret success w4
    /\ generateCDO (tempDir c) w4 = Ret success w5
    /\ generatePDI (tempDir c // "design.pdi") (tempDir c) w5
       = Ret success w6
    /\ match deviceHal c with
       | XRT_LITE =>
           copy_file (tempDir c // "design.pdi") (artifactPath c) w6
           = Ret None w'
       | XRT =>
           Xclbin.generateXCLBin (artifactPath c) (tempDir c)
             (xclBinKernelID c) (xclBinKernelName c) (xclBinInstanceName c)
             (amdAIEInstallDir c) (verbose c) (InputXCLBin c) w6
           = Ret success w'
       end.
Proof.
  intros Hrun. unfold aie2xclbin in Hrun.
  apply bindM_ret_inv in Hrun as ([|] & w1 & H1 & Hrun);
    cbn [failed] in Hrun; [|discriminate].
  apply bindM_ret_inv in Hrun as ([|] & w2 & H2 & Hrun);
    cbn [failed] in Hrun; [|mcrush].
  apply bindM_ret_inv in Hrun as ([|] & w3 & H3 & Hrun);
    cbn [failed] in Hrun; [|mcrush].
  apply bindM_ret_inv in Hrun as ([|] & w4 & H4 & Hrun);
    cbn [failed] in Hrun; [|mcrush].
  apply bindM_ret_inv in Hrun as ([|] & w5 & H5 & Hrun);
    cbn [failed] in Hrun; [|mcrush].
  apply bindM_ret_inv in Hrun as ([|] & w6 & H6 & Hrun);
    cbn [failed] in Hrun; [|mcrush].
  exists w1, w2, w3, w4, w5, w6. repeat (split; [assumption|]).
  destruct (deviceHal c).
  - apply bindM_ret_inv in Hrun as ([|] & w7 & H7 & Hrun);
      cbn [failed] in Hrun; [|mcrush].
    now injection Hrun as <-.
  - apply bindM_ret_inv in Hrun as ([msg|] & w7 & H7 & Hrun); [mcrush|].
    now injection Hrun as <-.
Qed.

Lemma copy_file_inv (from to : string) (w w' : World) :
  copy_file from to w = Ret None w' ->
  exists content,
    w_fs w !! from = Some (File content)
    /\ w' = with_fs (<[to := File content]> (w_fs w)) w.
Proof.
  unfold copy_file. intros Hrun. msimpl.
  repeat (case_match; msimpl). eauto.
Qed.

Lemma device_emitRequestedInstructions (c : Config) :
  preserves w_device (emitRequestedInstructions c).
Proof.
  unfold emitRequestedInstructions. destruct (outputNPU c).
  - apply preserves_emitNpuInstructions; reflexivity.
  - apply preserves_ret.
Qed.

End Pipeline.

(** X8.  For the lighter runtime ([XRT_LITE]) the artifact of a
    successful [aie2xclbin] is the boot image: the run ends by copying
    [<tempDir>/design.pdi], as the boot-image generator left it, to the
    artifact path, replacing what was there; nothing else changes after
    the generator has returned, and the packaging tool is neither looked
    for nor started. *)
Theorem aie2xclbin_lite_artifact `{Platform} (c : Config) (w w' : World) :
  deviceHal c = XRT_LITE ->
  aie2xclbin c w = Ret success w' ->
  exists w5 w6 content,
    generatePDI (tempDir c // "design.pdi") (tempDir c) w5 = Ret success w6
    /\ w_fs w6 !! (tempDir c // "design.pdi") = Some (File content)
    /\ w' = with_fs (<[artifactPath c := File content]> (w_fs w6)) w6
    /\ w_fs w' !! artifactPath c = Some (File content).
Proof.
  intros Hhal Hrun.
  destruct (aie2xclbin_success_inv _ _ _ Hrun)
    as (w1 & w2 & w3 & w4 & w5 & w6 & _ & _ & _ & _ & _ & Hpdi & Hcopy).
  rewrite Hhal in Hcopy.
  destruct (copy_file_inv _ _ _ _ Hcopy) as (content & Hfrom & ->).
  exists w5, w6, content. split; [exact Hpdi|]. split; [exact Hfrom|].
  split; [reflexivity|]. cbn. apply lookup_insert_eq.
Qed.

Section LiteOnDemoPlatform.
#[local] Existing Instance Demo.platform.

(** The theorem at the demo world. *)
Lemma aie2xclbin_lite_artifact_witness :
  let w' := final_world (aie2xclbin Cases.lite_config Demo.world) in
  exists w5 w6 content,
    generatePDI (tempDir Cases.lite_config // "design.pdi")
      (tempDir Cases.lite_config) w5 = Ret success w6
    /\ w_fs w6 !! (tempDir Cases.lite_config // "design.pdi")
       = Some (File content)
    /\ w' = with_fs (<[artifactPath Cases.lite_config := File content]>
                       (w_fs w6)) w6
    /\ w_fs w' !! artifactPath Cases.lite_config = Some (File content).
Proof.
  intros w'.
  apply (aie2xclbin_lite_artifact Cases.lite_config Demo.world w').
  - reflexivity.
  - vm_compute. reflexivity.
Defined.

End LiteOnDemoPlatform.

(** ** What a failed run reports *)

Section Reported.
Context `{Platform}.

Lemma aie2xclbin_failure_inv (c : Config) (w w' : World) :
  aie2xclbin c w = Ret failure w' ->
  exists e w0, w' = with_event e w0 /\ is_report e = true.
Proof.
  intros Hrun. unfold aie2xclbin in Hrun.
  apply bindM_ret_inv in Hrun as ([|] & w1 & H1 & Hrun);
    cbn [failed] in Hrun.
  2:{ injection Hrun as <-. unfold emitRequestedInstructions in H1.
      destruct (outputNPU c); [|discriminate].
      destruct (emitNpuInstructions_failure_inv _ _ _ H1)
        as [[_ ->]|[[_ ->]|(a & msg & _ & _ & ->)]]; eauto. }
  do 5 (apply bindM_ret_inv in Hrun as ([|] & ? & _ & Hrun);
        cbn [failed] in Hrun; [|msimpl; eauto]).
  destruct (deviceHal c).
  - apply bindM_ret_inv in Hrun as ([|] & ? & _ & Hrun);
      cbn [failed] in Hrun; [discriminate | msimpl; eauto].
  - apply bindM_ret_inv in Hrun as ([msg|] & ? & _ & Hrun);
      [msimpl; eauto | discriminate].
Qed.

End Reported.

(** X9.  [aie2xclbin] never fails silently: when it returns failure,
    the last thing it did was to write a message to [llvm::errs()] or to
    emit a diagnostic. *)
Theorem aie2xclbin_failure_reported `{Platform} (c : Config) (w w' : World) :
  aie2xclbin c w = Ret failure w' ->
  exists e, last (w_trace w') = Some e /\ is_report e = true.
Proof.
  intros Hrun.
  destruct (aie2xclbin_failure_inv _ _ _ Hrun) as (e & w0 & -> & He).
  exists e. split; [apply last_with_event | exact He].
Qed.

Section ReportedOnDemoPlatform.
#[local] Existing Instance Demo.platform.

(** The theorem at the demo world with the vendor backend selected,
    where there is no vendor toolchain. *)
Lemma aie2xclbin_failure_reported_witness :
  exists e,
    last (w_trace (final_world (aie2xclbin Demo.chess_config Demo.world)))
    = Some e
    /\ is_report e = true.
Proof.
  apply (aie2xclbin_failure_reported Demo.chess_config Demo.world).
  vm_compute. reflexivity.
Defined.

End ReportedOnDemoPlatform.

(** ** The processes of a whole run *)

(** X1.  A successful [aie2xclbin] with the open backend and no
    microkernel has started, in this order and nothing else: the
    optimizer [opt] with the arguments of [makePeanoOptArgs]; the static
    compiler [llc], producing [<tempDir>/input.o]; the linker driver
    [clang] once for every tile of the device that has a core, in the
    order of the tiles; and then, for the full runtime only, the
    packaging tool, once, or twice when a base container is given.  The
    boot-image generator is embedded and is no process. *)
Theorem aie2xclbin_open_backend_processes `{Platform} (c : Config)
    (w w' : World) :
  useChess c = false ->
  ukernelRequested (ukernel c) = false ->
  aie2xclbin c w = Ret success w' ->
  exists peanoArgs packaging,
    OptFlags.makePeanoOptArgs (tempDir c // "input.ll")
      (tempDir c // "input.opt.ll") (additionalPeanoOptFlags c)
    = inr peanoArgs
    /\ execs w'
       = execs w
           ++ [ started (peanoDir c // "bin" // "opt") peanoArgs None;
                started (peanoDir c // "bin" // "llc")
                  (llc_args (tempDir c) (targetArch c)
                     (tempDir c // "input.o")) None ]
           ++ map (clang_link (tempDir c // "input.o") (tempDir c)
                     (targetArch c) (peanoDir c) (verbose c))
                (cores (w_device w))
           ++ packaging
    /\ match deviceHal c with
       | XRT_LITE => packaging = []
       | XRT =>
           exists xclbinutil,
             packaging
             = match InputXCLBin c with
               | Some input =>
                   [started xclbinutil (xclbinutil_dump (tempDir c) input)
                      None]
               | None => []
               end
                 ++ [started xclbinutil
                       (xclbinutil_package (artifactPath c) (tempDir c)
                          (InputXCLBin c)) None]
       end.
Proof.
  intros Hopen Hnone Hrun.
  destruct (aie2xclbin_success_inv _ _ _ Hrun)
    as (w1 & w2 & w3 & w4 & w5 & w6 & H1 & H2 & H3 & H4 & H5 & H6 & H7).
  rewrite Hopen in H2, H3.
  pose proof (preserves_ret_inv execs _ _ _ _
                (execs_emitRequestedInstructions c) H1) as E1.
  pose proof (preserves_ret_inv w_device _ _ _ _
                (device_emitRequestedInstructions c) H1) as D1.
  pose proof (generateUnifiedObject_open_run (tempDir c // "input.o")
                (passManager c) (verbose c) (tempDir c) (vitisDir c)
                (targetArch c) (peanoDir c) (npuVersion c)
                (additionalPeanoOptFlags c) w1) as Hobj.
  cbv zeta in Hobj. rewrite H2 in Hobj. cbn [final_world returned] in Hobj.
  destruct Hobj as [D2 Hobj].
  destruct (OptFlags.makePeanoOptArgs _ _ _) as [msg|peanoArgs];
    [now destruct Hobj|].
  destruct Hobj as [E2 _]. specialize (E2 eq_refl).
  pose proof (generateCoreElfFiles_open_run _ _ _ _ _ _ _ _ _ _ Hnone H3)
    as E3.
  assert (execs w4 = execs w3) as E4.
  { destruct (emitCtrlPkt c); [|now injection H4 as <-].
    exact (preserves_ret_inv execs _ _ _ _
             (execs_generateControlPackets _ _) H4). }
  pose proof (preserves_ret_inv execs _ _ _ _ (execs_generateCDO _) H5) as E5.
  pose proof (preserves_ret_inv execs _ _ _ _ (execs_generatePDI _ _) H6)
    as E6.
  assert (execs w6
          = execs w
              ++ [ started (peanoDir c // "bin" // "opt") peanoArgs None;
                   started (peanoDir c // "bin" // "llc")
                     (llc_args (tempDir c) (targetArch c)
                        (tempDir c // "input.o")) None ]
              ++ map (clang_link (tempDir c // "input.o") (tempDir c)
                        (targetArch c) (peanoDir c) (verbose c))
                   (cores (w_device w))) as E.
  { rewrite E6, E5, E4, E3, E2, E1, D2, D1. now rewrite <- app_assoc. }
  exists peanoArgs.
  destruct (deviceHal c).
  - destruct (generateXCLBin_run _ _ _ _ _ _ _ _ _ _ H7)
      as (xclbinutil & _ & E7).
    eexists. split; [reflexivity|]. split.
    + rewrite E7, E. rewrite <- !app_assoc. reflexivity.
    + exists xclbinutil. reflexivity.
  - exists []. split; [reflexivity|]. split; [|reflexivity].
    rewrite (preserves_ret_inv execs _ _ _ _ (execs_copy_file _ _) H7), E.
    now rewrite !app_nil_r.
Qed.

Section ProcessesOnDemoPlatform.
#[local] Existing Instance Demo.platform.

(** The theorem at the demo world and the demo configuration: five
    processes. *)
Lemma aie2xclbin_open_backend_processes_witness :
  let w' := final_world (aie2xclbin Demo.config Demo.world) in
  exists peanoArgs packaging,
    OptFlags.makePeanoOptArgs ("/tmp/build" // "input.ll")
      ("/tmp/build" // "input.opt.ll") EmptyString
    = inr peanoArgs
    /\ execs w'
       = execs Demo.world
           ++ [ started ("/peano" // "bin" // "opt") peanoArgs None;
                started ("/peano" // "bin" // "llc")
                  (llc_args "/tmp/build" "AIE2" ("/tmp/build" // "input.o"))
                  None ]
           ++ map (clang_link ("/tmp/build" // "input.o") "/tmp/build" "AIE2"
                     "/peano" false)
                (cores Demo.device)
           ++ packaging
    /\ exists xclbinutil,
         packaging
         = [] ++ [started xclbinutil
                    (xclbinutil_package "/out/module.xclbin" "/tmp/build"
                       None) None].
Proof.
  intros w'.
  apply (aie2xclbin_open_backend_processes Demo.config Demo.world w').
  - reflexivity.
  - reflexivity.
  - vm_compute. reflexivity.
Defined.

End ProcessesOnDemoPlatform.

(** ** CoreElfBuilder: how a run can stop *)

Section Stops.
Context `{Platform}.

Lemma bindM_abort_inv {A B} (m : M A) (k : A -> M B) (w w' : World)
    (f : Fault) :
  bindM m k w = Abort f w' ->
  m w = Abort f w' \/ exists a w1, m w = Ret a w1 /\ k a w1 = Abort f w'.
Proof.
  rewrite bindM_run. destruct (m w) as [a w1|f1 w1]; [eauto|].
  intros [= <- <-]. auto.
Qed.

Lemma seq_abort_inv {A B} (m : M A) (k : M B) (w w' : World) (f : Fault) :
  (m ;; k) w = Abort f w' ->
  m w = Abort f w' \/ exists a w1, m w = Ret a w1 /\ k w1 = Abort f w'.
Proof.
  rewrite seq_run. destruct (m w) as [a w1|f1 w1]; [eauto|].
  intros [= <- <-]. auto.
Qed.

Lemma findVitis_returns (v : option string) (n : string) (w w' : World)
    (f : Fault) :
  recognized n = true -> findVitis v n w = Abort f w' -> False.
Proof.
  intros Hn. destruct (recognized_getTargetDir _ Hn) as [d Hd].
  unfold findVitis, reporting. rewrite Hd. mcrush.
Qed.

Lemma makeChessArgs_returns (v t n : string) (b : bool) (w w' : World)
    (f : Fault) :
  recognized n = true -> makeChessArgs v t n b w = Abort f w' -> False.
Proof.
  unfold recognized, makeChessArgs. intros Hn.
  destruct (String.eqb n "npu1"); [mcrush|].
  destruct (String.eqb n "npu4"); [mcrush|discriminate].
Qed.

Lemma makeChessEnv_stops (v n : string) (w w' : World) (f : Fault) :
  recognized n = true -> makeChessEnv v n w = Abort f w' -> f = NullString.
Proof.
  intros Hn. destruct (recognized_getTargetDir _ Hn) as [d Hd].
  unfold makeChessEnv, reporting. rewrite Hd. intros Hrun. msimpl.
  repeat (case_match; msimpl); reflexivity.
Qed.

Lemma runTool_stops (program_ : string) (args : list string)
    (verbose : bool) (env : option (list string)) (w w' : World)
    (f : Fault) :
  runTool program_ args verbose env w = Abort f w' -> f = NullString.
Proof.
  unfold runTool. rewrite seq_run.
  destruct (announceRun_run (resolvedProgram program_) args verbose env w)
    as (w0 & -> & _).
  intros Hrun. msimpl. repeat (case_match; msimpl); reflexivity.
Qed.

Lemma assembleStringUsingChess_stops (s i o d : string) (x : list string)
    (wd t n : string) (b : bool) (w w' : World) (f : Fault) :
  recognized n = true ->
  assembleStringUsingChess s i o d x wd t n b w = Abort f w' ->
  f = NullString.
Proof.
  intros Hn Hrun.
  unfold assembleStringUsingChess, assembleStringUsing in Hrun.
  rewrite bindM_run, dumpStrToDisk_run in Hrun.
  destruct (openOutputFile_error _ _); [mcrush|].
  apply bindM_abort_inv in Hrun as [Hrun|(r & w1 & _ & Hrun)];
    [|destruct (failed r); mcrush].
  unfold assembleFileUsingChess in Hrun.
  apply bindM_abort_inv in Hrun as [Hrun|([exe flags] & w1 & _ & Hrun)];
    [now apply makeChessArgs_returns in Hrun|].
  apply bindM_abort_inv in Hrun as [Hrun|(env & w2 & _ & Hrun)];
    [now apply makeChessEnv_stops in Hrun|].
  now apply runTool_stops in Hrun.
Qed.

(** When a microkernel is requested and the loop goes on, the path of
    its object is known. *)
Lemma ukernelObject_path (t c n : string) (files : string * string * string)
    (b : bool) (u v v' mm : option string) (w w' : World) :
  ukernelObject t c n files b u v w = Ret (Continue (v', mm)) w' ->
  ukernelRequested u = true -> is_Some mm.
Proof.
  unfold ukernelObject. destruct files as [[content name] object].
  intros Hrun Hu. rewrite Hu in Hrun.
  apply bindM_ret_inv in Hrun as ([v1 [dir|]] & w1 & _ & Hrun); [|mcrush].
  apply bindM_ret_inv in Hrun as (present & w2 & _ & Hrun).
  destruct present; cbn [negb] in Hrun; [injection Hrun as <- <- <-; eauto|].
  apply bindM_ret_inv in Hrun as ([path|] & w3 & _ & Hrun);
    [injection Hrun as <- <- <-; eauto | discriminate].
Qed.

Lemma ukernelObject_stops (t c n : string) (files : string * string * string)
    (b : bool) (u v : option string) (w w' : World) (f : Fault) :
  recognized n = true ->
  ukernelObject t c n files b u v w = Abort f w' -> f = NullString.
Proof.
  unfold ukernelObject. destruct files as [[content name] object].
  intros Hn Hrun. destruct (ukernelRequested u); [|discriminate].
  apply bindM_abort_inv in Hrun as [Hrun|([v1 [dir|]] & w1 & _ & Hrun)];
    [now apply findVitis_returns in Hrun | | mcrush].
  apply bindM_abort_inv in Hrun as [Hrun|(present & w2 & _ & Hrun)];
    [discriminate|].
  destruct present; cbn [negb] in Hrun; [discriminate|].
  apply bindM_abort_inv in Hrun as [Hrun|([path|] & w3 & _ & Hrun)];
    [now apply assembleStringUsingChess_stops in Hrun | discriminate..].
Qed.

Lemma mm_stops (u mm : option string) (w w' : World) (f : Fault) :
  (ukernelRequested u = true -> is_Some mm) ->
  (if ukernelRequested u
   then m <- Prim.deref mm ;; Prim.ret [m]
   else Prim.ret []) w = Abort f w' -> False.
Proof.
  intros Hmm. destruct (ukernelRequested u); [|discriminate].
  destruct (Hmm eq_refl) as [path ->]. discriminate.
Qed.

Lemma linkCoreWithPeano_stops (o t a p : string) (b : bool)
    (u : option string) (col row : Z) (e : string) (v mm : option string)
    (w w' : World) (f : Fault) :
  (ukernelRequested u = true -> is_Some mm) ->
  linkCoreWithPeano o t a p b u col row e v mm w = Abort f w' ->
  f = NullString.
Proof.
  intros Hmm Hrun. unfold linkCoreWithPeano in Hrun.
  apply bindM_abort_inv in Hrun as [Hrun|([msg|] & w1 & _ & Hrun)];
    [unfold openOutputFile in Hrun; mcrush | mcrush |].
  apply bindM_abort_inv in Hrun as [Hrun|(w1' & w1'' & Hget & Hrun)];
    [discriminate|].
  destruct (AIETranslateToLdScript _ _ _); [|unfold discard in Hrun; mcrush].
  apply seq_abort_inv in Hrun as [Hrun|(? & w2 & _ & Hrun)];
    [unfold os_write in Hrun; mcrush|].
  apply bindM_abort_inv in Hrun as [Hrun|(l & w3 & _ & Hrun)];
    [now apply mm_stops in Hrun|].
  apply bindM_abort_inv in Hrun as [Hrun|(r & w4 & _ & Hrun)];
    [now apply runTool_stops in Hrun | destruct (failed r); discriminate].
Qed.

Lemma linkCoreWithChess_stops (o t c n : string) (b : bool)
    (u : option string) (col row : Z) (e : string) (v mm : option string)
    (w w' : World) (f : Fault) :
  recognized n = true ->
  (ukernelRequested u = true -> is_Some mm) ->
  linkCoreWithChess o t c n b u col row e v mm w = Abort f w' ->
  f = NullString.
Proof.
  intros Hn Hmm Hrun. unfold linkCoreWithChess in Hrun.
  apply bindM_abort_inv in Hrun as [Hrun|([v1 [dir|]] & w1 & Hfind & Hrun)];
    [now apply findVitis_returns in Hrun | | discriminate].
  destruct (findVitis_success_inv _ _ _ _ _ _ Hfind) as (_ & -> & _).
  apply bindM_abort_inv in Hrun as [Hrun|(present & w2 & _ & Hrun)];
    [discriminate|].
  apply bindM_abort_inv in Hrun as [Hrun|([wrapper|] & w3 & _ & Hrun)];
    [|  | discriminate].
  { destruct present; cbn [negb] in Hrun; [discriminate|].
    now apply assembleStringUsingChess_stops in Hrun. }
  apply bindM_abort_inv in Hrun as [Hrun|([msg|] & w4 & _ & Hrun)];
    [unfold openOutputFile in Hrun; mcrush | mcrush |].
  apply bindM_abort_inv in Hrun as [Hrun|(w4' & w4'' & _ & Hrun)];
    [discriminate|].
  destruct (AIETranslateToBCF _ _ _); [|unfold discard in Hrun; mcrush].
  apply seq_abort_inv in Hrun as [Hrun|(? & w5 & _ & Hrun)];
    [unfold os_write in Hrun; mcrush|].
  apply bindM_abort_inv in Hrun as [Hrun|(dir' & w6 & _ & Hrun)];
    [discriminate|].
  apply bindM_abort_inv in Hrun as [Hrun|([exe flags] & w7 & _ & Hrun)];
    [now apply makeChessArgs_returns in Hrun|].
  apply bindM_abort_inv in Hrun as [Hrun|(l & w8 & _ & Hrun)];
    [now apply mm_stops in Hrun|].
  apply bindM_abort_inv in Hrun as [Hrun|(env & w9 & _ & Hrun)];
    [now apply makeChessEnv_stops in Hrun|].
  apply bindM_abort_inv in Hrun as [Hrun|(r & w10 & _ & Hrun)];
    [now apply runTool_stops in Hrun | destruct (failed r); mcrush].
Qed.

Lemma coreElfFile_stops (objFile tempDir : string) (useChess : bool)
    (targetArch : string) (verbose : bool) (peanoDir npuVersion : string)
    (ukernel : option string) (files : string * string * string) (i : nat)
    (vitisDir : option string) (w w' : World) (f : Fault) :
  recognized npuVersion = true ->
  coreElfFile objFile tempDir useChess targetArch verbose peanoDir
    npuVersion ukernel files i vitisDir w = Abort f w' ->
  f = NullString.
Proof.
  intros Hn Hrun. unfold coreElfFile in Hrun.
  rewrite bindM_run in Hrun. cbn [Prim.get] in Hrun.
  destruct (IR.tiles (w_device w) !! i) as [t|]; [|discriminate].
  destruct (IR.core t) as [c|]; [|discriminate].
  rewrite bindM_run, coreElfFileName_run in Hrun.
  rewrite bindM_run in Hrun. cbn [Prim.current_path] in Hrun.
  apply bindM_abort_inv in Hrun as [Hrun|(u & w1 & Hobj & Hrun)];
    [now apply ukernelObject_stops in Hrun|].
  destruct u as [[v1 mm]|]; [|discriminate].
  pose proof (ukernelObject_path _ _ _ _ _ _ _ _ _ _ _ Hobj) as Hmm.
  destruct useChess.
  - now apply linkCoreWithChess_stops in Hrun.
  - now apply linkCoreWithPeano_stops in Hrun.
Qed.

End Stops.

(** X2.  Whatever the device, the backend and the microkernel choice,
    [generateCoreElfFiles] can stop without returning for one reason
    only, a string built from a null pointer ([PATH] unset when the
    environment of the vendor compiler is made, or the log of a tool that
    cannot be read back).  In particular the unchecked [*vitisDir] and
    [mmObjectFilePath->string()] of the loop never meet an empty
    optional or a failed result, and the target directory is never taken
    from a failed [getTargetDir]. *)
Theorem generateCoreElfFiles_stops_on_null_string_only `{Platform}
    (objFile tempDir : string) (useChess : bool) (vitisDir : option string)
    (targetArch : string) (verbose : bool) (peanoDir npuVersion : string)
    (ukernel : option string) (w w' : World) (f : Fault) :
  generateCoreElfFiles objFile tempDir useChess vitisDir targetArch verbose
    peanoDir npuVersion ukernel w = Abort f w' ->
  f = NullString.
Proof.
  unfold generateCoreElfFiles. rewrite bindM_run. cbn [Prim.get].
  pose proof (ukernelFiles_recognized npuVersion) as [Hn _].
  destruct (ukernelFiles npuVersion) as [files|]; [|discriminate].
  specialize (Hn ltac:(eauto)).
  generalize (seq 0 (length (IR.tiles (w_device w)))). intros idxs.
  revert vitisDir w. induction idxs as [|i idxs IH]; intros v w Hrun;
    [discriminate|].
  cbn [forTiles] in Hrun.
  apply bindM_abort_inv in Hrun as [Hrun|([v1|] & w1 & _ & Hrun)];
    [now apply coreElfFile_stops in Hrun | | discriminate].
  eapply IH, Hrun.
Qed.

(** The theorem on a platform where every process removes its log. *)
Lemma generateCoreElfFiles_stops_on_null_string_only_witness :
  exists f w',
    @generateCoreElfFiles Cases.lost_log_platform "/tmp/build/input.o"
      "/tmp/build" false None "AIE2" false "/peano" "npu1" None Demo.world
    = Abort f w'
    /\ f = NullString.
Proof.
  eexists _, _. split; [vm_compute; reflexivity|].
  eapply (@generateCoreElfFiles_stops_on_null_string_only
            Cases.lost_log_platform "/tmp/build/input.o" "/tmp/build" false
            None "AIE2" false "/peano" "npu1" None Demo.world).
  vm_compute. reflexivity.
Defined.

(** ** What a successful run reports *)

#[local] Arguments reports : simpl never.

Section Quiet.
Context `{Platform}.

Lemma reports_with_event (e : Event) (w : World) :
  is_report e = false -> reports (with_event e w) = reports w.
Proof.
  intros He. unfold reports, with_event. cbn. rewrite filter_app.
  rewrite filter_cons_False by (rewrite He; discriminate).
  rewrite filter_nil. apply app_nil_r.
Qed.

Lemma reports_with_fs (fs : gmap string Node) (w : World) :
  reports (with_fs fs w) = reports w.
Proof. reflexivity. Qed.

Lemma reports_with_device (d : IR.DeviceOp) (w : World) :
  reports (with_device d w) = reports w.
Proof. reflexivity. Qed.

Lemma reports_openOutputFile (p : string) :
  preserves reports (openOutputFile p).
Proof. unfold openOutputFile. frame. Qed.

Lemma reports_os_write (p s : string) : preserves reports (os_write p s).
Proof. unfold os_write. frame. Qed.

Lemma reports_dumpStrToDisk (payload p : string) :
  preserves reports (dumpStrToDisk payload p).
Proof.
  pose proof reports_openOutputFile. pose proof reports_os_write.
  unfold dumpStrToDisk. frame.
Qed.

Lemma reports_emitWords (out : string) (a : list Z) (fuel : nat) (i : Z) :
  preserves reports (emitWords fuel out a i).
Proof.
  pose proof reports_os_write.
  revert i. induction fuel as [|fuel IH]; intros i; simpl; frame.
Qed.

Lemma reports_getUUIDString : preserves reports Uuid.getUUIDString.
Proof.
  assert (forall n, preserves reports (Uuid.dis_digits n)) as Hdigits.
  { induction n as [|n IH]; [apply preserves_ret|].
    cbn [Uuid.dis_digits]. apply preserves_bind; [intros w; reflexivity|].
    intros d. apply preserves_bind; [exact IH|]. intros rest.
    apply preserves_ret. }
  unfold Uuid.getUUIDString.
  repeat (apply preserves_bind;
          [first [solve [auto] | intros w; reflexivity]|]; intros ?).
  apply preserves_ret.
Qed.

Lemma reports_generateControlPackets (tempDir : string)
    (pm : PassManagerConfig) :
  preserves reports (generateControlPackets tempDir pm).
Proof.
  unfold generateControlPackets.
  apply preserves_bind; [apply preserves_get|]. intros w0.
  destruct (runControlPacketPasses _ _ _ _) as [r d]. frame.
Qed.

Lemma announceRun_reports (program : string) (args : list string)
    (verbose : bool) (env : option (list string)) :
  preserves reports (announceRun program args verbose env).
Proof.
  assert (forall msg, preserves reports (Prim.outs msg)) as Houts.
  { intros msg w. apply reports_with_event. reflexivity. }
  unfold announceRun. apply preserves_when.
  repeat first [ apply preserves_seq | apply Houts
               | destruct env; [apply Houts | apply preserves_ret] ].
Qed.

Lemma runTool_quiet (program_ : string) (args : list string)
    (verbose : bool) (env : option (list string)) (w w' : World)
    (r : LogicalResult) :
  runTool program_ args verbose env w = Ret r w' -> failed r = false ->
  reports w' = reports w.
Proof.
  intros Hrun Hr. destruct r; [|discriminate]. clear Hr.
  unfold runTool in Hrun. rewrite seq_run in Hrun.
  pose proof (announceRun_reports (resolvedProgram program_) args verbose
                env w) as Hann.
  destruct (announceRun _ _ _ _ w) as [[] w0|]; [|discriminate].
  cbn [final_world] in Hann. rewrite <- Hann. clear Hann.
  msimpl. repeat (case_match; msimpl).
  all: repeat first [ rewrite reports_with_fs
                    | rewrite reports_with_event by reflexivity ].
  all: reflexivity.
Qed.

Lemma assembleStringUsingChess_quiet (s i o d : string) (x : list string)
    (wd t n : string) (b : bool) (w w' : World) (out : string) :
  assembleStringUsingChess s i o d x wd t n b w = Ret (Some out) w' ->
  reports w' = reports w.
Proof.
  intros Hrun. unfold assembleStringUsingChess, assembleStringUsing in Hrun.
  rewrite bindM_run, dumpStrToDisk_run in Hrun.
  destruct (openOutputFile_error _ _); [mcrush|].
  apply bindM_ret_inv in Hrun as (r & w1 & Htool & Hrun).
  destruct (failed r) eqn:Hok; [mcrush|]. injection Hrun as _ <-.
  unfold assembleFileUsingChess in Htool.
  apply bindM_ret_inv in Htool as ([exe flags] & w2 & Hargs & Htool).
  apply bindM_ret_inv in Htool as (env & w3 & Henv & Htool).
  destruct (makeChessArgs_ret _ _ _ _ _ _ _ _ Hargs) as (-> & _).
  destruct (makeChessEnv_ret _ _ _ _ _ Henv) as (-> & _).
  now rewrite (runTool_quiet _ _ _ _ _ _ _ Htool Hok).
Qed.

Lemma ukernelObject_quiet (t c n : string) (files : string * string * string)
    (b : bool) (u v : option string) (x : option string * option string)
    (w w' : World) :
  ukernelObject t c n files b u v w = Ret (Continue x) w' ->
  reports w' = reports w.
Proof.
  unfold ukernelObject. destruct files as [[content name] object].
  intros Hrun. destruct (ukernelRequested u); [|now injection Hrun as _ <-].
  apply bindM_ret_inv in Hrun as ([v1 [dir|]] & w1 & Hfind & Hrun);
    [|mcrush].
  destruct (findVitis_success_inv _ _ _ _ _ _ Hfind) as (-> & _).
  apply bindM_ret_inv in Hrun as (present & w2 & Hpresent & Hrun).
  injection Hpresent as _ <-.
  destruct present; cbn [negb] in Hrun; [now injection Hrun as _ <-|].
  apply bindM_ret_inv in Hrun as ([path|] & w3 & Hasm & Hrun);
    [|discriminate].
  injection Hrun as _ <-.
  exact (assembleStringUsingChess_quiet _ _ _ _ _ _ _ _ _ _ _ _ Hasm).
Qed.

Lemma mm_same (u mm : option string) (l : list string) (w w' : World) :
  (if ukernelRequested u
   then m <- Prim.deref mm ;; Prim.ret [m]
   else Prim.ret []) w = Ret l w' -> w' = w.
Proof. intros Hrun. destruct (ukernelRequested u), mm; mcrush. Qed.

Lemma linkCoreWithPeano_quiet (o t a p : string) (b : bool)
    (u : option string) (col row : Z) (e : string)
    (v mm v' : option string) (w w' : World) :
  linkCoreWithPeano o t a p b u col row e v mm w = Ret (Continue v') w' ->
  reports w' = reports w.
Proof.
  intros Hrun. unfold linkCoreWithPeano in Hrun.
  apply bindM_ret_inv in Hrun as (err & w1 & Hopen & Hrun).
  apply (preserves_ret_inv reports _ _ _ _ (reports_openOutputFile _))
    in Hopen.
  destruct err as [msg|]; [mcrush|].
  apply bindM_ret_inv in Hrun as (w1' & w1'' & Hget & Hrun).
  injection Hget as <- <-.
  destruct (AIETranslateToLdScript _ _ _); [|mcrush].
  apply seq_ret_inv in Hrun as (? & w2 & Hwrite & Hrun).
  apply (preserves_ret_inv reports _ _ _ _ (reports_os_write _ _)) in Hwrite.
  apply bindM_ret_inv in Hrun as (l & w3 & Hmm & Hrun).
  apply mm_same in Hmm as ->.
  apply bindM_ret_inv in Hrun as (r & w4 & Htool & Hrun).
  destruct (failed r) eqn:Hok; [discriminate|]. injection Hrun as _ <-.
  rewrite (runTool_quiet _ _ _ _ _ _ _ Htool Hok). congruence.
Qed.

Lemma linkCoreWithChess_quiet (o t c n : string) (b : bool)
    (u : option string) (col row : Z) (e : string)
    (v mm v' : option string) (w w' : World) :
  linkCoreWithChess o t c n b u col row e v mm w = Ret (Continue v') w' ->
  reports w' = reports w.
Proof.
  intros Hrun. unfold linkCoreWithChess in Hrun.
  apply bindM_ret_inv in Hrun as ([v1 [dir|]] & w1 & Hfind & Hrun);
    [|discriminate].
  destruct (findVitis_success_inv _ _ _ _ _ _ Hfind) as (-> & _).
  apply bindM_ret_inv in Hrun as (present & w2 & Hpresent & Hrun).
  injection Hpresent as _ <-.
  apply bindM_ret_inv in Hrun as ([wrapper|] & w3 & Hasm & Hrun);
    [|discriminate].
  assert (reports w3 = reports w) as Hq3.
  { destruct present; cbn [negb] in Hasm; [now injection Hasm as _ <-|].
    exact (assembleStringUsingChess_quiet _ _ _ _ _ _ _ _ _ _ _ _ Hasm). }
  apply bindM_ret_inv in Hrun as (err & w4 & Hopen & Hrun).
  apply (preserves_ret_inv reports _ _ _ _ (reports_openOutputFile _))
    in Hopen.
  destruct err as [msg|]; [mcrush|].
  apply bindM_ret_inv in Hrun as (w4' & w4'' & Hget & Hrun).
  injection Hget as <- <-.
  destruct (AIETranslateToBCF _ _ _); [|mcrush].
  apply seq_ret_inv in Hrun as (? & w5 & Hwrite & Hrun).
  apply (preserves_ret_inv reports _ _ _ _ (reports_os_write _ _)) in Hwrite.
  apply bindM_ret_inv in Hrun as (dir' & w6 & Hval & Hrun).
  assert (w6 = w5) as -> by (destruct v1; mcrush).
  apply bindM_ret_inv in Hrun as ([exe flags] & w7 & Hargs & Hrun).
  destruct (makeChessArgs_ret _ _ _ _ _ _ _ _ Hargs) as (-> & _).
  apply bindM_ret_inv in Hrun as (l & w8 & Hmm & Hrun).
  apply mm_same in Hmm as ->.
  apply bindM_ret_inv in Hrun as (env & w9 & Henv & Hrun).
  destruct (makeChessEnv_ret _ _ _ _ _ Henv) as (-> & _).
  apply bindM_ret_inv in Hrun as (r & w10 & Htool & Hrun).
  destruct (failed r) eqn:Hok; [mcrush|]. injection Hrun as _ <-.
  rewrite (runTool_quiet _ _ _ _ _ _ _ Htool Hok). congruence.
Qed.

Lemma coreElfFile_quiet (objFile tempDir : string) (useChess : bool)
    (targetArch : string) (verbose : bool) (peanoDir npuVersion : string)
    (ukernel : option string) (files : string * string * string) (i : nat)
    (vitisDir vitisDir' : option string) (w w' : World) :
  coreElfFile objFile tempDir useChess targetArch verbose peanoDir
    npuVersion ukernel files i vitisDir w = Ret (Continue vitisDir') w' ->
  reports w' = reports w.
Proof.
  intros Hrun. unfold coreElfFile in Hrun.
  rewrite bindM_run in Hrun. cbn [Prim.get] in Hrun.
  destruct (IR.tiles (w_device w) !! i) as [t|];
    [|now injection Hrun as _ <-].
  destruct (IR.core t) as [c|]; [|now injection Hrun as _ <-].
  rewrite bindM_run, coreElfFileName_run in Hrun.
  set (w1 := match IR.elf_file c with Some _ => w | None => _ end) in Hrun.
  assert (reports w1 = reports w) as <-
    by (subst w1; now destruct (IR.elf_file c)).
  rewrite bindM_run in Hrun. cbn [Prim.current_path] in Hrun.
  apply bindM_ret_inv in Hrun as ([[v1 mm]|] & w2 & Hobj & Hrun);
    [|discriminate].
  apply ukernelObject_quiet in Hobj. rewrite <- Hobj.
  destruct useChess.
  - exact (linkCoreWithChess_quiet _ _ _ _ _ _ _ _ _ _ _ _ _ _ Hrun).
  - exact (linkCoreWithPeano_quiet _ _ _ _ _ _ _ _ _ _ _ _ _ _ Hrun).
Qed.

Lemma generateCoreElfFiles_quiet (objFile tempDir : string)
    (useChess : bool) (vitisDir : option string) (targetArch : string)
    (verbose : bool) (peanoDir npuVersion : string)
    (ukernel : option string) (w w' : World) :
  generateCoreElfFiles objFile tempDir useChess vitisDir targetArch verbose
    peanoDir npuVersion ukernel w = Ret success w' ->
  reports w' = reports w.
Proof.
  unfold generateCoreElfFiles. rewrite bindM_run. cbn [Prim.get].
  destruct (ukernelFiles npuVersion) as [files|]; [|mcrush].
  generalize (seq 0 (length (IR.tiles (w_device w)))). intros idxs.
  revert vitisDir w. induction idxs as [|i idxs IH]; intros v w Hrun;
    [now injection Hrun as <-|].
  cbn [forTiles] in Hrun.
  apply bindM_ret_inv in Hrun as ([v1|] & w1 & Hbody & Hrun);
    [|discriminate].
  rewrite (IH _ _ Hrun).
  exact (coreElfFile_quiet _ _ _ _ _ _ _ _ _ _ _ _ _ _ Hbody).
Qed.

Lemma generateUnifiedObject_quiet (outputFile : string)
    (pm : PassManagerConfig) (useChess verbose : bool) (tempDir : string)
    (vitisDir : option string) (targetArch peanoDir npuVersion
      additionalPeanoOptFlags : string) (w w' : World) :
  generateUnifiedObject outputFile pm useChess verbose tempDir vitisDir
    targetArch peanoDir npuVersion additionalPeanoOptFlags w
  = Ret success w' ->
  reports w' = reports w.
Proof.
  intros Hrun. unfold generateUnifiedObject in Hrun.
  apply seq_ret_inv in Hrun as (? & w1 & Hsay & Hrun).
  assert (reports w1 = reports w) as <-.
  { destruct verbose; [|now injection Hsay as _ <-].
    injection Hsay as _ <-. now apply reports_with_event. }
  rewrite bindM_run in Hrun. cbn [Prim.get] in Hrun.
  destruct (runLoweringPasses _ _ _) as [moduleOpCopy|]; [|mcrush].
  destruct (translateModuleToLLVMIR _) as [inputLLStr|]; [|mcrush].
  destruct useChess.
  - apply bindM_ret_inv in Hrun as ([v1 [dir|]] & w2 & Hfind & Hrun);
      [|discriminate].
    destruct (findVitis_success_inv _ _ _ _ _ _ Hfind) as (-> & _).
    apply bindM_ret_inv in Hrun as ([path|] & w3 & Hasm & Hrun);
      [|discriminate].
    injection Hrun as <-.
    exact (assembleStringUsingChess_quiet _ _ _ _ _ _ _ _ _ _ _ _ Hasm).
  - rewrite bindM_run, dumpStrToDisk_run in Hrun.
    destruct (openOutputFile_error _ _); [mcrush|].
    rewrite bindM_run in Hrun. unfold reporting in Hrun.
    destruct (OptFlags.makePeanoOptArgs _ _ _) as [msg|peanoArgs];
      [mcrush|].
    cbn [Prim.ret] in Hrun.
    apply bindM_ret_inv in Hrun as (r1 & w2 & Hopt & Hrun).
    destruct (failed r1) eqn:Hok1; [mcrush|].
    apply bindM_ret_inv in Hrun as (r2 & w3 & Hllc & Hrun).
    destruct (failed r2) eqn:Hok2; [mcrush|].
    injection Hrun as <-.
    rewrite (runTool_quiet _ _ _ _ _ _ _ Hllc Hok2).
    now rewrite (runTool_quiet _ _ _ _ _ _ _ Hopt Hok1).
Qed.

Lemma emitNpuInstructions_quiet (outputNPU : string) (w w' : World) :
  emitNpuInstructions outputNPU w = Ret success w' ->
  reports w' = reports w.
Proof.
  intros Hrun. unfold emitNpuInstructions in Hrun.
  rewrite bindM_run in Hrun. cbn [Prim.get] in Hrun.
  destruct (IR.npu_instructions (w_device w)) as [[[a|]|]|];
    [|discriminate|mcrush|mcrush].
  apply bindM_ret_inv in Hrun as (err & w1 & Hopen & Hrun).
  apply (preserves_ret_inv reports _ _ _ _ (reports_openOutputFile _))
    in Hopen.
  destruct err as [msg|]; [mcrush|].
  apply seq_ret_inv in Hrun as (? & w2 & Hloop & Hrun).
  apply (preserves_ret_inv reports _ _ _ _ (reports_emitWords _ _ _ _))
    in Hloop.
  destruct (ArrayRef.back a); [|discriminate].
  apply seq_ret_inv in Hrun as (? & w3 & Hwrite & Hrun).
  apply (preserves_ret_inv reports _ _ _ _ (reports_os_write _ _)) in Hwrite.
  injection Hrun as <-. congruence.
Qed.

Lemma generatePDI_quiet (Output tempDir : string) (w w' : World) :
  generatePDI Output tempDir w = Ret success w' -> reports w' = reports w.
Proof.
  intros Hrun. unfold generatePDI in Hrun.
  apply bindM_ret_inv in Hrun as (err & w1 & Hopen & Hrun).
  apply (preserves_ret_inv reports _ _ _ _ (reports_openOutputFile _))
    in Hopen.
  destruct err as [msg|]; [mcrush|].
  apply seq_ret_inv in Hrun as (? & w2 & Hwrite & Hrun).
  apply (preserves_ret_inv reports _ _ _ _ (reports_os_write _ _)) in Hwrite.
  rewrite bindM_run in Hrun. cbn [Prim.get] in Hrun.
  destruct (bootgen_main _ _) as [status fs].
  destruct (status =? 0); msimpl.
  rewrite reports_with_fs, reports_with_event by reflexivity. congruence.
Qed.

Lemma openInputFile_same (p : string) (x : string + string) (w w' : World) :
  openInputFile p w = Ret x w' -> w' = w.
Proof. unfold openInputFile. intros Hrun. mcrush. Qed.

Lemma partitionPDIs_same (doc : option json)
    (x : gmap string json * gmap string json * option (list json))
    (w w' : World) :
  Xclbin.partitionPDIs doc w = Ret x w' -> w' = w.
Proof. unfold Xclbin.partitionPDIs. intros Hrun. mcrush. Qed.

Lemma mergePartition_quiet (tempDir : string) (w w' : World) :
  Xclbin.mergePartition tempDir w = Ret success w' ->
  reports w' = reports w.
Proof.
  intros Hrun. unfold Xclbin.mergePartition in Hrun.
  apply bindM_ret_inv in Hrun as ([msg|buffer] & w1 & Hin & Hrun);
    [mcrush|].
  apply openInputFile_same in Hin as ->.
  apply bindM_ret_inv in Hrun as ([[root partition] pdis] & w2 & Hdoc & Hrun).
  apply partitionPDIs_same in Hdoc as ->.
  apply bindM_ret_inv in Hrun as ([msg|buffer'] & w3 & Hin & Hrun);
    [mcrush|].
  apply openInputFile_same in Hin as ->.
  apply bindM_ret_inv in Hrun as ([[root' partition'] pdis'] & w4 & Hdoc
                                  & Hrun).
  apply partitionPDIs_same in Hdoc as ->.
  apply bindM_ret_inv in Hrun as (base & w5 & Hbase & Hrun).
  assert (w5 = w) as -> by (destruct pdis; mcrush).
  apply bindM_ret_inv in Hrun as (added & w6 & Hadded & Hrun).
  assert (w6 = w) as -> by (destruct pdis'; mcrush).
  apply bindM_ret_inv in Hrun as (err & w7 & Hdump & Hrun).
  apply (preserves_ret_inv reports _ _ _ _ (reports_dumpStrToDisk _ _))
    in Hdump.
  destruct err; [mcrush|]. injection Hrun as <-. exact Hdump.
Qed.

Lemma generateXCLBin_quiet
    (Output tempDir xclBinKernelID xclBinKernelName xclBinInstanceName
       amdAIEInstallDir : string) (verbose : bool)
    (inputXclbin : option string) (w w' : World) :
  Xclbin.generateXCLBin Output tempDir xclBinKernelID xclBinKernelName
    xclBinInstanceName amdAIEInstallDir verbose inputXclbin w
  = Ret success w' ->
  reports w' = reports w.
Proof.
  intros Hrun. unfold Xclbin.generateXCLBin in Hrun.
  apply bindM_ret_inv in Hrun as ([[xclbinutil flags]|] & w1 & Hprep & Hrun);
    [|discriminate].
  rewrite (runTool_quiet _ _ _ _ _ _ _ Hrun eq_refl). clear Hrun.
  unfold Xclbin.prepareXCLBin in Hprep.
  minv Hprep.
  all: injection Hprep as <- <- <-.
  all: repeat match goal with
         | Hm : dumpStrToDisk _ _ _ = Ret _ _ |- _ =>
             apply (preserves_ret_inv reports _ _ _ _
                      (reports_dumpStrToDisk _ _)) in Hm
         | Hm : Uuid.getUUIDString _ = Ret _ _ |- _ =>
             apply (preserves_ret_inv reports _ _ _ _ reports_getUUIDString)
               in Hm
         | Hm : generatePDI _ _ _ = Ret ?r _, Hr : failed ?r = false |- _ =>
             destruct r; [|discriminate Hr]; apply generatePDI_quiet in Hm
         | Hm : Xclbin.mergePartition _ _ = Ret ?r _,
           Hr : failed ?r = false |- _ =>
             destruct r; [|discriminate Hr];
             apply mergePartition_quiet in Hm
         | Hm : runTool _ _ _ _ _ = Ret ?r _, Hr : failed ?r = false |- _ =>
             apply (fun H0 => runTool_quiet _ _ _ _ _ _ _ H0 Hr) in Hm
         | Hm : findAMDAIETool _ _ ?w0 = Ret (Some _) ?w1 |- _ =>
             assert (w1 = w0) as ->
               by (revert Hm; rewrite findAMDAIETool_first_candidate;
                   destruct (List.find _ _); congruence);
             clear Hm
         end.
  all: congruence.
Qed.

Lemma reports_copy_file (from to : string) :
  preserves reports (copy_file from to).
Proof. unfold copy_file. frame. Qed.

Lemma generateCDO_quiet (tempDir : string) (w w' : World) :
  generateCDO tempDir w = Ret success w' -> reports w' = reports w.
Proof. unfold generateCDO. intros Hrun. mcrush. Qed.

End Quiet.

(** X10.  With IR printing and timing off (the options
    [printIRBeforeAll], [printIRAfterAll] and [timing] all false, so
    that the pass manager configured by [applyConfigToPassManager]
    prints nothing of its own), a run of [aie2xclbin] that returns
    success has written nothing to [llvm::errs()] and emitted no
    diagnostic, whichever the backend and the runtime: every message of
    the pipeline is followed by a failure return.  What the pass manager
    prints when one of the three options is set is not part of the
    trace, and the statement says nothing about such runs. *)
Theorem aie2xclbin_success_is_quiet `{Platform} (c : Config) (w w' : World) :
  printIRBeforeAll (passManager c) = false ->
  printIRAfterAll (passManager c) = false ->
  timing (passManager c) = false ->
  aie2xclbin c w = Ret success w' -> reports w' = reports w.
Proof.
  intros _ _ _ Hrun.
  destruct (aie2xclbin_success_inv _ _ _ Hrun)
    as (w1 & w2 & w3 & w4 & w5 & w6 & H1 & H2 & H3 & H4 & H5 & H6 & H7).
  assert (reports w1 = reports w) as Q1.
  { unfold emitRequestedInstructions in H1.
    destruct (outputNPU c); [|now injection H1 as <-].
    now apply emitNpuInstructions_quiet in H1. }
  apply generateUnifiedObject_quiet in H2.
  apply generateCoreElfFiles_quiet in H3.
  assert (reports w4 = reports w3) as Q4.
  { destruct (emitCtrlPkt c); [|now injection H4 as <-].
    exact (preserves_ret_inv reports _ _ _ _
             (reports_generateControlPackets _ _) H4). }
  apply generateCDO_quiet in H5. apply generatePDI_quiet in H6.
  assert (reports w' = reports w6) as Q7.
  { destruct (deviceHal c).
    - now apply generateXCLBin_quiet in H7.
    - exact (preserves_ret_inv reports _ _ _ _ (reports_copy_file _ _) H7). }
  congruence.
Qed.

Section QuietOnDemoPlatform.
#[local] Existing Instance Demo.platform.

(** The theorem at the demo world and the demo configuration. *)
Lemma aie2xclbin_success_is_quiet_witness :
  reports (final_world (aie2xclbin Demo.config Demo.world))
  = reports Demo.world.
Proof.
  apply (aie2xclbin_success_is_quiet Demo.config Demo.world);
    [reflexivity | reflexivity | reflexivity | vm_compute; reflexivity].
Defined.

End QuietOnDemoPlatform.

Section StartsOnly.
Context `{Platform}.
Context (P : Event -> Prop).

Lemma starts_only_preserves {A} (m : M A) :
  preserves execs m -> starts_only P m.
Proof.
  intros Hm w. exists []. rewrite Hm, app_nil_r. split; [reflexivity|].
  constructor.
Qed.

Lemma starts_only_bind_post {A B} (Q : A -> Prop) (m : M A)
    (k : A -> M B) :
  starts_only P m -> (forall w a w1, m w = Ret a w1 -> Q a) ->
  (forall a, Q a -> starts_only P (k a)) ->
  starts_only P (bindM m k).
Proof.
  intros Hm HQ Hk w. rewrite final_bind. destruct (Hm w) as (l & Hl & HP).
  destruct (m w) as [a w1|f w1] eqn:Hrun; cbn [final_world] in Hl.
  - destruct (Hk a (HQ _ _ _ Hrun) w1) as (l' & Hl' & HP').
    exists (l ++ l'). rewrite Hl', Hl, app_assoc. split; [reflexivity|].
    now apply Forall_app.
  - now exists l.
Qed.

Lemma starts_only_bind {A B} (m : M A) (k : A -> M B) :
  starts_only P m -> (forall a, starts_only P (k a)) ->
  starts_only P (bindM m k).
Proof.
  intros Hm Hk. apply (starts_only_bind_post (fun _ => True)); auto.
Qed.

Lemma starts_only_runTool (program_ : string) (args : list string)
    (verbose : bool) (env : option (list string)) :
  P (started program_ args env) ->
  starts_only P (runTool program_ args verbose env).
Proof.
  intros HP w.
  destruct (runTool_execs program_ args verbose env w) as [[Hex _]|Hex].
  - exists []. rewrite Hex, app_nil_r. split; [reflexivity|constructor].
  - exists [started program_ args env]. split; [exact Hex|].
    now repeat constructor.
Qed.

End StartsOnly.

(** Discharges a step that starts no process. *)
Ltac still :=
  apply starts_only_preserves;
  first
    [ apply execs_dumpStrToDisk
    | apply execs_findVitis
    | apply execs_openOutputFile
    | apply execs_os_write
    | apply preserves_makeChessArgs;
      intros; first [reflexivity | now apply execs_with_event]
    | apply preserves_makeChessEnv;
      intros; first [reflexivity | now apply execs_with_event]
    | solve [frame]
    | solve [unfold discard, coreElfFileName; frame] ].

Section VendorSteps.
Context `{Platform}.

Lemma makeChessArgs_exe (vitisDir tempDir npuVersion : string)
    (verbose : bool) (w : World) (a : string * list string) (w1 : World) :
  makeChessArgs vitisDir tempDir npuVersion verbose w = Ret a w1 ->
  fst a = xchesscc vitisDir.
Proof.
  destruct a as [exe flags]. intros Hrun.
  now destruct (makeChessArgs_ret _ _ _ _ _ _ _ _ Hrun) as (_ & -> & _).
Qed.

Lemma is_chess_run_started (vitisDir : string) (args : list string)
    (env : option (list string)) :
  is_chess_run (started (xchesscc vitisDir) args env).
Proof. now exists vitisDir. Qed.

Lemma starts_only_assembleStringUsingChess (s i o d : string)
    (x : list string) (wd t n : string) (b : bool) :
  starts_only is_chess_run (assembleStringUsingChess s i o d x wd t n b).
Proof.
  unfold assembleStringUsingChess, assembleStringUsing.
  apply starts_only_bind; [still|].
  intros [err|]; [still|].
  apply starts_only_bind; [|intros r; still].
  unfold assembleFileUsingChess.
  apply (starts_only_bind_post _ (fun ea => fst ea = xchesscc t));
    [still | apply makeChessArgs_exe |].
  intros [exe flags] Hexe. cbn [fst] in Hexe. subst exe.
  apply starts_only_bind; [still|]. intros env.
  apply starts_only_runTool, is_chess_run_started.
Qed.

Lemma starts_only_ukernelObject (t c n : string)
    (files : string * string * string) (b : bool) (u v : option string) :
  starts_only is_chess_run (ukernelObject t c n files b u v).
Proof.
  unfold ukernelObject. destruct files as [[content name] object].
  destruct (ukernelRequested u); [|still].
  apply starts_only_bind; [still|]. intros [v1 [dir|]]; [|still].
  apply starts_only_bind; [still|]. intros present.
  destruct present; cbn [negb]; [still|].
  apply starts_only_bind; [apply starts_only_assembleStringUsingChess|].
  intros [path|]; still.
Qed.

Lemma starts_only_linkCoreWithChess (o t c n : string) (b : bool)
    (u : option string) (col row : Z) (e : string)
    (v mm : option string) :
  starts_only is_chess_run (linkCoreWithChess o t c n b u col row e v mm).
Proof.
  unfold linkCoreWithChess.
  apply starts_only_bind; [still|]. intros [v1 [dir|]]; [|still].
  apply starts_only_bind; [still|]. intros present.
  apply starts_only_bind.
  { destruct present; cbn [negb];
      [still | apply starts_only_assembleStringUsingChess]. }
  intros [wrapper|]; [|still].
  apply starts_only_bind; [still|]. intros [msg|]; [still|].
  apply starts_only_bind; [still|]. intros w0.
  destruct (AIETranslateToBCF _ _ _); [|still].
  apply starts_only_bind; [still|]. intros _.
  apply starts_only_bind; [still|]. intros dir'.
  apply (starts_only_bind_post _ (fun ea => fst ea = xchesscc dir'));
    [still | apply makeChessArgs_exe |].
  intros [exe flags] Hexe. cbn [fst] in Hexe. subst exe.
  apply starts_only_bind; [still|]. intros l.
  apply starts_only_bind; [still|]. intros env.
  apply starts_only_bind;
    [apply starts_only_runTool, is_chess_run_started|].
  intros r. still.
Qed.

Lemma starts_only_coreElfFile (objFile tempDir targetArch : string)
    (verbose : bool) (peanoDir npuVersion : string)
    (ukernel : option string) (files : string * string * string) (i : nat)
    (vitisDir : option string) :
  starts_only is_chess_run
    (coreElfFile objFile tempDir true targetArch verbose peanoDir
       npuVersion ukernel files i vitisDir).
Proof.
  unfold coreElfFile.
  apply starts_only_bind; [still|]. intros w0.
  destruct (IR.tiles (w_device w0) !! i) as [t|]; [|still].
  destruct (IR.core t) as [c|]; [|still].
  apply starts_only_bind; [still|]. intros elfFileName.
  apply starts_only_bind; [still|]. intros cwd.
  apply starts_only_bind; [apply starts_only_ukernelObject|].
  intros [[v1 mm]|]; [|still].
  apply starts_only_linkCoreWithChess.
Qed.

End VendorSteps.

(** X6.  With the vendor backend the two compile steps start the vendor
    compiler and nothing else, however they end (success, failure or a
    fatal stop), with or without a microkernel: every process started
    by [generateUnifiedObject] and by [generateCoreElfFiles] is the
    [xchesscc] of some Vitis installation, and none is a tool of the
    Peano directory. *)
Theorem vendor_backend_starts_only_xchesscc `{Platform}
    (outputFile objFile : string) (pm : PassManagerConfig) (verbose : bool)
    (tempDir : string) (vitisDir : option string)
    (targetArch peanoDir npuVersion additionalPeanoOptFlags : string)
    (ukernel : option string) :
  starts_only is_chess_run
    (generateUnifiedObject outputFile pm true verbose tempDir vitisDir
       targetArch peanoDir npuVersion additionalPeanoOptFlags)
  /\ starts_only is_chess_run
       (generateCoreElfFiles objFile tempDir true vitisDir targetArch verbose
          peanoDir npuVersion ukernel).
Proof.
  split.
  - unfold generateUnifiedObject.
    apply starts_only_bind; [still|]. intros _.
    apply starts_only_bind; [still|]. intros w0.
    destruct (runLoweringPasses _ _ _) as [moduleOpCopy|]; [|still].
    destruct (translateModuleToLLVMIR _) as [inputLLStr|]; [|still].
    apply starts_only_bind; [still|]. intros [v1 [dir|]]; [|still].
    apply starts_only_bind; [apply starts_only_assembleStringUsingChess|].
    intros [path|]; still.
  - unfold generateCoreElfFiles.
    apply starts_only_bind; [still|]. intros w0.
    destruct (ukernelFiles npuVersion) as [files|]; [|still].
    generalize (seq 0 (length (IR.tiles (w_device w0)))). intros idxs.
    revert vitisDir. induction idxs as [|i idxs IH]; intros v; [still|].
    cbn [forTiles].
    apply starts_only_bind; [apply starts_only_coreElfFile|].
    intros [v1|]; [apply IH | still].
Qed.
